(** * fuel_server.py: the fuel-log backend, embedded and verified

    The three SQLite tables are typed row lists, the Flask handlers are
    state-passing functions over the database, Python exceptions are an
    error monad, Python floats are Rocq's binary64 primitive floats, and
    the dictionaries that [get_logs] mutates in place live in a store
    indexed by object identity. Text is held as its UTF-8 bytes. *)

From Stdlib Require Import ZArith Floats Ascii String Bool Lia OrderedTypeEx Sorted.
From stdpp Require Import base option list gmap strings pretty.

Local Open Scope Z_scope.

(* ------------------------------------------------------------------ *)
(** ** Python exceptions as an error monad *)

Inductive exn : Type :=
  | ZeroDivisionError
  | TypeError
  | ValueError
  | OverflowError
  | AttributeError
  | KeyError
  | IntegrityError      (* sqlite3.IntegrityError *)
  | ProgrammingError.   (* sqlite3: parameter of an unsupported type
                           (InterfaceError before Python 3.11) *)

Inductive result (A : Type) : Type :=
  | Ok (a : A)
  | Raise (e : exn).
Arguments Ok {A} a.
Arguments Raise {A} e.

#[global] Instance result_ret : MRet result := fun A a => Ok a.
#[global] Instance result_bind : MBind result := fun A B f m =>
  match m with
  | Ok a => f a
  | Raise e => Raise e
  end.

(** [for x in l: s = f(s, x)], stopping at the first exception. *)
Fixpoint for_each {A S : Type} (f : S -> A -> result S) (l : list A) (s : S)
  : result S :=
  match l with
  | [] => Ok s
  | x :: l' => s' ← f s x; for_each f l' s'
  end.

(** [enumerate(l)], counting from [i]. *)
Fixpoint enumerate_from {A : Type} (i : nat) (l : list A) : list (nat * A) :=
  match l with
  | [] => []
  | x :: l' => (i, x) :: enumerate_from (S i) l'
  end.

Definition enumerate {A : Type} (l : list A) : list (nat * A) :=
  enumerate_from 0 l.

(* ------------------------------------------------------------------ *)
(** ** JSON request bodies and SQLite values *)

(** What [request.get_json()] holds under a key. *)
#[local] Unset Elimination Schemes.
Inductive json : Type :=
  | JNull
  | JBool (b : bool)
  | JInt (z : Z)
  | JFloat (f : float)
  | JStr (s : string)
  | JArr (l : list json)
  | JObj (o : list (string * json)).
#[local] Set Elimination Schemes.

(** A number as Python holds it: [0] from [COALESCE(..., 0)] is an int, a
    REAL aggregate is a float. *)
Inductive num : Type :=
  | PyInt (z : Z)
  | PyFloat (f : float).

(** A value as SQLite stores it in a column. *)
Inductive sqlval : Type :=
  | SNull
  | SInt (z : Z)
  | SReal (f : float)
  | SText (s : string).

(** The parts of the Python and SQLite runtimes whose exact result no
    handler inspects: they are an interface of the model. *)
Class Platform : Type := {
  (** [float(s)] on a string; [None] is ValueError *)
  float_of_str : string -> option float;
  (** SQLite reading a well-formed numeric literal out of text, for a
      column of numeric affinity *)
  numeric_of_text : string -> option num;
  (** SQLite rendering a REAL as text, for a column of TEXT affinity *)
  text_of_real : float -> string;
  (** SQLite's [SUM] over the REAL values of a non-empty group *)
  sqlite_sum : list float -> float;
  (** Python's [sum] over a non-empty list of numbers, from the int [0] *)
  python_sum : list num -> num;
  (** [s.upper()] and [s.strip()] on text that is not all ASCII: the
      Unicode case mappings and whitespace classes *)
  upper_unicode : string -> string;
  strip_unicode : string -> string
}.

(* ------------------------------------------------------------------ *)
(** ** The Python runtime: floats, text, sorting *)

Module Py.

(** [a - b], [a * b] on floats raise nothing; [a / b] raises
    ZeroDivisionError exactly when [b == 0.0]. *)
Definition sub (a b : float) : float := PrimFloat.sub a b.
Definition mul (a b : float) : float := PrimFloat.mul a b.
Definition div (a b : float) : result float :=
  if PrimFloat.eqb b 0%float then Raise ZeroDivisionError
  else Ok (PrimFloat.div a b).
Definition gt (a b : float) : bool := PrimFloat.ltb b a.
Definition le (a b : float) : bool := PrimFloat.leb a b.

(** Nearest integer to [num / den] ([den > 0], [num >= 0]), ties to even. *)
Definition div_half_even (num den : Z) : Z :=
  let q := num / den in
  let r := num mod den in
  match 2 * r ?= den with
  | Lt => q
  | Gt => q + 1
  | Eq => if Z.even q then q else q + 1
  end.

(** The built-in [round(x, ndigits)] on a float, for [ndigits >= 0]
    (CPython's [double_round]: the exact value of [x] is rounded half-even
    to [ndigits] decimals and the decimal result is converted back to the
    nearest double; infinities and NaN round to themselves; the sign of a
    result that rounds to zero is kept). *)
Definition round (x : float) (ndigits : nat) : float :=
  match Prim2SF x with
  | S754_finite s m e =>
      let p := 10 ^ Z.of_nat ndigits in
      let q := if 0 <=? e then Z.pos m * 2 ^ e * p
               else div_half_even (Z.pos m * p) (2 ^ (- e)) in
      match q with
      | Z.pos qm =>
          SF2Prim (SFdiv prec emax (S754_finite s qm 0)
                                   (S754_finite false (Z.to_pos p) 0))
      | _ => SF2Prim (S754_zero s)
      end
  | _ => x
  end.

(** [float(n)] for a Python int: correctly rounded, OverflowError when the
    result is not finite. *)
Definition float_of_int (z : Z) : result float :=
  match binary_normalize prec emax z 0 false with
  | S754_infinity _ => Raise OverflowError
  | sf => Ok (SF2Prim sf)
  end.

(** The integer a float denotes, when it denotes one. *)
Definition int_of_integral_float (f : float) : option Z :=
  match Prim2SF f with
  | S754_zero _ => Some 0
  | S754_finite s m e =>
      let v := if 0 <=? e then Some (Z.pos m * 2 ^ e)
               else if (Z.pos m mod 2 ^ (- e)) =? 0
                    then Some (Z.pos m / 2 ^ (- e)) else None in
      (fun z : Z => if s then - z else z) <$> v
  | _ => None
  end.

(** Text is modelled as its UTF-8 bytes: equality and order on the bytes
    are equality and order on the text. [upper] and [strip] are computed
    on ASCII text; on other text they are the platform's. *)

(** [s.isascii()] *)
Fixpoint isascii (s : string) : bool :=
  match s with
  | String c s' => (nat_of_ascii c <? 128)%nat && isascii s'
  | EmptyString => true
  end.

(** [c.isspace()] on ASCII: tab, LF, VT, FF, CR, FS, GS, RS, US, space. *)
Definition isspace (c : ascii) : bool :=
  let n := nat_of_ascii c in
  ((9 <=? n) && (n <=? 13) || (28 <=? n) && (n <=? 32))%nat.

Fixpoint lstrip (s : string) : string :=
  match s with
  | String c s' => if isspace c then lstrip s' else s
  | EmptyString => EmptyString
  end.

Fixpoint rstrip (s : string) : string :=
  match s with
  | String c s' =>
      match rstrip s' with
      | EmptyString => if isspace c then EmptyString else String c EmptyString
      | t => String c t
      end
  | EmptyString => EmptyString
  end.

(** [s.strip()] *)
Definition strip `{Platform} (s : string) : string :=
  if isascii s then rstrip (lstrip s) else strip_unicode s.

Definition upper_char (c : ascii) : ascii :=
  let n := nat_of_ascii c in
  if ((97 <=? n) && (n <=? 122))%nat then ascii_of_nat (n - 32) else c.

Fixpoint upper_ascii (s : string) : string :=
  match s with
  | String c s' => String (upper_char c) (upper_ascii s')
  | EmptyString => EmptyString
  end.

(** [s.upper()] *)
Definition upper `{Platform} (s : string) : string :=
  if isascii s then upper_ascii s else upper_unicode s.

(** Insertion of [x] into a list sorted by [key], before the first
    element whose key is not smaller. *)
Fixpoint insert_by {A : Type} (key : A -> string) (x : A) (l : list A)
  : list A :=
  match l with
  | [] => [x]
  | y :: l' =>
      if String.ltb (key y) (key x) then y :: insert_by key x l'
      else x :: l
  end.

(** [l.sort(key=key)]: ascending by [key], stable (elements with equal
    keys keep their order). *)
Fixpoint sorted {A : Type} (key : A -> string) (l : list A) : list A :=
  match l with
  | [] => []
  | x :: l' => insert_by key x (sorted key l')
  end.

(** [l.sort(key=key, reverse=True)]: descending by [key], still stable;
    CPython reverses, sorts and reverses again. *)
Definition sorted_reverse {A : Type} (key : A -> string) (l : list A)
  : list A :=
  rev (sorted key (rev l)).

End Py.

(* ------------------------------------------------------------------ *)
(** ** Requests and the two modules that read them *)

(** The JSON body of a request: a dict. *)
Abbreviation body := (gmap string json).

Module Json.

(** [bool(v)] *)
Definition truthy (v : json) : bool :=
  match v with
  | JNull => false
  | JBool b => b
  | JInt z => negb (z =? 0)
  | JFloat f => negb (PrimFloat.eqb f 0%float)
  | JStr s => negb (String.eqb s "")
  | JArr l => match l with [] => false | _ => true end
  | JObj o => match o with [] => false | _ => true end
  end.

(** [v is None] *)
Definition is_none (v : json) : bool :=
  match v with JNull => true | _ => false end.

(** [data.get(k)] and [data.get(k, d)] *)
Definition get (data : body) (k : string) : json := default JNull (data !! k).
Definition get_or (data : body) (k : string) (d : json) : json :=
  default d (data !! k).

(** [data[k]] *)
Definition item (data : body) (k : string) : result json :=
  match data !! k with
  | Some v => Ok v
  | None => Raise KeyError
  end.

(** [float(v)] *)
Definition float `{Platform} (v : json) : result float :=
  match v with
  | JFloat f => Ok f
  | JInt z => Py.float_of_int z
  | JBool b => Ok (if b then 1%float else 0%float)
  | JStr s =>
      match float_of_str s with
      | Some f => Ok f
      | None => Raise ValueError
      end
  | JNull | JArr _ | JObj _ => Raise TypeError
  end.

(** [v.strip()]: only a str has the method. *)
Definition strip `{Platform} (v : json) : result string :=
  match v with
  | JStr s => Ok (Py.strip s)
  | _ => Raise AttributeError
  end.

End Json.

Module Sql.

(** Binding a Python value as a statement parameter: bool is an int, an
    int must fit 64 bits, NaN is bound as NULL, lists and dicts are
    refused. *)
Definition bind_float (f : float) : sqlval :=
  if PrimFloat.is_nan f then SNull else SReal f.

Definition bind (v : json) : result sqlval :=
  match v with
  | JNull => Ok SNull
  | JBool b => Ok (SInt (if b then 1 else 0))
  | JInt z =>
      if (- 2 ^ 63 <=? z) && (z <? 2 ^ 63) then Ok (SInt z)
      else Raise OverflowError
  | JFloat f => Ok (bind_float f)
  | JStr s => Ok (SText s)
  | JArr _ | JObj _ => Raise ProgrammingError
  end.

(** A REAL that is an integer strictly inside the 64-bit range is stored
    as that integer in a column of INTEGER affinity. *)
Definition real_as_integer (f : float) : sqlval :=
  match Py.int_of_integral_float f with
  | Some z => if (- 2 ^ 63 <? z) && (z <? 2 ^ 63) then SInt z else SReal f
  | None => SReal f
  end.

(** Column affinity INTEGER: numeric text becomes a number, an integral
    real becomes an integer, anything else is stored as it is. *)
Definition integer_affinity `{Platform} (v : sqlval) : sqlval :=
  match v with
  | SText s =>
      match numeric_of_text s with
      | Some (PyInt z) => SInt z
      | Some (PyFloat f) => real_as_integer f
      | None => v
      end
  | SReal f => real_as_integer f
  | _ => v
  end.

(** Column affinity TEXT: numbers are stored as their text. *)
Definition text_affinity `{Platform} (v : sqlval) : sqlval :=
  match v with
  | SInt z => SText (pretty z)
  | SReal f => SText (text_of_real f)
  | _ => v
  end.

(** The text a TEXT column holds, [None] for NULL. *)
Definition text `{Platform} (v : sqlval) : option string :=
  match text_affinity v with
  | SText s => Some s
  | _ => None
  end.

(** What a REAL column hands back for a float it was given: SQLite
    keeps a REAL that is an integer as that integer, so a negative zero
    comes back as [0.0]; every other value comes back as it went in. *)
Definition real_column (f : float) : float :=
  if PrimFloat.eqb f 0%float then 0%float else f.

(** The float a REAL column holds when a float was bound, [None] for
    NULL. *)
Definition real (v : sqlval) : option float :=
  match v with
  | SReal f => Some (real_column f)
  | _ => None
  end.

(** A NOT NULL column refuses NULL. *)
Definition not_null {A : Type} (o : option A) : result A :=
  match o with
  | Some a => Ok a
  | None => Raise IntegrityError
  end.

Definition not_null_val (v : sqlval) : result sqlval :=
  match v with
  | SNull => Raise IntegrityError
  | _ => Ok v
  end.

(** [a = b] between values of one INTEGER-affinity column (after the
    affinity was applied an integral value is always an [SInt]); NULL
    equals nothing. *)
Definition eq (a b : sqlval) : bool :=
  match a, b with
  | SInt x, SInt y => x =? y
  | SReal x, SReal y => PrimFloat.eqb x y
  | SText x, SText y => String.eqb x y
  | _, _ => false
  end.

(** The next rowid of an AUTOINCREMENT table: one more than the largest
    rowid the table ever held. *)
Definition autoincrement (seq : Z) (ids : list Z) : Z :=
  1 + foldr Z.max seq ids.

(** [MIN(col)] and [MAX(col)] over the non-NULL values: NULL when there
    are none. *)
Definition min (l : list float) : option float :=
  match l with
  | [] => None
  | x :: l' =>
      Some (fold_left (fun m y => if PrimFloat.ltb y m then y else m) l' x)
  end.

Definition max (l : list float) : option float :=
  match l with
  | [] => None
  | x :: l' =>
      Some (fold_left (fun m y => if PrimFloat.ltb m y then y else m) l' x)
  end.

(** An aggregate hands a REAL back, but NaN as NULL; [COALESCE(x, 0)]
    turns NULL into the integer 0. *)
Definition coalesce_real (x : option float) : num :=
  match x with
  | Some f => if PrimFloat.is_nan f then PyInt 0 else PyFloat f
  | None => PyInt 0
  end.

(** [COALESCE(SUM(col), 0)]: [SUM] is NULL over no rows. *)
Definition coalesce_sum `{Platform} (l : list float) : num :=
  coalesce_real match l with
                | [] => None
                | _ => Some (sqlite_sum l)
                end.

(** [COALESCE(AVG(col), 0)]: the sum over the count. *)
Definition coalesce_avg `{Platform} (l : list float) : num :=
  coalesce_real
    match l with
    | [] => None
    | _ =>
        Some (PrimFloat.div (sqlite_sum l)
                (SF2Prim (binary_normalize prec emax
                            (Z.of_nat (length l)) 0 false)))
    end.

End Sql.

(* ------------------------------------------------------------------ *)
(** ** The tables of [init_db]

    A row holds, per column, what SQLite hands back for it: text for the
    TEXT NOT NULL columns, a float for the REAL NOT NULL columns, an
    option for the nullable ones, and for [car_id] (INTEGER affinity,
    never checked against [cars]) whatever was stored. *)

Module Car.
Record row : Type := {
  id : Z;
  registration : string;
  description : string;
  created_at : string
}.
End Car.

Module FuelLog.
Record row : Type := {
  id : Z;
  car_id : sqlval;
  logged_at : string;
  fuel_amount : float;
  fuel_unit : string;
  price_per_unit : float;
  total_cost : float;
  odometer : option float;
  notes : option string;
  created_at : string
}.
End FuelLog.

Module ServiceLog.
Record row : Type := {
  id : Z;
  car_id : sqlval;
  category : string;
  logged_at : string;
  cost : float;
  provider : option string;
  notes : option string;
  next_due_date : option string;
  next_due_km : option float;
  odometer : option float;
  created_at : string
}.
End ServiceLog.

(** The database file: the three tables in rowid order, each with the
    largest rowid it ever held (AUTOINCREMENT). *)
Record database : Type := {
  cars : list Car.row;
  cars_seq : Z;
  fuel_logs : list FuelLog.row;
  fuel_logs_seq : Z;
  service_logs : list ServiceLog.row;
  service_logs_seq : Z
}.

(** A fresh file after [init_db]. *)
Definition init_db : database :=
  {| cars := []; cars_seq := 0;
     fuel_logs := []; fuel_logs_seq := 0;
     service_logs := []; service_logs_seq := 0 |}.

Definition set_cars (db : database) (rows : list Car.row) (seq : Z)
  : database :=
  {| cars := rows; cars_seq := seq;
     fuel_logs := fuel_logs db; fuel_logs_seq := fuel_logs_seq db;
     service_logs := service_logs db;
     service_logs_seq := service_logs_seq db |}.

Definition set_fuel_logs (db : database) (rows : list FuelLog.row) (seq : Z)
  : database :=
  {| cars := cars db; cars_seq := cars_seq db;
     fuel_logs := rows; fuel_logs_seq := seq;
     service_logs := service_logs db;
     service_logs_seq := service_logs_seq db |}.

Definition set_service_logs (db : database) (rows : list ServiceLog.row)
  (seq : Z) : database :=
  {| cars := cars db; cars_seq := cars_seq db;
     fuel_logs := fuel_logs db; fuel_logs_seq := fuel_logs_seq db;
     service_logs := rows; service_logs_seq := seq |}.

(** What a handler returns: [jsonify(...)] and the status code. *)
Definition response : Type := json * Z.

(** A handler that raises leaves the database as it was: nothing was
    committed. *)
Definition commit {A : Type} (db : database) (m : result (database * A))
  : database * result A :=
  match m with
  | Ok (db', a) => (db', Ok a)
  | Raise e => (db, Raise e)
  end.

(** The first field of [fields] that fails the presence test. *)
Fixpoint first_missing (present : json -> bool) (fields : list string)
  (data : body) : option string :=
  match fields with
  | [] => None
  | field :: rest =>
      if present (Json.get data field) then first_missing present rest data
      else Some field
  end.

Definition missing_field (field : string) : response :=
  (JObj [("error", JStr ("Missing field: " +:+ field))], 400).

(** [if arg:] on a query argument: it filters when it is a non-empty
    string. *)
Definition given (arg : option string) : option string :=
  match arg with
  | Some q => if String.eqb q "" then None else Some q
  | None => None
  end.

(** [WHERE car_id = ?] with the argument bound as text. *)
Definition in_scope `{Platform} (car_id : option string) (v : sqlval) : Prop :=
  match given car_id with
  | Some q => Sql.eq v (Sql.integer_affinity (SText q)) = true
  | None => True
  end.

#[global] Instance in_scope_dec `{Platform} car_id v
  : Decision (in_scope car_id v).
Proof. unfold in_scope. destruct (given car_id); apply _. Defined.

(** [WHERE category = ?] *)
Definition in_category (category : option string) (c : string) : Prop :=
  match given category with
  | Some q => c = q
  | None => True
  end.

#[global] Instance in_category_dec category c
  : Decision (in_category category c).
Proof. unfold in_category. destruct (given category); apply _. Defined.

(* ------------------------------------------------------------------ *)
(** ** Cars *)

(** [get_cars] *)
Definition get_cars (db : database) : database * list Car.row :=
  (db, Py.sorted Car.registration (cars db)).

(** [INSERT INTO cars (registration, description)]: [registration] is
    UNIQUE. *)
Definition insert_car (now reg desc : string) (db : database)
  : result (database * Z) :=
  if bool_decide (reg ∈ map Car.registration (cars db)) then
    Raise IntegrityError
  else
    let rowid := Sql.autoincrement (cars_seq db) (map Car.id (cars db)) in
    Ok (set_cars db
          (cars db ++ [{| Car.id := rowid; Car.registration := reg;
                          Car.description := desc;
                          Car.created_at := now |}])
          rowid,
        rowid).

(** [add_car]; [now] is the clock at the insert. *)
Definition add_car `{Platform} (now : string) (data : body) (db : database)
  : database * result response :=
  if negb (Json.truthy (Json.get data "registration"))
     || negb (Json.truthy (Json.get data "description")) then
    (db, Ok (JObj [("error",
                    JStr "registration and description are required")],
             400))
  else
    match (v ← Json.item data "registration"; s ← Json.strip v;
           Ok (Py.upper s)) with
    | Raise e => (db, Raise e)
    | Ok reg =>
        match (d ← Json.item data "description"; desc ← Json.strip d;
               insert_car now reg desc db) with
        | Ok (db', lastrowid) =>
            (db', Ok (JObj [("id", JInt lastrowid);
                            ("registration", JStr reg)], 201))
        | Raise IntegrityError =>
            (db, Ok (JObj [("error",
                            JStr ("Registration '" +:+ reg
                                  +:+ "' already exists"))], 409))
        | Raise e => (db, Raise e)
        end
    end.

(** [DELETE ... WHERE id = ?] with a Python int as the parameter: an int
    that does not fit 64 bits is refused with OverflowError before the
    statement runs. *)
Definition where_id (id : Z) : result Z :=
  match Sql.bind (JInt id) with
  | Ok _ => Ok id
  | Raise e => Raise e
  end.

(** [delete_car] *)
Definition delete_car (car_id : Z) (db : database)
  : database * result response :=
  commit db
    (k ← where_id car_id;
     Ok (set_cars db (filter (fun c => Car.id c ≠ k) (cars db)) (cars_seq db),
         (JObj [("deleted", JInt car_id)], 200))).

(* ------------------------------------------------------------------ *)
(** ** Fuel logs *)

(** A value [get_logs] assigns under a derived key: [None] or a float. *)
Inductive field : Type :=
  | Null
  | Number (f : float).

(** One dict of [logs]: the columns of [fl.*], the two columns joined in
    from [cars], and the keys assigned afterwards ([derived] is empty
    when the dict was just built from the row: the keys do not exist). *)
Record log_dict : Type := {
  row : FuelLog.row;
  registration : string;
  car_description : string;
  derived : gmap string field
}.

Definition set_derived (log : log_dict) (d : gmap string field) : log_dict :=
  {| row := row log; registration := registration log;
     car_description := car_description log; derived := d |}.

#[global] Instance log_dict_inhabited : Inhabited log_dict :=
  populate
    {| row := {| FuelLog.id := 0; FuelLog.car_id := SNull;
                 FuelLog.logged_at := ""; FuelLog.fuel_amount := 0%float;
                 FuelLog.fuel_unit := "";
                 FuelLog.price_per_unit := 0%float;
                 FuelLog.total_cost := 0%float; FuelLog.odometer := None;
                 FuelLog.notes := None; FuelLog.created_at := "" |};
       registration := ""; car_description := ""; derived := ∅ |}.

(** The dict objects of one request; a reference is the position of the
    object in [logs] as fetched. *)
Abbreviation store := (list log_dict).

(** [fl JOIN cars c ON fl.car_id = c.id], for one fuel row. *)
Definition join_cars (cs : list Car.row) (fl : FuelLog.row) : list log_dict :=
  map (fun c => {| row := fl; registration := Car.registration c;
                   car_description := Car.description c; derived := ∅ |})
      (filter (fun c => Sql.eq (FuelLog.car_id fl) (SInt (Car.id c)) = true)
              cs).

(** The SELECT of [get_logs], [ORDER BY fl.logged_at ASC]; rows with equal
    timestamps are taken in rowid order. *)
Definition select_logs `{Platform} (car_id : option string) (db : database)
  : list log_dict :=
  Py.sorted (fun l => FuelLog.logged_at (row l))
    (flat_map (join_cars (cars db))
       (filter (fun fl => in_scope car_id (FuelLog.car_id fl))
               (fuel_logs db))).

(** [k1 == k2] between two [car_id] values as dict keys. *)
Definition key_eq (a b : sqlval) : bool :=
  match a, b with
  | SNull, SNull => true
  | SInt x, SInt y => x =? y
  | SReal x, SReal y => PrimFloat.eqb x y
  | SInt x, SReal y | SReal y, SInt x =>
      match Py.int_of_integral_float y with
      | Some z => x =? z
      | None => false
      end
  | SText x, SText y => String.eqb x y
  | _, _ => false
  end.

(** [by_car[k].append(log)] on the defaultdict, which keeps its keys in
    the order they were first seen. *)
Fixpoint append_to (k : sqlval) (log : nat) (by_car : list (sqlval * list nat))
  : list (sqlval * list nat) :=
  match by_car with
  | [] => [(k, [log])]
  | (k', car_logs) :: rest =>
      if key_eq k' k then (k', car_logs ++ [log]) :: rest
      else (k', car_logs) :: append_to k log rest
  end.

(** [for log in logs: by_car[log["car_id"]].append(log)] *)
Definition group_by_car (logs : store) : list (sqlval * list nat) :=
  fold_left (fun by_car il => append_to (FuelLog.car_id (row il.2)) il.1 by_car)
            (enumerate logs) [].

(** [log[k] = v], seen through every list that holds the object. *)
Definition assign (st : store) (log : nat) (k : string) (v : field) : store :=
  alter (fun d => set_derived d (<[k := v]> (derived d))) log st.

Definition assign_nulls (st : store) (log : nat) : store :=
  assign (assign (assign (assign st log "distance_km" Null)
                         log "consumption_per100" Null)
                 log "rand_per_km" Null)
         log "rand_per_litre_trip" Null.

(** [log["odometer"]] as an operand of [-]: None is a TypeError. *)
Definition odometer_of (d : log_dict) : result float :=
  match FuelLog.odometer (row d) with
  | Some x => Ok x
  | None => Raise TypeError
  end.

(** The body of [for i, log in enumerate(with_odo)]. *)
Definition trip_step (with_odo : list nat) (st : store) (il : nat * nat)
  : result store :=
  let '(i, log) := il in
  if (i =? 0)%nat then Ok (assign_nulls st log)
  else
    let prev := with_odo !!! (i - 1)%nat in
    a ← odometer_of (st !!! log);
    b ← odometer_of (st !!! prev);
    let dist := Py.sub a b in
    if Py.gt dist 0%float then
      let st := assign st log "distance_km" (Number (Py.round dist 1)) in
      q ← Py.div (FuelLog.fuel_amount (row (st !!! log))) dist;
      let st := assign st log "consumption_per100"
                  (Number (Py.round (Py.mul q 100%float) 2)) in
      c ← Py.div (FuelLog.total_cost (row (st !!! log))) dist;
      let st := assign st log "rand_per_km" (Number (Py.round c 4)) in
      Ok (assign st log "rand_per_litre_trip"
            (Number (Py.round (FuelLog.price_per_unit (row (st !!! log))) 4)))
    else Ok (assign_nulls st log).

(** The body of [for car_logs in by_car.values()]. *)
Definition derive_trips (st : store) (car_logs : list nat) : result store :=
  let with_odo :=
    filter (fun l => is_Some (FuelLog.odometer (row (st !!! l)))) car_logs in
  let with_odo :=
    Py.sorted (fun l => FuelLog.logged_at (row (st !!! l))) with_odo in
  for_each (trip_step with_odo) (enumerate with_odo) st.

(** [get_logs] *)
Definition get_logs `{Platform} (car_id : option string) (db : database)
  : database * result (list log_dict) :=
  let logs := select_logs car_id db in
  let by_car := group_by_car logs in
  (db,
   st ← for_each derive_trips (map snd by_car) logs;
   Ok (map (fun l => st !!! l)
         (Py.sorted_reverse (fun l => FuelLog.logged_at (row (st !!! l)))
            (seq 0 (length logs))))).

(** [INSERT INTO fuel_logs (...)]: every column but [odometer] and [notes]
    is NOT NULL. *)
Definition insert_fuel_log `{Platform} (now : string)
  (car_id logged_at : json) (fuel_amount : float) (fuel_unit : json)
  (price_per_unit total_cost : float) (odometer : option float) (notes : json)
  (db : database) : result (database * Z) :=
  p_car ← Sql.bind car_id;
  p_at ← Sql.bind logged_at;
  p_unit ← Sql.bind fuel_unit;
  p_notes ← Sql.bind notes;
  c_car ← Sql.not_null_val (Sql.integer_affinity p_car);
  c_at ← Sql.not_null (Sql.text p_at);
  c_amount ← Sql.not_null (Sql.real (Sql.bind_float fuel_amount));
  c_unit ← Sql.not_null (Sql.text p_unit);
  c_price ← Sql.not_null (Sql.real (Sql.bind_float price_per_unit));
  c_total ← Sql.not_null (Sql.real (Sql.bind_float total_cost));
  let rowid :=
    Sql.autoincrement (fuel_logs_seq db) (map FuelLog.id (fuel_logs db)) in
  Ok (set_fuel_logs db
        (fuel_logs db ++
           [{| FuelLog.id := rowid; FuelLog.car_id := c_car;
               FuelLog.logged_at := c_at; FuelLog.fuel_amount := c_amount;
               FuelLog.fuel_unit := c_unit;
               FuelLog.price_per_unit := c_price;
               FuelLog.total_cost := c_total;
               FuelLog.odometer :=
                 o ← odometer; Sql.real (Sql.bind_float o);
               FuelLog.notes := Sql.text p_notes;
               FuelLog.created_at := now |}])
        rowid,
      rowid).

(** [float(data[k]) if data.get(k) else None] *)
Definition optional_float `{Platform} (data : body) (k : string)
  : result (option float) :=
  if Json.truthy (Json.get data k) then
    v ← Json.item data k; f ← Json.float v; Ok (Some f)
  else Ok None.

(** [add_log]; [now] is the clock at the insert. *)
Definition add_log `{Platform} (now : string) (data : body) (db : database)
  : database * result response :=
  match first_missing Json.truthy
          ["car_id"; "logged_at"; "fuel_amount"; "fuel_unit";
           "price_per_unit"] data with
  | Some field => (db, Ok (missing_field field))
  | None =>
      commit db
        (amount ← Json.item data "fuel_amount" ≫= Json.float;
         price ← Json.item data "price_per_unit" ≫= Json.float;
         let total_cost := Py.round (Py.mul amount price) 2 in
         car ← Json.item data "car_id";
         at_ ← Json.item data "logged_at";
         amount' ← Json.item data "fuel_amount" ≫= Json.float;
         unit_ ← Json.item data "fuel_unit";
         price' ← Json.item data "price_per_unit" ≫= Json.float;
         odo ← optional_float data "odometer";
         '(db', lastrowid) ←
           insert_fuel_log now car at_ amount' unit_ price' total_cost odo
             (Json.get_or data "notes" (JStr "")) db;
         Ok (db', (JObj [("id", JInt lastrowid);
                         ("total_cost", JFloat total_cost)], 201)))
  end.

(** [delete_log] *)
Definition delete_log (log_id : Z) (db : database)
  : database * result response :=
  commit db
    (k ← where_id log_id;
     Ok (set_fuel_logs db
           (filter (fun l => FuelLog.id l ≠ k) (fuel_logs db))
           (fuel_logs_seq db),
         (JObj [("deleted", JInt log_id)], 200))).

(* ------------------------------------------------------------------ *)
(** ** Stats *)

Module Num.

(** The float a number stands for in float arithmetic. *)
Definition as_float (n : num) : float :=
  match n with
  | PyInt z => SF2Prim (binary_normalize prec emax z 0 false)
  | PyFloat f => f
  end.

(** [float(n)] as an operand of true division *)
Definition to_float (n : num) : result float :=
  match n with
  | PyInt z => Py.float_of_int z
  | PyFloat f => Ok f
  end.

(** [n > 0] *)
Definition positive (n : num) : bool :=
  match n with
  | PyInt z => 0 <? z
  | PyFloat f => Py.gt f 0%float
  end.

(** [a / b]: the quotient of two ints is rounded once, from the exact
    value. *)
Definition truediv (a b : num) : result float :=
  match a, b with
  | PyInt x, PyInt y =>
      if y =? 0 then Raise ZeroDivisionError
      else
        match SFdiv prec emax (binary_normalize prec emax x 0 false)
                              (binary_normalize prec emax y 0 false) with
        | S754_infinity _ => Raise OverflowError
        | q => Ok (SF2Prim q)
        end
  | _, _ => x ← to_float a; y ← to_float b; Py.div x y
  end.

End Num.

(** The dict [get_stats] returns; every key is always set, [None] is
    null. *)
Record stats : Type := {
  total_entries : Z;
  total_fuel : num;
  total_spent : num;
  avg_price_per_unit : num;
  first_odo : option float;
  last_odo : option float;
  total_distance_km : option float;
  avg_consumption_per100 : option float;
  overall_rand_per_km : option float;
  overall_rand_per_litre : option float;
  service_breakdown : list (string * num * Z);
  total_service_cost : num
}.

(** [SELECT category, COALESCE(SUM(cost),0), COUNT( * ) ... GROUP BY
    category]: one row per category present, in category order. *)
Definition select_breakdown `{Platform} (svc : list ServiceLog.row)
  : list (string * num * Z) :=
  map (fun c =>
         let costs :=
           map ServiceLog.cost
               (filter (fun s => ServiceLog.category s = c) svc) in
         (c, Sql.coalesce_sum costs, Z.of_nat (length costs)))
      (Py.sorted (fun c => c) (remove_dups (map ServiceLog.category svc))).

(** The three keys that need a positive odometer span. *)
Definition span_stats (first_odo last_odo : option float)
  (total_fuel total_spent : num)
  : result (option float * option float * option float) :=
  match first_odo, last_odo with
  | Some first, Some last =>
      if Py.gt last first then
        let dist := Py.sub last first in
        f ← Num.truediv total_fuel (PyFloat dist);
        s ← Num.truediv total_spent (PyFloat dist);
        Ok (Some (Py.round dist 1),
            Some (Py.round (Py.mul f 100%float) 2),
            Some (Py.round s 4))
      else Ok (None, None, None)
  | _, _ => Ok (None, None, None)
  end.

(** [round(total_spent / total_fuel, 4) if total_fuel > 0 else None] *)
Definition litre_stats (total_fuel total_spent : num) : result (option float) :=
  if Num.positive total_fuel then
    q ← Num.truediv total_spent total_fuel; Ok (Some (Py.round q 4))
  else Ok None.

(** [get_stats] *)
Definition get_stats `{Platform} (car_id : option string) (db : database)
  : database * result stats :=
  let base :=
    filter (fun fl => in_scope car_id (FuelLog.car_id fl)) (fuel_logs db) in
  let odos := omap FuelLog.odometer base in
  let fuel := Sql.coalesce_sum (map FuelLog.fuel_amount base) in
  let spent := Sql.coalesce_sum (map FuelLog.total_cost base) in
  let first := Sql.min odos in
  let last := Sql.max odos in
  let svc :=
    select_breakdown
      (filter (fun s => in_scope car_id (ServiceLog.car_id s))
              (service_logs db)) in
  (db,
   '(distance, consumption, per_km) ← span_stats first last fuel spent;
   per_litre ← litre_stats fuel spent;
   Ok {| total_entries := Z.of_nat (length base);
         total_fuel := fuel;
         total_spent := spent;
         avg_price_per_unit :=
           Sql.coalesce_avg (map FuelLog.price_per_unit base);
         first_odo := first;
         last_odo := last;
         total_distance_km := distance;
         avg_consumption_per100 := consumption;
         overall_rand_per_km := per_km;
         overall_rand_per_litre := per_litre;
         service_breakdown := svc;
         total_service_cost :=
           match svc with
           | [] => PyInt 0
           | _ => python_sum (map (fun r => r.1.2) svc)
           end |}).

(* ------------------------------------------------------------------ *)
(** ** Service logs *)

Definition VALID_CATEGORIES : gset string :=
  {[ "tyres"; "car_wash"; "car_service"; "panel_beating";
     "special_service" ]}.

(** [v in VALID_CATEGORIES]: a list or a dict cannot be hashed. *)
Definition in_valid_categories (v : json) : result bool :=
  match v with
  | JStr s => Ok (bool_decide (s ∈ VALID_CATEGORIES))
  | JArr _ | JObj _ => Raise TypeError
  | _ => Ok false
  end.

(** One dict of the [get_services] listing. *)
Record service_dict : Type := {
  svc_row : ServiceLog.row;
  svc_registration : string;
  svc_car_description : string
}.

(** [get_services] *)
Definition get_services `{Platform} (car_id category : option string)
  (db : database) : database * list service_dict :=
  (db,
   Py.sorted_reverse (fun s => ServiceLog.logged_at (svc_row s))
     (flat_map
        (fun sl =>
           map (fun c => {| svc_row := sl;
                            svc_registration := Car.registration c;
                            svc_car_description := Car.description c |})
               (filter (fun c => Sql.eq (ServiceLog.car_id sl)
                                        (SInt (Car.id c)) = true)
                       (cars db)))
        (filter (fun sl => in_scope car_id (ServiceLog.car_id sl)
                           ∧ in_category category
                               (ServiceLog.category sl))
                (service_logs db)))).

(** [x or None] *)
Definition or_none (v : json) : json :=
  if Json.truthy v then v else JNull.

(** [INSERT INTO service_logs (...)] *)
Definition insert_service_log `{Platform} (now : string)
  (car_id category logged_at : json) (cost : float)
  (provider notes next_due_date : json) (next_due_km odometer : option float)
  (db : database) : result (database * Z) :=
  p_car ← Sql.bind car_id;
  p_cat ← Sql.bind category;
  p_at ← Sql.bind logged_at;
  p_provider ← Sql.bind provider;
  p_notes ← Sql.bind notes;
  p_due ← Sql.bind next_due_date;
  c_car ← Sql.not_null_val (Sql.integer_affinity p_car);
  c_cat ← Sql.not_null (Sql.text p_cat);
  c_at ← Sql.not_null (Sql.text p_at);
  c_cost ← Sql.not_null (Sql.real (Sql.bind_float cost));
  let rowid :=
    Sql.autoincrement (service_logs_seq db)
      (map ServiceLog.id (service_logs db)) in
  Ok (set_service_logs db
        (service_logs db ++
           [{| ServiceLog.id := rowid; ServiceLog.car_id := c_car;
               ServiceLog.category := c_cat; ServiceLog.logged_at := c_at;
               ServiceLog.cost := c_cost;
               ServiceLog.provider := Sql.text p_provider;
               ServiceLog.notes := Sql.text p_notes;
               ServiceLog.next_due_date := Sql.text p_due;
               ServiceLog.next_due_km :=
                 k ← next_due_km; Sql.real (Sql.bind_float k);
               ServiceLog.odometer :=
                 o ← odometer; Sql.real (Sql.bind_float o);
               ServiceLog.created_at := now |}])
        rowid,
      rowid).

(** [add_service]; [now] is the clock at the insert. *)
Definition add_service `{Platform} (now : string) (data : body)
  (db : database) : database * result response :=
  match first_missing (fun v => negb (Json.is_none v))
          ["car_id"; "category"; "logged_at"; "cost"] data with
  | Some field => (db, Ok (missing_field field))
  | None =>
      commit db
        (valid ← Json.item data "category" ≫= in_valid_categories;
         if negb valid then
           Ok (db, (JObj [("error", JStr "Invalid category")], 400))
         else
           car ← Json.item data "car_id";
           cat ← Json.item data "category";
           at_ ← Json.item data "logged_at";
           cost ← Json.item data "cost" ≫= Json.float;
           due_km ← optional_float data "next_due_km";
           odo ← optional_float data "odometer";
           '(db', lastrowid) ←
             insert_service_log now car cat at_ cost
               (Json.get_or data "provider" (JStr ""))
               (Json.get_or data "notes" (JStr ""))
               (or_none (Json.get data "next_due_date"))
               due_km odo db;
           Ok (db', (JObj [("id", JInt lastrowid)], 201)))
  end.

(** [delete_service] *)
Definition delete_service (svc_id : Z) (db : database)
  : database * result response :=
  commit db
    (k ← where_id svc_id;
     Ok (set_service_logs db
           (filter (fun s => ServiceLog.id s ≠ k) (service_logs db))
           (service_logs_seq db),
         (JObj [("deleted", JInt svc_id)], 200))).

(* ------------------------------------------------------------------ *)
(** ** The API as a transition system *)

(** A request as the routes deliver it to a handler; the [<int:...>]
    converter of the three DELETE routes only matches digits, so the id
    it hands over is never negative. *)
Inductive request : Type :=
  | GetCars
  | AddCar (now : string) (data : body)
  | DeleteCar (car_id : N)
  | GetLogs (car_id : option string)
  | AddLog (now : string) (data : body)
  | DeleteLog (log_id : N)
  | GetStats (car_id : option string)
  | GetServices (car_id category : option string)
  | AddService (now : string) (data : body)
  | DeleteService (svc_id : N).

(** The database after a request was served. *)
Definition handle `{Platform} (req : request) (db : database) : database :=
  match req with
  | GetCars => (get_cars db).1
  | AddCar now data => (add_car now data db).1
  | DeleteCar car_id => (delete_car (Z.of_N car_id) db).1
  | GetLogs car_id => (get_logs car_id db).1
  | AddLog now data => (add_log now data db).1
  | DeleteLog log_id => (delete_log (Z.of_N log_id) db).1
  | GetStats car_id => (get_stats car_id db).1
  | GetServices car_id category => (get_services car_id category db).1
  | AddService now data => (add_service now data db).1
  | DeleteService svc_id => (delete_service (Z.of_N svc_id) db).1
  end.

(* ------------------------------------------------------------------ *)
(** ** Trip metrics as the specification words them

    These definitions follow the text of the specification, not the code;
    the theorems relate [get_logs] to them. *)

Definition timestamp (log : log_dict) : string := FuelLog.logged_at (row log).

Definition has_odometer (log : log_dict) : Prop :=
  is_Some (FuelLog.odometer (row log)).

#[global] Instance has_odometer_dec log : Decision (has_odometer log).
Proof. unfold has_odometer. apply _. Defined.

(** The entry belongs to the vehicle with id [car]. *)
Definition of_car (car : Z) (log : log_dict) : Prop :=
  key_eq (FuelLog.car_id (row log)) (SInt car) = true.

#[global] Instance of_car_dec car log : Decision (of_car car log).
Proof. unfold of_car. apply _. Defined.

(** The fuel entries of one vehicle, by timestamp ascending. *)
Definition car_sequence (logs : list log_dict) (car : Z) : list log_dict :=
  Py.sorted timestamp (filter (of_car car) logs).

(** Those of them that carry an odometer reading, by timestamp
    ascending. *)
Definition odometer_sequence (logs : list log_dict) (car : Z)
  : list log_dict :=
  Py.sorted timestamp (filter has_odometer (filter (of_car car) logs)).

(** The four derived fields of one entry. *)
Record metrics : Type := {
  distance_km : field;
  consumption_per100 : field;
  rand_per_km : field;
  rand_per_litre_trip : field
}.

Definition no_metrics : metrics :=
  {| distance_km := Null; consumption_per100 := Null;
     rand_per_km := Null; rand_per_litre_trip := Null |}.

(** The metrics of an entry that lies [delta] km after its predecessor. *)
Definition trip_metrics (delta : float) (cur : log_dict) : metrics :=
  {| distance_km := Number (Py.round delta 1);
     consumption_per100 :=
       Number (Py.round
                 (PrimFloat.mul
                    (PrimFloat.div (FuelLog.fuel_amount (row cur)) delta)
                    100%float) 2);
     rand_per_km :=
       Number (Py.round
                 (PrimFloat.div (FuelLog.total_cost (row cur)) delta) 4);
     rand_per_litre_trip :=
       Number (Py.round (FuelLog.price_per_unit (row cur)) 4) |}.

(** The odometer delta of [cur] over [prev], when both have a reading. *)
Definition odometer_delta (prev cur : log_dict) : option float :=
  match FuelLog.odometer (row cur), FuelLog.odometer (row prev) with
  | Some a, Some b => Some (PrimFloat.sub a b)
  | _, _ => None
  end.

(** The metrics of an entry given its predecessor in the odometer
    sequence: none for the earliest entry and for a delta that is not
    strictly positive. *)
Definition metrics_after (prev : option log_dict) (cur : log_dict) : metrics :=
  match prev with
  | None => no_metrics
  | Some p =>
      match odometer_delta p cur with
      | Some delta =>
          if PrimFloat.ltb 0%float delta then trip_metrics delta cur
          else no_metrics
      | None => no_metrics
      end
  end.

(** The four keys written into a dict. *)
Definition write_metrics (t : metrics) (d : gmap string field)
  : gmap string field :=
  <["rand_per_litre_trip" := rand_per_litre_trip t]>
    (<["rand_per_km" := rand_per_km t]>
       (<["consumption_per100" := consumption_per100 t]>
          (<["distance_km" := distance_km t]> d))).

(** An entry of the response that received the metrics [t]. *)
Definition with_metrics (log : log_dict) (t : metrics) : log_dict :=
  set_derived log (write_metrics t ∅).

(** The columns of a dict, its derived keys dropped. *)
Definition columns (log : log_dict) : log_dict := set_derived log ∅.

(* ------------------------------------------------------------------ *)
(** ** Definitions used by the proofs *)

(** An ASCII lowercase letter. *)
Definition is_lower (c : ascii) : bool :=
  ((97 <=? nat_of_ascii c) && (nat_of_ascii c <=? 122))%nat.

(** [a] may stand before [b] in a list sorted by [key]. *)
Definition key_le {A : Type} (key : A -> string) (a b : A) : Prop :=
  String.ltb (key b) (key a) = false.

(** All four keys assigned at once. *)
Definition write (t : metrics) (d : log_dict) : log_dict :=
  set_derived d (write_metrics t (derived d)).

(** [with_odo[i - 1]] for [i > 0], read in the dicts as fetched. *)
Definition predecessor (st0 : store) (with_odo : list nat) (i : nat)
  : option log_dict :=
  if (i =? 0)%nat then None else Some (st0 !!! (with_odo !!! (i - 1)%nat)).

(** [with_odo] of one car, read in the dicts as fetched. *)
Definition with_odo_of (st0 : store) (car_logs : list nat) : list nat :=
  Py.sorted (fun l => timestamp (st0 !!! l))
    (filter (fun l => has_odometer (st0 !!! l)) car_logs).

(** [by_car] after the first [n] dicts, the key of dict [r] being [kf r]. *)
Definition grouped (kf : nat -> sqlval) (n : nat)
  : list (sqlval * list nat) :=
  fold_left (fun by_car r => append_to (kf r) r by_car) (seq 0 n) [].

(** The dicts among the first [n] whose key is the car [z]. *)
Definition members (kf : nat -> sqlval) (z : Z) (n : nat) : list nat :=
  filter (fun r => key_eq (kf r) (SInt z) = true) (seq 0 n).

Definition car_key (logs : store) (r : nat) : sqlval :=
  FuelLog.car_id (row (logs !!! r)).

(* ------------------------------------------------------------------ *)
(** ** Sequences of requests *)

(** The database after the requests [reqs] were served in order. *)
Definition serve `{Platform} (reqs : list request) (db : database)
  : database :=
  fold_left (fun s req => handle req s) reqs db.

(* ------------------------------------------------------------------ *)
(** ** What [add_service] needs of a body, beyond the fields it checks *)

Definition required_service_fields : list string :=
  ["car_id"; "category"; "logged_at"; "cost"].

(** A value a set can be asked about: not a list, not a dict. *)
Definition hashable (v : json) : Prop :=
  match v with
  | JArr _ | JObj _ => False
  | _ => True
  end.

(** SQLite takes the value as a parameter. *)
Definition bindable (v : json) : Prop := exists p, Sql.bind v = Ok p.

(** SQLite takes the value as a parameter and it is not NULL. *)
Definition bindable_not_null (v : json) : Prop :=
  exists p, Sql.bind v = Ok p /\ p ≠ SNull.

(** [float()] accepts [cost] and the given [next_due_km] and [odometer],
    the cost is a number, and every value can be bound, [car_id] and
    [logged_at] to something that is not NULL. *)
Definition convertible `{Platform} (data : body) : Prop :=
  (exists cost, Json.float (Json.get data "cost") = Ok cost /\
                PrimFloat.is_nan cost = false) /\
  (exists km, optional_float data "next_due_km" = Ok km) /\
  (exists odo, optional_float data "odometer" = Ok odo) /\
  bindable_not_null (Json.get data "car_id") /\
  bindable_not_null (Json.get data "logged_at") /\
  bindable (Json.get_or data "provider" (JStr "")) /\
  bindable (Json.get_or data "notes" (JStr "")) /\
  bindable (or_none (Json.get data "next_due_date")).

(** The row [add_service] appends for the body [data] under [rowid]:
    every column as the INSERT converts and SQLite stores it. *)
Definition service_row_of `{Platform} (now : string) (data : body)
  (rowid : Z) (new : ServiceLog.row) : Prop :=
  exists cat cost km odo p_car p_at p_prov p_notes p_due c_at,
    Json.get data "category" = JStr cat /\
    Json.float (Json.get data "cost") = Ok cost /\
    optional_float data "next_due_km" = Ok km /\
    optional_float data "odometer" = Ok odo /\
    Sql.bind (Json.get data "car_id") = Ok p_car /\
    Sql.bind (Json.get data "logged_at") = Ok p_at /\
    Sql.text p_at = Some c_at /\
    Sql.bind (Json.get_or data "provider" (JStr "")) = Ok p_prov /\
    Sql.bind (Json.get_or data "notes" (JStr "")) = Ok p_notes /\
    Sql.bind (or_none (Json.get data "next_due_date")) = Ok p_due /\
    new = {| ServiceLog.id := rowid;
             ServiceLog.car_id := Sql.integer_affinity p_car;
             ServiceLog.category := cat; ServiceLog.logged_at := c_at;
             ServiceLog.cost := Sql.real_column cost;
             ServiceLog.provider := Sql.text p_prov;
             ServiceLog.notes := Sql.text p_notes;
             ServiceLog.next_due_date := Sql.text p_due;
             ServiceLog.next_due_km :=
               k ← km; Sql.real (Sql.bind_float k);
             ServiceLog.odometer :=
               o ← odo; Sql.real (Sql.bind_float o);
             ServiceLog.created_at := now |}.

(* ------------------------------------------------------------------ *)
(** ** The scope of [get_stats] *)

(** The fuel entries [get_stats] aggregates: all of them, or those of one
    [car_id]. *)
Definition entries_in_scope `{Platform} (car_id : option string)
  (db : database) : list FuelLog.row :=
  filter (fun fl => in_scope car_id (FuelLog.car_id fl)) (fuel_logs db).

(** What [COALESCE(SUM(col), 0)] can be: the integer 0 or a float. *)
Definition aggregate (n : num) : Prop := n = PyInt 0 \/ exists f, n = PyFloat f.

(** The distance, the average consumption and the cost per km as the
    specification words them. *)
Definition span_of (first last : option float) (fuel spent : num)
  : option float * option float * option float :=
  match first, last with
  | Some f, Some l =>
      if PrimFloat.ltb f l then
        (Some (Py.round (PrimFloat.sub l f) 1),
         Some (Py.round
                 (PrimFloat.mul
                    (PrimFloat.div (Num.as_float fuel) (PrimFloat.sub l f))
                    100%float) 2),
         Some (Py.round
                 (PrimFloat.div (Num.as_float spent) (PrimFloat.sub l f)) 4))
      else (None, None, None)
  | _, _ => (None, None, None)
  end.

(* ------------------------------------------------------------------ *)
(** ** What the requests keep true of the tables *)

(** What one request does to a table with AUTOINCREMENT ids: nothing,
    one row appended under a fresh id, or the rows of one id deleted. *)
Inductive table_step {A : Type} (id : A -> Z) (rows : list A) (seq : Z)
  : list A -> Z -> Prop :=
  | step_none : table_step id rows seq rows seq
  | step_insert (new : A) :
      id new = Sql.autoincrement seq (map id rows) ->
      table_step id rows seq (rows ++ [new]) (id new)
  | step_delete (k : Z) :
      table_step id rows seq (filter (fun r => id r ≠ k) rows) seq.

(** Primary keys: positive, distinct, and none above the counter of the
    table. *)
Definition keyed {A : Type} (id : A -> Z) (rows : list A) (seq : Z) : Prop :=
  0 <= seq /\ NoDup (map id rows) /\ Forall (fun r => 0 < id r <= seq) rows.

(** The table [rows'] against an earlier state [rows] with counter [seq]:
    its rows are rows of [rows] or lie above [seq]. *)
Definition extends {A : Type} (id : A -> Z) (rows : list A) (seq : Z)
  (rows' : list A) (seq' : Z) : Prop :=
  seq <= seq' /\ forall r, r ∈ rows' -> r ∈ rows \/ seq < id r.

(** Rows are never updated and ids never used again: a row of [rows']
    under an id of [rows] is that very row, and a row of [rows'] that is
    not in [rows] has an id above all of [rows]. *)
Definition append_only {A : Type} (id : A -> Z) (rows rows' : list A)
  : Prop :=
  (forall r r', r ∈ rows -> r' ∈ rows' -> id r' = id r -> r' = r) /\
  (forall r r', r ∈ rows -> r' ∈ rows' -> r' ∉ rows -> id r < id r').

Definition keys_consistent (db : database) : Prop :=
  keyed Car.id (cars db) (cars_seq db) /\
  keyed FuelLog.id (fuel_logs db) (fuel_logs_seq db) /\
  keyed ServiceLog.id (service_logs db) (service_logs_seq db).

(** [registration.strip().upper()] *)
Definition normalise `{Platform} (s : string) : string :=
  Py.upper (Py.strip s).

(** The stored cars hold ASCII text, the registrations in normal form
    and the descriptions stripped. *)
Definition cars_normalised `{Platform} (db : database) : Prop :=
  Forall (fun c => Py.isascii (Car.registration c) = true /\
                   normalise (Car.registration c) = Car.registration c /\
                   Py.isascii (Car.description c) = true /\
                   Py.strip (Car.description c) = Car.description c)
         (cars db).

(** A request that, if it adds a car, gives its registration and its
    description as ASCII text. *)
Definition ascii_request (req : request) : Prop :=
  match req with
  | AddCar _ data =>
      forall s, Json.get data "registration" = JStr s \/
                Json.get data "description" = JStr s ->
                Py.isascii s = true
  | _ => True
  end.

(** A fuel row as [add_log] writes it: the total cost is, as a number,
    the rounded product of the two stored factors (a zero has no sign
    left in a REAL column), no REAL is NaN, the car id is not NULL. *)
Definition fuel_row_consistent (l : FuelLog.row) : Prop :=
  PrimFloat.eqb (FuelLog.total_cost l)
    (Py.round (PrimFloat.mul (FuelLog.fuel_amount l)
                             (FuelLog.price_per_unit l)) 2) = true /\
  PrimFloat.is_nan (FuelLog.fuel_amount l) = false /\
  PrimFloat.is_nan (FuelLog.price_per_unit l) = false /\
  PrimFloat.is_nan (FuelLog.total_cost l) = false /\
  (forall o, FuelLog.odometer l = Some o -> PrimFloat.is_nan o = false) /\
  FuelLog.car_id l ≠ SNull.

(** A service row as [add_service] writes it. *)
Definition service_row_consistent (s : ServiceLog.row) : Prop :=
  ServiceLog.category s ∈ VALID_CATEGORIES /\
  PrimFloat.is_nan (ServiceLog.cost s) = false /\
  ServiceLog.car_id s ≠ SNull.

(** The required fields of [add_log], in the order they are checked. *)
Definition required_log_fields : list string :=
  ["car_id"; "logged_at"; "fuel_amount"; "fuel_unit"; "price_per_unit"].

(** Every fuel row names exactly one car of the table. *)
Definition fuel_logs_joined (db : database) : Prop :=
  NoDup (map Car.id (cars db)) /\
  Forall (fun fl => exists c, c ∈ cars db /\
                              FuelLog.car_id fl = SInt (Car.id c))
         (fuel_logs db).

(** The service entries [get_stats] and [get_services] look at: all of
    them, or those of one [car_id]. *)
Definition services_in_scope `{Platform} (car_id : option string)
  (db : database) : list ServiceLog.row :=
  filter (fun sl => in_scope car_id (ServiceLog.car_id sl)) (service_logs db).

(** The service entries of one category. *)
Definition of_category (c : string) (svc : list ServiceLog.row)
  : list ServiceLog.row :=
  filter (fun sl => ServiceLog.category sl = c) svc.

(** One service row joined with one car, as [get_services] returns it. *)
Definition service_joined (sl : ServiceLog.row) (c : Car.row) : service_dict :=
  {| svc_row := sl; svc_registration := Car.registration c;
     svc_car_description := Car.description c |}.
(* ------------------------------------------------------------------ *)
(** ** A runtime and data for the examples *)

Module Demo.

(** Text made of decimal digits only, as the integer it spells. *)
Fixpoint digits (acc : Z) (s : string) : option Z :=
  match s with
  | EmptyString => Some acc
  | String c s' =>
      let n := Z.of_nat (nat_of_ascii c) in
      if (48 <=? n) && (n <=? 57) then digits (10 * acc + (n - 48)) s'
      else None
  end.

Definition integer_text (s : string) : option num :=
  match s with
  | EmptyString => None
  | _ => PyInt <$> digits 0 s
  end.

(** Integers in text are read, sums run left to right; the examples
    hold ASCII text only. *)
Definition platform : Platform := {|
  float_of_str := fun _ => None;
  numeric_of_text := integer_text;
  text_of_real := fun _ => "";
  sqlite_sum := fun l => fold_left PrimFloat.add l 0%float;
  python_sum :=
    fun l => PyFloat (fold_left PrimFloat.add (map Num.as_float l) 0%float);
  upper_unicode := fun s => s;
  strip_unicode := fun s => s
|}.
#[local] Existing Instance platform.

Definition car_body (reg desc : string) : body :=
  {[ "registration" := JStr reg; "description" := JStr desc ]}.

Definition log_body (car : Z) (at_ : string) (amount price : float)
  (odo : option float) : body :=
  let b : body :=
    {[ "car_id" := JInt car; "logged_at" := JStr at_;
       "fuel_amount" := JFloat amount; "fuel_unit" := JStr "litres";
       "price_per_unit" := JFloat price ]} in
  match odo with
  | Some o => <[ "odometer" := JFloat o ]> b
  | None => b
  end.

Definition service_body (car : Z) (cat at_ : string) (cost : json) : body :=
  {[ "car_id" := JInt car; "category" := JStr cat;
     "logged_at" := JStr at_; "cost" := cost ]}.

(** One car with two fills, E1 at 1000 km and E2 at 1200 km. *)
Definition db1 : database :=
  (add_car "t0" (car_body "cf 12 ab" "Test") init_db).1.
Definition db2 : database :=
  (add_log "t1" (log_body 1 "2024-01-01" 35 20 (Some 1000%float)) db1).1.
Definition db3 : database :=
  (add_log "t2" (log_body 1 "2024-01-08" 40 21.5 (Some 1200%float)) db2).1.
(** A third fill without an odometer reading, and a fourth after the
    odometer went back. *)
Definition db4 : database :=
  (add_log "t3" (log_body 1 "2024-01-05" 10 20 None) db3).1.
Definition db5 : database :=
  (add_log "t4" (log_body 1 "2024-01-09" 12 20 (Some 900%float)) db4).1.

(** A service entry on top, with a cost of 0. *)
Definition db6 : database :=
  (add_service "t5" (service_body 1 "tyres" "2024-01-10" (JInt 0)) db5).1.

(** The dicts [get_logs] fetches from [db5], by timestamp: E1, the fill
    without a reading, E2, the fill at 900 km. *)
Definition fill (i : nat) : log_dict := select_logs None db5 !!! i.

End Demo.

(* ================================================================== *)
(** * Properties *)

(** ** Requests and the error monad *)

Lemma bind_Ok {A B : Type} (m : result A) (f : A -> result B) (b : B) :
  m ≫= f = Ok b -> exists a, m = Ok a /\ f a = Ok b.
Proof. destruct m as [a|e]; [eauto | discriminate]. Qed.

Lemma get_item data k :
  Json.truthy (Json.get data k) = true ->
  Json.item data k = Ok (Json.get data k).
Proof.
  unfold Json.get, Json.item.
  destruct (data !! k); simpl; [done | discriminate].
Qed.

Lemma get_item_not_none data k :
  Json.is_none (Json.get data k) = false ->
  Json.item data k = Ok (Json.get data k).
Proof.
  unfold Json.get, Json.item.
  destruct (data !! k); simpl; [done | discriminate].
Qed.

Lemma first_missing_None present fields data :
  first_missing present fields data = None ->
  Forall (fun k => present (Json.get data k) = true) fields.
Proof.
  induction fields as [|k fields IH]; simpl; [constructor|].
  destruct (present (Json.get data k)) eqn:E; [|discriminate].
  intros Hm. constructor; auto.
Qed.

Lemma first_missing_Some present fields data k :
  first_missing present fields data = Some k ->
  k ∈ fields /\ present (Json.get data k) = false.
Proof.
  induction fields as [|k' fields IH]; simpl; [discriminate|].
  destruct (present (Json.get data k')) eqn:E.
  - intros Hm. destruct (IH Hm). split; [by right | done].
  - intros [= <-]. split; [by left | done].
Qed.

(** ** Text: [upper] and [strip] on ASCII *)

Lemma upper_char_idemp c : Py.upper_char (Py.upper_char c) = Py.upper_char c.
Proof.
  destruct c as [[] [] [] [] [] [] [] []]; reflexivity.
Qed.

Lemma upper_idemp s :
  Py.upper_ascii (Py.upper_ascii s) = Py.upper_ascii s.
Proof.
  induction s as [|c s IH]; simpl; [done|].
  by rewrite upper_char_idemp, IH.
Qed.

(** [upper] leaves no lowercase letter, [strip] no whitespace at either
    end. *)
Lemma upper_char_not_lower c : is_lower (Py.upper_char c) = false.
Proof. destruct c as [[] [] [] [] [] [] [] []]; reflexivity. Qed.

Lemma upper_not_lower s c :
  In c (list_ascii_of_string (Py.upper_ascii s)) -> is_lower c = false.
Proof.
  induction s as [|c' s IH]; simpl; [done|].
  intros [<-|Hin]; [apply upper_char_not_lower | auto].
Qed.

Lemma isspace_upper_char c : Py.isspace (Py.upper_char c) = Py.isspace c.
Proof. destruct c as [[] [] [] [] [] [] [] []]; reflexivity. Qed.

Lemma lstrip_first s c t : Py.lstrip s = String c t -> Py.isspace c = false.
Proof.
  induction s as [|c' s IH]; simpl; [done|].
  destruct (Py.isspace c') eqn:E; [done|]. by intros [= <- <-].
Qed.

Lemma rstrip_last s t c :
  Py.rstrip s = t +:+ String c "" -> Py.isspace c = false.
Proof.
  revert t. induction s as [|c' s IH]; intros t; simpl.
  - by destruct t.
  - destruct (Py.rstrip s) as [|c2 s2] eqn:E.
    + destruct (Py.isspace c') eqn:E'; [by destruct t|].
      destruct t as [|c3 t]; simpl; [by intros [= <-]|].
      intros [= _ Ht]. by destruct t.
    + destruct t as [|c3 t]; simpl; [done|].
      intros [= _ Ht]. by apply (IH t).
Qed.

Lemma rstrip_first s c t :
  Py.rstrip s = String c t -> exists t', s = String c t'.
Proof.
  destruct s as [|c' s]; simpl; [done|].
  destruct (Py.rstrip s); [destruct (Py.isspace c')|];
    first [discriminate | intros [= <- _]; eauto].
Qed.

Lemma strip_trimmed s :
  (forall c t, Py.rstrip (Py.lstrip s) = String c t -> Py.isspace c = false) /\
  (forall t c, Py.rstrip (Py.lstrip s) = t +:+ String c "" ->
               Py.isspace c = false).
Proof.
  split.
  - intros c t Hs. destruct (rstrip_first _ _ _ Hs) as [t' Ht'].
    by apply lstrip_first in Ht'.
  - intros t c. apply rstrip_last.
Qed.

Lemma upper_ascii_first s c t :
  Py.upper_ascii s = String c t ->
  exists c' t', s = String c' t' /\ c = Py.upper_char c'.
Proof. destruct s as [|c' t']; simpl; [done|]. intros [= <- _]. eauto. Qed.

Lemma upper_ascii_last s t c :
  Py.upper_ascii s = t +:+ String c "" ->
  exists t' c', s = t' +:+ String c' "" /\ c = Py.upper_char c'.
Proof.
  revert t. induction s as [|c0 s IH]; intros t; simpl.
  - by destruct t.
  - destruct t as [|c1 t]; simpl.
    + intros [= <- Hs]. destruct s; [|done]. by exists "", c0.
    + intros [= _ Hs]. destruct (IH t Hs) as (t' & c' & -> & ->).
      by exists (String c0 t'), c'.
Qed.

(** On ASCII text [strip] and [upper] are what the model computes, and
    they keep the text ASCII. *)
Lemma strip_ascii `{Platform} s :
  Py.isascii s = true -> Py.strip s = Py.rstrip (Py.lstrip s).
Proof. unfold Py.strip. by intros ->. Qed.

Lemma upper_ascii `{Platform} s :
  Py.isascii s = true -> Py.upper s = Py.upper_ascii s.
Proof. unfold Py.upper. by intros ->. Qed.

Lemma isascii_lstrip s : Py.isascii s = true -> Py.isascii (Py.lstrip s) = true.
Proof.
  induction s as [|c s IH]; simpl; [done|].
  intros [Hc Hs]%andb_true_iff. destruct (Py.isspace c); [auto|].
  simpl. by rewrite Hc, Hs.
Qed.

Lemma isascii_rstrip s : Py.isascii s = true -> Py.isascii (Py.rstrip s) = true.
Proof.
  induction s as [|c s IH]; simpl; [done|].
  intros [Hc Hs]%andb_true_iff. specialize (IH Hs).
  destruct (Py.rstrip s) as [|c' t].
  - destruct (Py.isspace c); simpl; [done|]. by rewrite Hc.
  - change (Py.isascii (String c (String c' t)))
      with ((nat_of_ascii c <? 128)%nat && Py.isascii (String c' t)).
    by rewrite Hc, IH.
Qed.

Lemma isascii_upper_char c :
  (nat_of_ascii (Py.upper_char c) <? 128)%nat = (nat_of_ascii c <? 128)%nat.
Proof. destruct c as [[] [] [] [] [] [] [] []]; reflexivity. Qed.

Lemma isascii_upper s : Py.isascii (Py.upper_ascii s) = Py.isascii s.
Proof.
  induction s as [|c s IH]; simpl; [done|].
  by rewrite isascii_upper_char, IH.
Qed.

Lemma normalise_ascii `{Platform} s :
  Py.isascii s = true ->
  Py.upper (Py.strip s) = Py.upper_ascii (Py.rstrip (Py.lstrip s)).
Proof.
  intros Hs. rewrite strip_ascii by done.
  apply upper_ascii, isascii_rstrip, isascii_lstrip, Hs.
Qed.

Example upper_strip_cf :
  @Py.upper Demo.platform (@Py.strip Demo.platform "  cf 12 ab ")
  = "CF 12 AB".
Proof. reflexivity. Qed.

(** ** Cars: the registration is normalised and unique *)

Lemma add_car_created `{Platform} now data db db' b :
  add_car now data db = (db', Ok (b, 201)) ->
  exists reg desc,
    data !! "registration" = Some (JStr reg) /\
    data !! "description" = Some (JStr desc) /\
    (Py.upper (Py.strip reg) ∉ map Car.registration (cars db)) /\
    b = JObj [("id",
               JInt (Sql.autoincrement (cars_seq db) (map Car.id (cars db))));
              ("registration", JStr (Py.upper (Py.strip reg)))] /\
    db' = set_cars db
            (cars db ++
               [{| Car.id :=
                     Sql.autoincrement (cars_seq db) (map Car.id (cars db));
                   Car.registration := Py.upper (Py.strip reg);
                   Car.description := Py.strip desc;
                   Car.created_at := now |}])
            (Sql.autoincrement (cars_seq db) (map Car.id (cars db))).
Proof.
  unfold add_car.
  destruct (Json.truthy (Json.get data "registration")) eqn:Hr; simpl;
    [|intros [=]].
  destruct (Json.truthy (Json.get data "description")) eqn:Hd; simpl;
    [|intros [=]].
  rewrite !get_item by done.
  unfold Json.get in *.
  destruct (data !! "registration") as [[| | | |reg| |]|];
    simpl in *; try discriminate.
  destruct (data !! "description") as [[| | | |desc| |]|];
    simpl in *; try discriminate.
  unfold insert_car. case_bool_decide as Hin; simpl.
  - intros [=].
  - intros [= <- <-]. exists reg, desc. done.
Qed.

Lemma add_car_conflict `{Platform} now data db reg desc :
  data !! "registration" = Some (JStr reg) -> reg ≠ "" ->
  data !! "description" = Some (JStr desc) -> desc ≠ "" ->
  Py.upper (Py.strip reg) ∈ map Car.registration (cars db) ->
  add_car now data db =
    (db, Ok (JObj [("error",
                    JStr ("Registration '" +:+ Py.upper (Py.strip reg)
                          +:+ "' already exists"))], 409)).
Proof.
  intros Hr Hr0 Hd Hd0 Hin. unfold add_car, Json.get, Json.item.
  rewrite Hr, Hd. simpl.
  destruct (String.eqb_spec reg ""); [done|].
  destruct (String.eqb_spec desc ""); [done|]. simpl.
  unfold insert_car. by rewrite bool_decide_eq_true_2.
Qed.

(** C8: a successful [POST /api/cars] stores and returns the submitted
    registration after [.strip().upper()]: the body of the 201 response
    carries it next to the new id, and the one row appended to [cars]
    holds it. For a registration of ASCII text that is the text without
    the whitespace at either end and with every letter in upper case: it
    has no lowercase letter and neither starts nor ends with
    whitespace. *)
Theorem add_car_normalises_registration `{Platform} now data db db' b :
  add_car now data db = (db', Ok (b, 201)) ->
  exists reg rowid new,
    data !! "registration" = Some (JStr reg) /\
    b = JObj [("id", JInt rowid);
              ("registration", JStr (Py.upper (Py.strip reg)))] /\
    cars db' = cars db ++ [new] /\
    Car.id new = rowid /\
    Car.registration new = Py.upper (Py.strip reg) /\
    (Py.isascii reg = true ->
     Py.upper (Py.strip reg) = Py.upper_ascii (Py.rstrip (Py.lstrip reg)) /\
     (forall c, In c (list_ascii_of_string (Py.upper (Py.strip reg))) ->
                is_lower c = false) /\
     (forall c t, Py.upper (Py.strip reg) = String c t ->
                  Py.isspace c = false) /\
     (forall t c, Py.upper (Py.strip reg) = t +:+ String c "" ->
                  Py.isspace c = false)).
Proof.
  intros Hadd.
  destruct (add_car_created _ _ _ _ _ Hadd)
    as (reg & desc & Hr & _ & _ & -> & ->).
  eexists reg, _, _. split; [exact Hr|]. split; [reflexivity|].
  simpl. split; [reflexivity|]. split; [reflexivity|].
  split; [reflexivity|].
  intros Hascii. rewrite (normalise_ascii reg Hascii).
  split; [reflexivity|]. split; [apply upper_not_lower|].
  destruct (strip_trimmed reg) as [Hfirst Hlast]. split.
  - intros c t (c' & t' & Hs & ->)%upper_ascii_first.
    rewrite isspace_upper_char. eauto.
  - intros t c (t' & c' & Hs & ->)%upper_ascii_last.
    rewrite isspace_upper_char. eauto.
Qed.

Lemma add_car_normalises_registration_witness :
  exists reg rowid new,
    Demo.car_body "  cf 12 ab " "Test" !! "registration" = Some (JStr reg) /\
    JObj [("id", JInt 1); ("registration", JStr "CF 12 AB")] =
      JObj [("id", JInt rowid);
            ("registration",
             JStr (@Py.upper Demo.platform (@Py.strip Demo.platform reg)))] /\
    cars Demo.db1 = cars init_db ++ [new] /\
    Car.id new = rowid /\
    Car.registration new
      = @Py.upper Demo.platform (@Py.strip Demo.platform reg) /\
    (Py.isascii reg = true ->
     @Py.upper Demo.platform (@Py.strip Demo.platform reg)
       = Py.upper_ascii (Py.rstrip (Py.lstrip reg)) /\
     (forall c,
         In c (list_ascii_of_string
                 (@Py.upper Demo.platform (@Py.strip Demo.platform reg))) ->
         is_lower c = false) /\
     (forall c t,
         @Py.upper Demo.platform (@Py.strip Demo.platform reg) = String c t ->
         Py.isspace c = false) /\
     (forall t c,
         @Py.upper Demo.platform (@Py.strip Demo.platform reg)
           = t +:+ String c "" ->
         Py.isspace c = false)).
Proof.
  apply (@add_car_normalises_registration Demo.platform "t0"
           (Demo.car_body "  cf 12 ab " "Test") init_db Demo.db1).
  vm_compute. reflexivity.
Defined.

(** C6, as the code has it: once a registration was accepted, a second
    [POST /api/cars] whose registration and description are non-empty
    strings and whose registration normalises to the same text
    (whatever its letter case and surrounding whitespace) is answered
    409 with a message that names the normalised registration, and
    leaves the database, so also the [cars] table, exactly as it
    was. *)
Theorem add_car_twice_conflict `{Platform} now1 now2 data1 data2 db db1 b1
    reg1 reg2 desc2 :
  add_car now1 data1 db = (db1, Ok (b1, 201)) ->
  data1 !! "registration" = Some (JStr reg1) ->
  data2 !! "registration" = Some (JStr reg2) -> reg2 ≠ "" ->
  data2 !! "description" = Some (JStr desc2) -> desc2 ≠ "" ->
  Py.upper (Py.strip reg2) = Py.upper (Py.strip reg1) ->
  add_car now2 data2 db1 =
    (db1, Ok (JObj [("error",
                     JStr ("Registration '" +:+ Py.upper (Py.strip reg1)
                           +:+ "' already exists"))], 409)).
Proof.
  intros Hadd Hr1 Hr2 Hr0 Hd2 Hd0 Hsame.
  destruct (add_car_created _ _ _ _ _ Hadd)
    as (reg & desc & Hr & _ & _ & _ & ->).
  assert (reg = reg1) as -> by congruence.
  rewrite <- Hsame. apply add_car_conflict with desc2; try done.
  rewrite Hsame. simpl. rewrite map_app. simpl.
  apply elem_of_app. right. by left.
Qed.

Lemma add_car_twice_conflict_witness :
  @add_car Demo.platform "t1" (Demo.car_body " CF 12 ab" "again") Demo.db1 =
    (Demo.db1,
     Ok (JObj [("error",
                JStr ("Registration '"
                      +:+ @Py.upper Demo.platform
                            (@Py.strip Demo.platform "cf 12 ab")
                      +:+ "' already exists"))], 409)).
Proof.
  apply (@add_car_twice_conflict Demo.platform "t0" "t1"
           (Demo.car_body "cf 12 ab" "Test")
           (Demo.car_body " CF 12 ab" "again") init_db Demo.db1
           (JObj [("id", JInt 1); ("registration", JStr "CF 12 AB")])
           "cf 12 ab" " CF 12 ab" "again");
    first [ discriminate | vm_compute; reflexivity ].
Defined.

(** The claim without the two conditions fails: a registration of one
    blank is accepted and stored as the empty text; the empty
    registration, which normalises to the same text, is then answered
    400, not 409, and so is the very same registration sent with an
    empty description. *)
Lemma add_car_empty_after_blank :
  exists db1 b1,
    @add_car Demo.platform "t0" (Demo.car_body " " "Test") init_db
      = (db1, Ok (b1, 201)) /\
    @Py.upper Demo.platform (@Py.strip Demo.platform "")
      = @Py.upper Demo.platform (@Py.strip Demo.platform " ") /\
    @add_car Demo.platform "t1" (Demo.car_body "" "Test") db1
      = (db1,
         Ok (JObj [("error",
                    JStr "registration and description are required")],
             400)) /\
    @add_car Demo.platform "t1" (Demo.car_body " " "") db1
      = (db1,
         Ok (JObj [("error",
                    JStr "registration and description are required")],
             400)).
Proof.
  eexists _, _. split; [vm_compute; reflexivity|].
  split; [|split]; vm_compute; reflexivity.
Qed.

(** ** Binary64 arithmetic: guarded divisors are not zero *)

(** [round] on values CPython is known for: ties go to the even
    neighbour, what is stored decides (2.675 is stored below the tie),
    the sign of zero is kept, infinities stay. *)
Example round_known_values :
  Py.round 2.5 0 = 2%float /\ Py.round 3.5 0 = 4%float /\
  Py.round 0.125 2 = 0x1.eb851eb851eb8p-4%float /\
  Py.round 0x1.5666666666666p+1 2 = 0x1.55c28f5c28f5cp+1%float /\
  Py.round (-0.0009765625) 2 = (-0)%float /\
  Py.round infinity 2 = infinity /\
  Py.round 200 1 = 200%float.
Proof. repeat split; vm_compute; reflexivity. Qed.

Lemma ltb_pos_neq0 (d : float) :
  PrimFloat.ltb 0%float d = true -> PrimFloat.eqb d 0%float = false.
Proof.
  rewrite ltb_spec, FloatAxioms.eqb_spec.
  destruct (Prim2SF d) as [s|s| |s m e]; cbn; try discriminate; auto;
    destruct s; cbn; auto; discriminate.
Qed.

Lemma div_positive a d :
  PrimFloat.ltb 0%float d = true -> Py.div a d = Ok (PrimFloat.div a d).
Proof. intros Hd. unfold Py.div. by rewrite ltb_pos_neq0. Qed.

Lemma leb_nonpos (d : float) :
  PrimFloat.leb d 0%float = true -> PrimFloat.ltb 0%float d = false.
Proof.
  rewrite leb_spec, ltb_spec.
  destruct (Prim2SF d) as [s|s| |s m e]; cbn; try discriminate; auto;
    destruct s; cbn; auto; discriminate.
Qed.


(** The difference of two floats is zero only when they are equal:
    rounding a non-zero multiple of the smallest subnormal never gives
    zero. *)

Lemma fexp64 e : SpecFloat.fexp prec emax e = Z.max (e - 53) (-1074).
Proof. reflexivity. Qed.

(** digits *)
Lemma digits2_pos_lower m : 2 ^ (Zpos (digits2_pos m) - 1) <= Zpos m.
Proof.
  induction m as [m IH|m IH|]; simpl digits2_pos.
  - rewrite Pos2Z.inj_succ.
    replace (Z.succ (Z.pos (digits2_pos m)) - 1) with (Z.succ (Z.pos (digits2_pos m) - 1)) by lia.
    rewrite Z.pow_succ_r by lia. lia.
  - rewrite Pos2Z.inj_succ.
    replace (Z.succ (Z.pos (digits2_pos m)) - 1) with (Z.succ (Z.pos (digits2_pos m) - 1)) by lia.
    rewrite Z.pow_succ_r by lia. lia.
  - simpl. lia.
Qed.

Lemma digits2_pos_iter m d :
  digits2_pos (Pos.iter xO m d) = (digits2_pos m + d)%positive.
Proof.
  induction d as [|d IH] using Pos.peano_ind.
  - simpl. lia.
  - rewrite Pos.iter_succ. simpl. rewrite IH. lia.
Qed.

(** shifting right *)
Lemma shr_1_m mrs : 0 <= shr_m mrs -> shr_m (shr_1 mrs) = shr_m mrs / 2.
Proof.
  destruct mrs as [m r s]. cbn [shr_m]. intros Hm.
  destruct m as [|[p|p|]|p]; cbn [shr_1 shr_m];
    [reflexivity | | | reflexivity | lia].
  - apply Z.div_unique with 1; lia.
  - apply Z.div_unique with 0; lia.
Qed.

Lemma iter_shr_1_m p : forall mrs,
  0 <= shr_m mrs ->
  shr_m (SpecFloat.iter_pos shr_1 p mrs) = shr_m mrs / 2 ^ Zpos p.
Proof.
  induction p as [p IH|p IH|]; intros mrs Hm; simpl SpecFloat.iter_pos.
  - assert (0 <= shr_m (shr_1 mrs))
      by (rewrite shr_1_m by done; apply Z.div_pos; lia).
    assert (0 <= shr_m (SpecFloat.iter_pos shr_1 p (shr_1 mrs)))
      by (rewrite IH by done; apply Z.div_pos; lia).
    rewrite IH, IH, shr_1_m by done.
    rewrite !Z.div_div by lia. f_equal.
    replace (Z.pos p~1) with (1 + Z.pos p + Z.pos p) by lia.
    rewrite !Z.pow_add_r by lia. lia.
  - assert (0 <= shr_m (SpecFloat.iter_pos shr_1 p mrs))
      by (rewrite IH by done; apply Z.div_pos; lia).
    rewrite IH, IH by done.
    rewrite !Z.div_div by lia. f_equal.
    replace (Z.pos p~0) with (Z.pos p + Z.pos p) by lia.
    rewrite !Z.pow_add_r by lia. lia.
  - by rewrite shr_1_m.
Qed.

Lemma shr_fexp_pos m e l :
  -1074 <= e ->
  exists m' mrs e',
    shr_fexp prec emax (Zpos m) e l = (mrs, e') /\
    shr_m mrs = Zpos m' /\ -1074 <= e'.
Proof.
  intros He. unfold shr_fexp, shr. rewrite fexp64.
  cbn [Zdigits2].
  pose proof (digits2_pos_lower m) as Hd.
  set (d := Z.pos (digits2_pos m)) in *.
  destruct (Z.max (d + e - 53) (-1074) - e) as [|p|p] eqn:Hn.
  - exists m. eexists _, _. split; [reflexivity|].
    split; [by destruct l as [|[]]|done].
  - assert (0 < shr_m (SpecFloat.iter_pos shr_1 p (shr_record_of_loc (Z.pos m) l)))
      as Hpos.
    { rewrite iter_shr_1_m by (by destruct l as [|[]]).
      replace (shr_m (shr_record_of_loc (Z.pos m) l)) with (Z.pos m)
        by (by destruct l as [|[]]).
      apply Z.div_str_pos. split; [lia|].
      transitivity (2 ^ (d - 1)); [|done].
      apply Z.pow_le_mono_r; lia. }
    destruct (shr_m (SpecFloat.iter_pos shr_1 p (shr_record_of_loc (Z.pos m) l)))
      as [|m'|m'] eqn:Hm; try lia.
    exists m'. eexists _, _. split; [reflexivity|]. split; [done|]. lia.
  - exists m. eexists _, _. split; [reflexivity|].
    split; [by destruct l as [|[]]|done].
Qed.

Lemma binary_round_aux_nonzero s m e l :
  -1074 <= e ->
  forall z, binary_round_aux prec emax s (Zpos m) e l ≠ S754_zero z.
Proof.
  intros He z. unfold binary_round_aux.
  destruct (shr_fexp_pos m e l He) as (m1 & mrs1 & e1 & -> & Hm1 & He1).
  rewrite Hm1.
  assert (exists m2, round_nearest_even (Z.pos m1) (loc_of_shr_record mrs1)
                     = Zpos m2) as [m2 ->].
  { unfold round_nearest_even.
    destruct (loc_of_shr_record mrs1) as [|[]];
      [by eexists | | by eexists | by exists (m1 + 1)%positive].
    destruct (Z.even (Z.pos m1)); [by eexists | by exists (m1 + 1)%positive]. }
  destruct (shr_fexp_pos m2 e1 loc_Exact He1) as (m3 & mrs3 & e3 & -> & -> & He3).
  by destruct (e3 <=? emax - prec).
Qed.

Lemma binary_round_nonzero s m e :
  -1074 <= e -> forall z, binary_round prec emax s m e ≠ S754_zero z.
Proof.
  intros He z. unfold binary_round, shl_align. rewrite fexp64.
  destruct (Z.max (Z.pos (digits2_pos m) + e - 53) (-1074) - e) eqn:Hn;
    apply binary_round_aux_nonzero; lia.
Qed.

Lemma binary_normalize_nonzero m e sz :
  m ≠ 0 -> -1074 <= e ->
  forall z, binary_normalize prec emax m e sz ≠ S754_zero z.
Proof.
  intros Hm He z. destruct m; [done| |]; by apply binary_round_nonzero.
Qed.

Lemma shl_align_digits m e e' :
  e' <= e ->
  Zpos (digits2_pos (fst (shl_align m e e')))
    = Zpos (digits2_pos m) + (e - e').
Proof.
  intros He. unfold shl_align.
  destruct (e' - e) as [|d|d] eqn:Hd; cbn [fst]; try lia.
  rewrite digits2_pos_iter. lia.
Qed.

Lemma shl_align_same m e : fst (shl_align m e e) = m.
Proof. unfold shl_align. by rewrite Z.sub_diag. Qed.

Lemma bounded_canonical m e :
  bounded prec emax m e = true ->
  Z.max (Zpos (digits2_pos m) + e - 53) (-1074) = e.
Proof.
  unfold bounded, canonical_mantissa. rewrite fexp64.
  intros [H _]%andb_prop. by apply Z.eqb_eq in H.
Qed.

Lemma SFsub_nonzero x y :
  SpecFloat.valid_binary prec emax x = true ->
  SpecFloat.valid_binary prec emax y = true ->
  SFltb y x = true ->
  forall z, SFsub prec emax x y ≠ S754_zero z.
Proof.
  intros Hx Hy Hlt z.
  destruct x as [sx|sx| |sx mx ex], y as [sy|sy| |sy my ey];
    try discriminate; try (by destruct sx, sy);
    try (by destruct sx); try (by destruct sy).
  cbn [SpecFloat.valid_binary] in Hx, Hy.
  apply bounded_canonical in Hx, Hy.
  unfold SFsub. apply binary_normalize_nonzero; [|lia].
  intros HM.
  pose proof (shl_align_digits mx ex (Z.min ex ey) ltac:(lia)) as Hdx.
  pose proof (shl_align_digits my ey (Z.min ex ey) ltac:(lia)) as Hdy.
  assert (sx = sy /\ fst (shl_align mx ex (Z.min ex ey))
                    = fst (shl_align my ey (Z.min ex ey))) as [-> Hm].
  { destruct sx, sy; cbn [cond_Zopp] in HM; split; try done; lia. }
  rewrite Hm in Hdx.
  assert (ex = ey) as -> by lia.
  rewrite Z.min_id, !shl_align_same in Hm. subst my.
  unfold SFltb, SFcompare in Hlt. rewrite Z.compare_refl in Hlt.
  change (Pos.compare_cont Eq mx mx) with (Pos.compare mx mx) in Hlt.
  rewrite Pos.compare_refl in Hlt. by destruct sy.
Qed.

Lemma sub_pos_nonzero (x y : float) :
  PrimFloat.ltb y x = true ->
  PrimFloat.eqb (PrimFloat.sub x y) 0%float = false.
Proof.
  rewrite ltb_spec, FloatAxioms.eqb_spec, sub_spec. intros Hlt.
  pose proof (SFsub_nonzero _ _ (Prim2SF_valid x) (Prim2SF_valid y) Hlt)
    as Hnz.
  unfold SF64sub.
  destruct (SFsub prec emax (Prim2SF x) (Prim2SF y)) as [s|s| |s m e];
    [by destruct (Hnz s) | by destruct s | done | by destruct s].
Qed.

(** ** Zeros, NaN and what a REAL column hands back *)

Lemma prim2sf_zero : Prim2SF 0%float = S754_zero false.
Proof. reflexivity. Qed.

Lemma eqb_zero_iff (x : float) :
  PrimFloat.eqb x 0%float = true <-> exists s, Prim2SF x = S754_zero s.
Proof.
  rewrite FloatAxioms.eqb_spec, prim2sf_zero. unfold SFeqb.
  destruct (Prim2SF x) as [s|s| |s m e]; simpl; split;
    try discriminate; eauto; try (by intros [s' [=]]);
    destruct s; discriminate.
Qed.

Lemma eqb_zero_l (x : float) s :
  Prim2SF x = S754_zero s -> PrimFloat.eqb 0%float x = true.
Proof.
  intros Hx. by rewrite FloatAxioms.eqb_spec, prim2sf_zero, Hx.
Qed.

Lemma not_nan_iff (x : float) :
  PrimFloat.is_nan x = false <-> Prim2SF x ≠ S754_nan.
Proof.
  unfold PrimFloat.is_nan. rewrite negb_false_iff, FloatAxioms.eqb_spec.
  unfold SFeqb. destruct (Prim2SF x) as [s|s| |s m e]; simpl.
  - split; [discriminate | done].
  - split; [discriminate | by destruct s].
  - split; [discriminate | done].
  - split; [discriminate|]. intros _.
    rewrite Z.compare_refl, Pos.compare_cont_refl. by destruct s.
Qed.

Lemma real_column_eqb (x : float) :
  PrimFloat.is_nan x = false ->
  PrimFloat.eqb (Sql.real_column x) x = true.
Proof.
  unfold Sql.real_column. destruct (PrimFloat.eqb x 0%float) eqn:E.
  - intros _. apply eqb_zero_iff in E as [s Hs]. by apply eqb_zero_l with s.
  - unfold PrimFloat.is_nan. by intros ->%negb_false_iff.
Qed.

Lemma real_column_nonzero (x : float) :
  PrimFloat.eqb x 0%float = false -> Sql.real_column x = x.
Proof. unfold Sql.real_column. by intros ->. Qed.

Lemma real_column_not_nan (x : float) :
  PrimFloat.is_nan x = false -> PrimFloat.is_nan (Sql.real_column x) = false.
Proof. unfold Sql.real_column. by destruct (PrimFloat.eqb x 0%float). Qed.

Lemma round_not_finite (x : float) n :
  (forall s m e, Prim2SF x ≠ S754_finite s m e) -> Py.round x n = x.
Proof.
  intros Hx. unfold Py.round.
  destruct (Prim2SF x) as [s|s| |s m e] eqn:E; try done.
  by destruct (Hx s m e).
Qed.

Lemma round_not_nan (x : float) n :
  PrimFloat.is_nan (Py.round x n) = false -> PrimFloat.is_nan x = false.
Proof.
  rewrite !not_nan_iff. intros Hr Hx. apply Hr.
  rewrite round_not_finite; [done|]. intros s m e. by rewrite Hx.
Qed.

(** A product with a zero factor is a zero or NaN. *)
Lemma mul_zero_l (a p : float) sa :
  Prim2SF a = S754_zero sa -> PrimFloat.is_nan (a * p) = false ->
  (exists s, Prim2SF (a * p) = S754_zero s) /\
  ((exists sp, Prim2SF p = S754_zero sp) \/
   (exists sp m e, Prim2SF p = S754_finite sp m e)).
Proof.
  rewrite not_nan_iff, FloatAxioms.mul_spec. intros ->. unfold SF64mul.
  destruct (Prim2SF p) as [sp|sp| |sp m e]; simpl; intros Hn;
    try (by destruct Hn); split; eauto 6.
Qed.

Lemma mul_zero_r (a p : float) sp :
  Prim2SF p = S754_zero sp -> PrimFloat.is_nan (a * p) = false ->
  (exists s, Prim2SF (a * p) = S754_zero s) /\
  ((exists sa, Prim2SF a = S754_zero sa) \/
   (exists sa m e, Prim2SF a = S754_finite sa m e)).
Proof.
  rewrite not_nan_iff, FloatAxioms.mul_spec. intros ->. unfold SF64mul.
  destruct (Prim2SF a) as [sa|sa| |sa m e]; simpl; intros Hn;
    try (by destruct Hn); split; eauto 6.
Qed.

Lemma round_of_zero (x : float) s n :
  Prim2SF x = S754_zero s -> Py.round x n = x.
Proof.
  intros Hx. apply round_not_finite. intros s' m e. by rewrite Hx.
Qed.

(** The stored total cost against the product of the stored factors: the
    same number, whatever the signs of the zeros involved. *)
Lemma stored_total_cost (a p : float) :
  PrimFloat.is_nan (Py.round (a * p) 2) = false ->
  PrimFloat.eqb (Sql.real_column (Py.round (a * p) 2))
    (Py.round (Sql.real_column a * Sql.real_column p) 2) = true.
Proof.
  intros Hround. pose proof (round_not_nan _ _ Hround) as Hprod.
  destruct (PrimFloat.eqb a 0%float) eqn:Ea.
  - apply eqb_zero_iff in Ea as [sa Ha].
    destruct (mul_zero_l a p sa Ha Hprod) as [[s Hs] Hp].
    rewrite (round_of_zero _ s) by done.
    assert (Sql.real_column (a * p) = 0%float) as ->.
    { unfold Sql.real_column.
      by rewrite (proj2 (eqb_zero_iff (a * p)) (ex_intro _ s Hs)). }
    assert (Sql.real_column a = 0%float) as ->.
    { unfold Sql.real_column.
      by rewrite (proj2 (eqb_zero_iff a) (ex_intro _ sa Ha)). }
    assert (exists s', Prim2SF (0 * Sql.real_column p) = S754_zero s')
      as [s' Hs'].
    { rewrite FloatAxioms.mul_spec, prim2sf_zero. unfold Sql.real_column.
      destruct Hp as [[sp Hp]|(sp & m & e & Hp)].
      - rewrite (proj2 (eqb_zero_iff p) (ex_intro _ sp Hp)), prim2sf_zero.
        simpl. eauto.
      - destruct (PrimFloat.eqb p 0%float) eqn:Ep.
        + apply eqb_zero_iff in Ep as [s0 Hs0]. congruence.
        + rewrite Hp. simpl. eauto. }
    rewrite (round_of_zero _ s') by done. by apply eqb_zero_l with s'.
  - rewrite (real_column_nonzero a Ea).
    destruct (PrimFloat.eqb p 0%float) eqn:Ep.
    + apply eqb_zero_iff in Ep as [sp Hp].
      destruct (mul_zero_r a p sp Hp Hprod) as [[s Hs] Ha].
      rewrite (round_of_zero _ s) by done.
      assert (Sql.real_column (a * p) = 0%float) as ->.
      { unfold Sql.real_column.
        by rewrite (proj2 (eqb_zero_iff (a * p)) (ex_intro _ s Hs)). }
      assert (Sql.real_column p = 0%float) as ->.
      { unfold Sql.real_column.
        by rewrite (proj2 (eqb_zero_iff p) (ex_intro _ sp Hp)). }
      assert (exists s', Prim2SF (a * 0) = S754_zero s') as [s' Hs'].
      { rewrite FloatAxioms.mul_spec, prim2sf_zero.
        destruct Ha as [[sa Ha]|(sa & m & e & Ha)]; rewrite Ha; simpl; eauto. }
      rewrite (round_of_zero _ s') by done. by apply eqb_zero_l with s'.
    + rewrite (real_column_nonzero p Ep). by apply real_column_eqb.
Qed.

(** ** Writes: what a 201 has stored *)

Tactic Notation "bind_inv" hyp(H) "as" simple_intropattern(a) ident(Ha) :=
  apply bind_Ok in H as (a & Ha & H).

Lemma commit_Ok {A : Type} db (m : result (database * A)) db' a :
  commit db m = (db', Ok a) -> m = Ok (db', a).
Proof. destruct m as [[d x]|e]; simpl; intros [=]; by subst. Qed.

Lemma commit_Raise {A : Type} db (m : result (database * A)) db' e :
  commit db m = (db', Raise e) -> db' = db.
Proof. destruct m as [[d x]|e']; simpl; by intros [=]. Qed.

Lemma not_null_Ok {A : Type} (o : option A) a :
  Sql.not_null o = Ok a -> o = Some a.
Proof. destruct o; simpl; intros [=]; by subst. Qed.

Lemma not_null_val_Ok v c : Sql.not_null_val v = Ok c -> c = v /\ v ≠ SNull.
Proof. destruct v; simpl; intros [=]; by subst. Qed.

Lemma item_get data k v : Json.item data k = Ok v -> Json.get data k = v.
Proof.
  unfold Json.item, Json.get. destruct (data !! k); simpl; by intros [=].
Qed.

Lemma real_bind_float f c :
  Sql.real (Sql.bind_float f) = Some c ->
  c = Sql.real_column f /\ PrimFloat.is_nan f = false.
Proof.
  unfold Sql.bind_float.
  destruct (PrimFloat.is_nan f); simpl; intros [=]; done.
Qed.

Lemma real_bind_not_nan f :
  PrimFloat.is_nan f = false ->
  Sql.real (Sql.bind_float f) = Some (Sql.real_column f).
Proof. intros Hf. unfold Sql.bind_float. by rewrite Hf. Qed.

Lemma where_id_Ok id k :
  where_id id = Ok k -> k = id /\ - 2 ^ 63 <= id < 2 ^ 63.
Proof.
  unfold where_id. simpl.
  destruct (- 2 ^ 63 <=? id) eqn:E1; destruct (id <? 2 ^ 63) eqn:E2;
    simpl; intros [=]. subst. lia.
Qed.

Lemma where_id_range id : - 2 ^ 63 <= id < 2 ^ 63 -> where_id id = Ok id.
Proof.
  intros Hid. unfold where_id. simpl.
  destruct (Z.leb_spec (- 2 ^ 63) id); [|lia].
  destruct (Z.ltb_spec id (2 ^ 63)); [done | lia].
Qed.

Lemma where_id_overflow id :
  ¬ (- 2 ^ 63 <= id < 2 ^ 63) -> where_id id = Raise OverflowError.
Proof.
  intros Hid. unfold where_id. simpl.
  destruct (Z.leb_spec (- 2 ^ 63) id); [|done].
  destruct (Z.ltb_spec id (2 ^ 63)); [lia | done].
Qed.

(** What a DELETE does to the database: the rows of the id are gone, or
    the id was refused and nothing has changed. *)
Lemma delete_car_cases k db :
  (delete_car k db).1
    = set_cars db (filter (fun c => Car.id c ≠ k) (cars db)) (cars_seq db)
  \/ (delete_car k db).1 = db.
Proof.
  unfold delete_car. destruct (where_id k) as [k'|e] eqn:E; simpl.
  - apply where_id_Ok in E as [-> _]. by left.
  - by right.
Qed.

Lemma delete_log_cases k db :
  (delete_log k db).1
    = set_fuel_logs db (filter (fun l => FuelLog.id l ≠ k) (fuel_logs db))
        (fuel_logs_seq db)
  \/ (delete_log k db).1 = db.
Proof.
  unfold delete_log. destruct (where_id k) as [k'|e] eqn:E; simpl.
  - apply where_id_Ok in E as [-> _]. by left.
  - by right.
Qed.

Lemma delete_service_cases k db :
  (delete_service k db).1
    = set_service_logs db
        (filter (fun s => ServiceLog.id s ≠ k) (service_logs db))
        (service_logs_seq db)
  \/ (delete_service k db).1 = db.
Proof.
  unfold delete_service. destruct (where_id k) as [k'|e] eqn:E; simpl.
  - apply where_id_Ok in E as [-> _]. by left.
  - by right.
Qed.

Lemma add_log_inserted `{Platform} now data db db' b :
  add_log now data db = (db', Ok (b, 201)) ->
  exists amount price odo p_car p_at p_unit p_notes c_at c_unit rowid,
    Forall (fun k => Json.truthy (Json.get data k) = true)
           required_log_fields /\
    Json.float (Json.get data "fuel_amount") = Ok amount /\
    Json.float (Json.get data "price_per_unit") = Ok price /\
    optional_float data "odometer" = Ok odo /\
    Sql.bind (Json.get data "car_id") = Ok p_car /\
    Sql.bind (Json.get data "logged_at") = Ok p_at /\
    Sql.bind (Json.get data "fuel_unit") = Ok p_unit /\
    Sql.bind (Json.get_or data "notes" (JStr "")) = Ok p_notes /\
    Sql.integer_affinity p_car ≠ SNull /\
    Sql.text p_at = Some c_at /\ Sql.text p_unit = Some c_unit /\
    PrimFloat.is_nan amount = false /\ PrimFloat.is_nan price = false /\
    PrimFloat.is_nan (Py.round (PrimFloat.mul amount price) 2) = false /\
    rowid
      = Sql.autoincrement (fuel_logs_seq db) (map FuelLog.id (fuel_logs db)) /\
    db' = set_fuel_logs db
            (fuel_logs db ++
               [{| FuelLog.id := rowid;
                   FuelLog.car_id := Sql.integer_affinity p_car;
                   FuelLog.logged_at := c_at;
                   FuelLog.fuel_amount := Sql.real_column amount;
                   FuelLog.fuel_unit := c_unit;
                   FuelLog.price_per_unit := Sql.real_column price;
                   FuelLog.total_cost :=
                     Sql.real_column (Py.round (PrimFloat.mul amount price) 2);
                   FuelLog.odometer :=
                     o ← odo; Sql.real (Sql.bind_float o);
                   FuelLog.notes := Sql.text p_notes;
                   FuelLog.created_at := now |}])
            rowid /\
    b = JObj [("id", JInt rowid);
              ("total_cost",
               JFloat (Py.round (PrimFloat.mul amount price) 2))].
Proof.
  unfold add_log.
  change ["car_id"; "logged_at"; "fuel_amount"; "fuel_unit"; "price_per_unit"]
    with required_log_fields.
  destruct (first_missing _ _ data) as [field|] eqn:Hmiss; [intros [=]|].
  apply first_missing_None in Hmiss.
  intros Hrun%commit_Ok.
  bind_inv Hrun as amount Hamount. bind_inv Hamount as v_amount Hv_amount.
  bind_inv Hrun as price Hprice. bind_inv Hprice as v_price Hv_price.
  bind_inv Hrun as car Hcar.
  bind_inv Hrun as at_ Hat.
  bind_inv Hrun as amount' Hamount'.
  rewrite Hv_amount in Hamount'. simpl in Hamount'.
  rewrite Hamount in Hamount'. injection Hamount' as <-.
  bind_inv Hrun as unit_ Hunit.
  bind_inv Hrun as price' Hprice'.
  rewrite Hv_price in Hprice'. simpl in Hprice'.
  rewrite Hprice in Hprice'. injection Hprice' as <-.
  bind_inv Hrun as odo Hodo.
  bind_inv Hrun as [db1 rowid] Hins.
  injection Hrun as <- <-.
  unfold insert_fuel_log in Hins.
  bind_inv Hins as p_car Hp_car.
  bind_inv Hins as p_at Hp_at.
  bind_inv Hins as p_unit Hp_unit.
  bind_inv Hins as p_notes Hp_notes.
  bind_inv Hins as c_car Hc_car.
  bind_inv Hins as c_at Hc_at.
  bind_inv Hins as c_amount Hc_amount.
  bind_inv Hins as c_unit Hc_unit.
  bind_inv Hins as c_price Hc_price.
  bind_inv Hins as c_total Hc_total.
  injection Hins as <- <-.
  apply not_null_Ok, real_bind_float in Hc_amount as [-> Hn1].
  apply not_null_Ok, real_bind_float in Hc_price as [-> Hn2].
  apply not_null_Ok, real_bind_float in Hc_total as [-> Hn3].
  apply not_null_Ok in Hc_at, Hc_unit.
  apply not_null_val_Ok in Hc_car as [-> Hc_car].
  apply item_get in Hv_amount, Hv_price, Hcar, Hat, Hunit. subst.
  eexists amount, price, odo, p_car, p_at, p_unit, p_notes, c_at, c_unit, _.
  repeat split; try done; reflexivity.
Qed.

Lemma add_log_created `{Platform} now data db db' b :
  add_log now data db = (db', Ok (b, 201)) ->
  exists amount price rowid new,
    Json.item data "fuel_amount" ≫= Json.float = Ok amount /\
    Json.item data "price_per_unit" ≫= Json.float = Ok price /\
    db' = set_fuel_logs db (fuel_logs db ++ [new]) rowid /\
    b = JObj [("id", JInt rowid);
              ("total_cost", JFloat (Py.round (Py.mul amount price) 2))] /\
    rowid
      = Sql.autoincrement (fuel_logs_seq db) (map FuelLog.id (fuel_logs db)) /\
    FuelLog.id new = rowid /\
    FuelLog.fuel_amount new = Sql.real_column amount /\
    FuelLog.price_per_unit new = Sql.real_column price /\
    FuelLog.total_cost new
      = Sql.real_column (Py.round (Py.mul amount price) 2) /\
    PrimFloat.is_nan (Py.round (Py.mul amount price) 2) = false /\
    FuelLog.created_at new = now.
Proof.
  intros E. apply add_log_inserted in E
    as (amount & price & odo & p_car & p_at & p_unit & p_notes & c_at
        & c_unit & rowid & E).
  destruct E as (Hreq & Ha & Hp & _ & _ & _ & _ & _ & _ & _ & _ & _ & _
                 & Hn & Hrowid & -> & ->).
  rewrite Forall_forall in Hreq.
  eexists amount, price, rowid, _.
  rewrite !get_item
    by (apply Hreq; unfold required_log_fields; rewrite !elem_of_cons; tauto).
  split; [exact Ha|]. split; [exact Hp|]. split; [reflexivity|].
  by repeat split.
Qed.

Lemma add_log_status `{Platform} now data db db' b status :
  add_log now data db = (db', Ok (b, status)) ->
  status = 201 \/ db' = db.
Proof.
  unfold add_log.
  destruct (first_missing _ _ data) as [field|]; [intros [= <- _ _]; by right|].
  intros Hrun%commit_Ok.
  repeat (let a := fresh "a" in let Ha := fresh "Ha" in
          apply bind_Ok in Hrun as (a & Ha & Hrun)).
  destruct a7. injection Hrun as _ _ <-. by left.
Qed.

Lemma autoincrement_fresh seq ids :
  seq < Sql.autoincrement seq ids /\
  Forall (fun i => i < Sql.autoincrement seq ids) ids.
Proof.
  unfold Sql.autoincrement.
  induction ids as [|i ids [IH1 IH2]]; simpl.
  - split; [lia | constructor].
  - split; [lia|]. constructor; [lia|].
    eapply Forall_impl; [exact IH2|]. simpl. lia.
Qed.

(** What one request can do to the fuel rows: the counter never goes
    back, and a row of the table afterwards is a row from before or has
    an id above the counter from before. *)
Lemma handle_fuel_logs `{Platform} req db :
  fuel_logs_seq db <= fuel_logs_seq (handle req db) /\
  (forall l, l ∈ fuel_logs (handle req db) ->
     l ∈ fuel_logs db \/ fuel_logs_seq db < FuelLog.id l).
Proof.
  destruct req as [|now data|car_id|car_id|now data|log_id|car_id
                  |car_id category|now data|svc_id]; simpl;
    try (split; [lia | by left]).
  - (* add_car *)
    unfold add_car.
    destruct (_ || _); simpl; [split; [lia | by left]|].
    destruct (_ ≫= _) as [reg|e]; simpl; [|split; [lia | by left]].
    destruct (_ ≫= _) as [[db' rowid]|[]] eqn:E; simpl;
      try (split; [lia | by left]).
    bind_inv E as d Hd. bind_inv E as desc Hdesc.
    unfold insert_car in E. case_bool_decide; [discriminate|].
    injection E as <- <-. simpl. split; [lia | by left].
  - (* delete_car *)
    destruct (delete_car_cases (Z.of_N car_id) db) as [-> | ->];
      simpl; split; first [ lia | by left ].
  - (* add_log *)
    destruct (add_log now data db) as [db' [[b status]|e]] eqn:E; simpl.
    + destruct (add_log_status _ _ _ _ _ _ E) as [->| ->];
        [|split; [lia | by left]].
      apply add_log_created in E
        as (amount & price & rowid & new & _ & _ & -> & _ & Hid & Hnew & _).
      simpl. destruct (autoincrement_fresh (fuel_logs_seq db)
                         (map FuelLog.id (fuel_logs db))) as [Hseq _].
      split; [lia|]. intros l [Hl|Hl%list_elem_of_singleton]%elem_of_app.
      * by left.
      * right. subst. lia.
    + unfold add_log in E.
      destruct (first_missing _ _ data); [discriminate|].
      apply commit_Raise in E as ->. split; [lia | by left].
  - (* delete_log *)
    destruct (delete_log_cases (Z.of_N log_id) db) as [-> | ->];
      simpl; (split; [lia|]); [|by left].
    intros l [_ Hl]%list_elem_of_filter. by left.
  - (* add_service *)
    unfold add_service.
    destruct (first_missing _ _ data); simpl; [split; [lia | by left]|].
    match goal with
    | |- context [commit db ?m] => destruct m as [[db' r]|e] eqn:E
    end; simpl; [|split; [lia | by left]].
    bind_inv E as valid Hvalid.
    destruct valid; simpl in E;
      [|injection E as <- _; split; [lia | by left]].
    repeat (let a := fresh "a" in let Ha := fresh "Ha" in
            apply bind_Ok in E as (a & Ha & E)).
    destruct a5. injection E as <- _.
    unfold insert_service_log in Ha5.
    repeat (let a := fresh "p" in let Ha := fresh "Hp" in
            apply bind_Ok in Ha5 as (a & Ha & Ha5)).
    injection Ha5 as <- _. simpl. split; [lia | by left].
  - (* delete_service *)
    destruct (delete_service_cases (Z.of_N svc_id) db) as [-> | ->];
      simpl; split; first [ lia | by left ].
Qed.

Lemma serve_keeps_row `{Platform} reqs :
  forall s rowid new,
    rowid <= fuel_logs_seq s ->
    (forall l, l ∈ fuel_logs s -> FuelLog.id l = rowid -> l = new) ->
    forall l, l ∈ fuel_logs (serve reqs s) -> FuelLog.id l = rowid -> l = new.
Proof.
  induction reqs as [|req reqs IH]; intros s rowid new Hseq Hrow; [done|].
  destruct (handle_fuel_logs req s) as [Hseq' Hrows].
  apply (IH (handle req s)); [lia|].
  intros l Hl Hid. destruct (Hrows l Hl) as [Hold|Hnew]; [auto | lia].
Qed.

(** ** Fuel logs: the stored total cost *)

(** C5: a successful [POST /api/logs] returns
    [round(float(fuel_amount) * float(price_per_unit), 2)] as
    [total_cost] and stores that value in the one row it appends, next
    to the two factors. The stored value is what the REAL column hands
    back for it: the same number, and the very same float unless it is a
    negative zero, which SQLite hands back as [0.0]. Whatever requests
    are served afterwards, a fuel row under that id is still that very
    row: no handler computes the value again. *)
Theorem add_log_total_cost `{Platform} now data db db' b :
  add_log now data db = (db', Ok (b, 201)) ->
  exists amount price rowid new,
    Json.item data "fuel_amount" ≫= Json.float = Ok amount /\
    Json.item data "price_per_unit" ≫= Json.float = Ok price /\
    b = JObj [("id", JInt rowid);
              ("total_cost",
               JFloat (Py.round (PrimFloat.mul amount price) 2))] /\
    fuel_logs db' = fuel_logs db ++ [new] /\
    FuelLog.id new = rowid /\
    FuelLog.fuel_amount new = Sql.real_column amount /\
    FuelLog.price_per_unit new = Sql.real_column price /\
    FuelLog.total_cost new
      = Sql.real_column (Py.round (PrimFloat.mul amount price) 2) /\
    PrimFloat.eqb (FuelLog.total_cost new)
      (Py.round (PrimFloat.mul amount price) 2) = true /\
    (PrimFloat.eqb (Py.round (PrimFloat.mul amount price) 2) 0%float = false ->
     FuelLog.total_cost new = Py.round (PrimFloat.mul amount price) 2) /\
    (forall reqs l,
        l ∈ fuel_logs (serve reqs db') -> FuelLog.id l = rowid -> l = new).
Proof.
  intros Hadd.
  destruct (add_log_created _ _ _ _ _ Hadd)
    as (amount & price & rowid & new & Ha & Hp & -> & -> & Hrowid & Hid
        & Hamount & Hprice & Hcost & Hnan & _).
  exists amount, price, rowid, new.
  split; [done|]. split; [done|]. split; [done|]. split; [done|].
  split; [done|]. split; [done|]. split; [done|]. split; [done|].
  split; [|split].
  - rewrite Hcost. by apply real_column_eqb.
  - intros Hnz. rewrite Hcost. by apply real_column_nonzero.
  - intros reqs. apply serve_keeps_row; simpl; [lia|].
    intros l [Hl|Hl%list_elem_of_singleton]%elem_of_app Hlid; [|done].
    destruct (autoincrement_fresh (fuel_logs_seq db)
                (map FuelLog.id (fuel_logs db))) as [_ Hfresh].
    rewrite Forall_forall in Hfresh.
    assert (FuelLog.id l < rowid); [|lia].
    rewrite Hrowid. apply Hfresh, list_elem_of_fmap. by exists l.
Qed.

Lemma add_log_total_cost_witness :
  exists amount price rowid new,
    Json.item (Demo.log_body 1 "2024-01-08" 40 21.5 (Some 1200%float))
      "fuel_amount" ≫= @Json.float Demo.platform = Ok amount /\
    Json.item (Demo.log_body 1 "2024-01-08" 40 21.5 (Some 1200%float))
      "price_per_unit" ≫= @Json.float Demo.platform = Ok price /\
    JObj [("id", JInt 2); ("total_cost", JFloat 860)]
      = JObj [("id", JInt rowid);
              ("total_cost",
               JFloat (Py.round (PrimFloat.mul amount price) 2))] /\
    fuel_logs Demo.db3 = fuel_logs Demo.db2 ++ [new] /\
    FuelLog.id new = rowid /\
    FuelLog.fuel_amount new = Sql.real_column amount /\
    FuelLog.price_per_unit new = Sql.real_column price /\
    FuelLog.total_cost new
      = Sql.real_column (Py.round (PrimFloat.mul amount price) 2) /\
    PrimFloat.eqb (FuelLog.total_cost new)
      (Py.round (PrimFloat.mul amount price) 2) = true /\
    (PrimFloat.eqb (Py.round (PrimFloat.mul amount price) 2) 0%float = false ->
     FuelLog.total_cost new = Py.round (PrimFloat.mul amount price) 2) /\
    (forall reqs l,
        l ∈ fuel_logs (@serve Demo.platform reqs Demo.db3) ->
        FuelLog.id l = rowid -> l = new).
Proof.
  apply (@add_log_total_cost Demo.platform "t2"
           (Demo.log_body 1 "2024-01-08" 40 21.5 (Some 1200%float))
           Demo.db2 Demo.db3).
  vm_compute. reflexivity.
Defined.

(** A product that rounds to a negative zero: the 201 carries [-0.0],
    the row holds [0.0]. *)
Example total_cost_negative_zero :
  exists db' new,
    @add_log Demo.platform "t9"
      (Demo.log_body 1 "2024-02-01" (-0.0009765625) 1 None) Demo.db1
    = (db', Ok (JObj [("id", JInt 1); ("total_cost", JFloat (-0))], 201)) /\
    fuel_logs db' = [new] /\ FuelLog.total_cost new = 0%float.
Proof. eexists _, _. split; [vm_compute; reflexivity|]. by split. Qed.

(** ** Service logs: validation *)

Lemma is_none_JNull v : Json.is_none v = true <-> v = JNull.
Proof. destruct v; simpl; split; congruence. Qed.

Lemma first_missing_exists present fields data :
  Exists (fun k => present (Json.get data k) = false) fields ->
  exists field, first_missing present fields data = Some field.
Proof.
  induction 1 as [k fields Hk|k fields _ IH]; simpl.
  - rewrite Hk. eauto.
  - destruct (present (Json.get data k)); eauto.
Qed.

Lemma first_missing_forall present fields data :
  Forall (fun k => present (Json.get data k) = true) fields ->
  first_missing present fields data = None.
Proof. induction 1 as [|k fields Hk _ IH]; simpl; [done|]. by rewrite Hk. Qed.

Lemma present_not_none data fields :
  Forall (fun k => Json.get data k ≠ JNull) fields ->
  Forall (fun k => negb (Json.is_none (Json.get data k)) = true) fields.
Proof.
  intros Hreq. eapply Forall_impl; [exact Hreq|]. intros k Hk. simpl in Hk.
  destruct (Json.is_none (Json.get data k)) eqn:E; [|done].
  by apply is_none_JNull in E.
Qed.

Lemma in_valid_categories_false v :
  hashable v -> (forall s, v = JStr s -> s ∉ VALID_CATEGORIES) ->
  in_valid_categories v = Ok false.
Proof.
  destruct v; simpl; try done. intros _ Hs.
  by rewrite bool_decide_eq_false_2 by auto.
Qed.

Lemma integer_affinity_not_null `{Platform} p :
  p ≠ SNull -> Sql.not_null_val (Sql.integer_affinity p)
               = Ok (Sql.integer_affinity p).
Proof.
  destruct p as [|z|f|s]; simpl; try done.
  - intros _. unfold Sql.real_as_integer.
    destruct (Py.int_of_integral_float f); [|done]. by destruct (_ && _).
  - intros _. destruct (numeric_of_text s) as [[z|f]|]; simpl; try done.
    unfold Sql.real_as_integer.
    destruct (Py.int_of_integral_float f); [|done]. by destruct (_ && _).
Qed.

Lemma text_not_null `{Platform} p : p ≠ SNull -> is_Some (Sql.text p).
Proof. destruct p; simpl; try done; by eexists. Qed.

Lemma add_service_inserted `{Platform} now data db db' b :
  add_service now data db = (db', Ok (b, 201)) ->
  exists cat cost km odo p_car p_at p_prov p_notes p_due c_at rowid,
    Forall (fun k => Json.get data k ≠ JNull) required_service_fields /\
    Json.get data "category" = JStr cat /\ cat ∈ VALID_CATEGORIES /\
    Json.float (Json.get data "cost") = Ok cost /\
    PrimFloat.is_nan cost = false /\
    optional_float data "next_due_km" = Ok km /\
    optional_float data "odometer" = Ok odo /\
    Sql.bind (Json.get data "car_id") = Ok p_car /\
    Sql.integer_affinity p_car ≠ SNull /\
    Sql.bind (Json.get data "logged_at") = Ok p_at /\
    Sql.text p_at = Some c_at /\
    Sql.bind (Json.get_or data "provider" (JStr "")) = Ok p_prov /\
    Sql.bind (Json.get_or data "notes" (JStr "")) = Ok p_notes /\
    Sql.bind (or_none (Json.get data "next_due_date")) = Ok p_due /\
    rowid = Sql.autoincrement (service_logs_seq db)
              (map ServiceLog.id (service_logs db)) /\
    db' = set_service_logs db
            (service_logs db ++
               [{| ServiceLog.id := rowid;
                   ServiceLog.car_id := Sql.integer_affinity p_car;
                   ServiceLog.category := cat; ServiceLog.logged_at := c_at;
                   ServiceLog.cost := Sql.real_column cost;
                   ServiceLog.provider := Sql.text p_prov;
                   ServiceLog.notes := Sql.text p_notes;
                   ServiceLog.next_due_date := Sql.text p_due;
                   ServiceLog.next_due_km :=
                     k ← km; Sql.real (Sql.bind_float k);
                   ServiceLog.odometer :=
                     o ← odo; Sql.real (Sql.bind_float o);
                   ServiceLog.created_at := now |}])
            rowid /\
    b = JObj [("id", JInt rowid)].
Proof.
  unfold add_service.
  change ["car_id"; "category"; "logged_at"; "cost"]
    with required_service_fields.
  destruct (first_missing _ _ data) as [field|] eqn:Hmiss; [intros [=]|].
  apply first_missing_None in Hmiss.
  assert (Forall (fun k => Json.get data k ≠ JNull) required_service_fields)
    as Hreq.
  { eapply Forall_impl; [exact Hmiss|]. simpl. intros k Hk E.
    by rewrite E in Hk. }
  intros Hrun%commit_Ok.
  bind_inv Hrun as valid Hvalid. bind_inv Hvalid as v_cat Hv_cat.
  destruct valid; simpl in Hrun; [|discriminate].
  bind_inv Hrun as car Hcar.
  bind_inv Hrun as cat' Hcat'.
  bind_inv Hrun as at_ Hat.
  bind_inv Hrun as cost Hcost. bind_inv Hcost as v_cost Hv_cost.
  bind_inv Hrun as km Hkm.
  bind_inv Hrun as odo Hodo.
  bind_inv Hrun as [db1 rowid] Hins.
  injection Hrun as <- <-.
  unfold insert_service_log in Hins.
  bind_inv Hins as p_car Hp_car.
  bind_inv Hins as p_cat Hp_cat.
  bind_inv Hins as p_at Hp_at.
  bind_inv Hins as p_prov Hp_prov.
  bind_inv Hins as p_notes Hp_notes.
  bind_inv Hins as p_due Hp_due.
  bind_inv Hins as c_car Hc_car.
  bind_inv Hins as c_cat Hc_cat.
  bind_inv Hins as c_at Hc_at.
  bind_inv Hins as c_cost Hc_cost.
  injection Hins as <- <-.
  apply not_null_Ok, real_bind_float in Hc_cost as [-> Hn].
  apply not_null_Ok in Hc_at, Hc_cat.
  apply not_null_val_Ok in Hc_car as [-> Hc_car].
  apply item_get in Hv_cat, Hv_cost, Hcar, Hat, Hcat'. subst.
  destruct (Json.get data "category") as [| | | |cat| |] eqn:Ecat;
    simpl in Hvalid; try discriminate.
  injection Hvalid as Hvalid. apply bool_decide_eq_true in Hvalid.
  injection Hp_cat as <-. simpl in Hc_cat. injection Hc_cat as <-.
  eexists cat, cost, km, odo, p_car, p_at, p_prov, p_notes, p_due, c_at, _.
  repeat split; try done; reflexivity.
Qed.

Lemma add_service_status `{Platform} now data db db' b status :
  add_service now data db = (db', Ok (b, status)) ->
  status = 201 \/
  (status = 400 /\ db' = db /\
   (Exists (fun k => Json.get data k = JNull) required_service_fields \/
    in_valid_categories (Json.get data "category") = Ok false)).
Proof.
  unfold add_service.
  change ["car_id"; "category"; "logged_at"; "cost"]
    with required_service_fields.
  destruct (first_missing _ _ data) as [field|] eqn:Hmiss.
  - intros [= <- _ <-]. right. split; [done|]. split; [done|]. left.
    apply first_missing_Some in Hmiss as [Hin Hnone].
    apply Exists_exists. exists field. split; [done|].
    apply is_none_JNull. by destruct (Json.is_none _).
  - intros Hrun%commit_Ok.
    bind_inv Hrun as valid Hvalid. bind_inv Hvalid as v_cat Hv_cat.
    apply item_get in Hv_cat. subst v_cat.
    destruct valid; simpl in Hrun.
    + repeat (let a := fresh "a" in let Ha := fresh "Ha" in
              apply bind_Ok in Hrun as (a & Ha & Hrun)).
      destruct a5. injection Hrun as _ _ <-. by left.
    + injection Hrun as <- _ <-. right. by repeat split; [..|right].
Qed.

Lemma add_service_created `{Platform} now data db cat :
  Forall (fun k => Json.get data k ≠ JNull) required_service_fields ->
  Json.get data "category" = JStr cat -> cat ∈ VALID_CATEGORIES ->
  convertible data ->
  exists rowid new,
    add_service now data db =
      (set_service_logs db (service_logs db ++ [new]) rowid,
       Ok (JObj [("id", JInt rowid)], 201)) /\
    rowid = Sql.autoincrement (service_logs_seq db)
              (map ServiceLog.id (service_logs db)) /\
    service_row_of now data rowid new.
Proof.
  intros Hreq Hcat Hvalid
    ((cost & Hcost & Hnan) & (km & Hkm) & (odo & Hodo)
     & (p_car & Hcar & Hcar0) & (p_at & Hat & Hat0)
     & (p_prov & Hprov) & (p_notes & Hnotes) & (p_due & Hdue)).
  unfold add_service.
  rewrite first_missing_forall by by apply present_not_none.
  assert (forall k, k ∈ required_service_fields ->
                    Json.item data k = Ok (Json.get data k)) as Hitem.
  { intros k Hk. rewrite Forall_forall in Hreq. specialize (Hreq k Hk).
    apply get_item_not_none.
    destruct (Json.is_none (Json.get data k)) eqn:E; [|done].
    by apply is_none_JNull in E. }
  rewrite !Hitem by (unfold required_service_fields; repeat constructor).
  rewrite Hcat. simpl. rewrite bool_decide_eq_true_2 by done. simpl.
  rewrite Hcost. simpl. rewrite Hkm. simpl. rewrite Hodo. simpl.
  unfold insert_service_log. rewrite Hcar. simpl. rewrite Hat. simpl.
  rewrite Hprov. simpl. rewrite Hnotes. simpl. rewrite Hdue. simpl.
  rewrite integer_affinity_not_null by done. simpl.
  destruct (text_not_null p_at Hat0) as [c_at Hc_at]. rewrite Hc_at. simpl.
  rewrite real_bind_not_nan by done. simpl.
  eexists _, _. split; [reflexivity|]. split; [reflexivity|].
  exists cat, cost, km, odo, p_car, p_at, p_prov, p_notes, p_due, c_at.
  by repeat split.
Qed.

(** A 201 was only given for values that convert. *)
Lemma add_service_convertible `{Platform} now data db db' b :
  add_service now data db = (db', Ok (b, 201)) -> convertible data.
Proof.
  intros E. apply add_service_inserted in E
    as (cat & cost & km & odo & p_car & p_at & p_prov & p_notes & p_due
        & c_at & rowid & E).
  destruct E as (_ & _ & _ & Hcost & Hnan & Hkm & Hodo & Hcar & Hcar0 & Hat
                 & Hat0 & Hprov & Hnotes & Hdue & _).
  unfold convertible, bindable_not_null, bindable.
  split; [by exists cost|]. split; [by exists km|]. split; [by exists odo|].
  split; [exists p_car; split; [done|]; by intros ->|].
  split; [exists p_at; split; [done|]; by intros ->|].
  split; [by exists p_prov|]. split; [by exists p_notes | by exists p_due].
Qed.

(** C7, as the code has it: [POST /api/services] answers 400 and leaves
    the database as it was when one of [car_id], [category],
    [logged_at], [cost] is absent or null, and when all four are given
    and [category] is a hashable value outside the fixed set. When all
    four are given and [category] is in the set, everything depends on
    whether the values convert ([float()] accepts [cost] and the given
    [next_due_km] and [odometer], the cost is not NaN, every value can
    be bound, [car_id] and [logged_at] not to NULL): if they do, the
    entry is appended, every column as [service_row_of] gives it, and
    its id returned with 201 (a [cost] of 0 is such a value); if they
    do not, the request raises and nothing is written. A [category] that
    cannot be hashed raises TypeError. Whatever is raised, the database
    is left as it was. *)
Theorem add_service_validation `{Platform} now data db :
  (Exists (fun k => Json.get data k = JNull) required_service_fields ->
     exists field,
       field ∈ required_service_fields /\
       add_service now data db =
         (db, Ok (JObj [("error", JStr ("Missing field: " +:+ field))],
                  400))) /\
  (Forall (fun k => Json.get data k ≠ JNull) required_service_fields ->
   hashable (Json.get data "category") ->
   (forall s, Json.get data "category" = JStr s -> s ∉ VALID_CATEGORIES) ->
     add_service now data db =
       (db, Ok (JObj [("error", JStr "Invalid category")], 400))) /\
  (Forall (fun k => Json.get data k ≠ JNull) required_service_fields ->
   ¬ hashable (Json.get data "category") ->
     add_service now data db = (db, Raise TypeError)) /\
  (Forall (fun k => Json.get data k ≠ JNull) required_service_fields ->
   forall cat,
     Json.get data "category" = JStr cat -> cat ∈ VALID_CATEGORIES ->
     (convertible data ->
      exists rowid new,
        add_service now data db =
          (set_service_logs db (service_logs db ++ [new]) rowid,
           Ok (JObj [("id", JInt rowid)], 201)) /\
        rowid = Sql.autoincrement (service_logs_seq db)
                  (map ServiceLog.id (service_logs db)) /\
        service_row_of now data rowid new) /\
     (¬ convertible data ->
      exists e, add_service now data db = (db, Raise e))) /\
  (forall db' e, add_service now data db = (db', Raise e) -> db' = db).
Proof.
  split; [|split; [|split; [|split]]].
  - intros Hmiss.
    destruct (first_missing_exists (fun v => negb (Json.is_none v))
                required_service_fields data) as [field Hfield].
    { eapply Exists_impl; [exact Hmiss|]. simpl. by intros k ->. }
    exists field. split.
    + by apply first_missing_Some in Hfield as [? _].
    + unfold add_service.
      change ["car_id"; "category"; "logged_at"; "cost"]
        with required_service_fields.
      by rewrite Hfield.
  - intros Hreq Hhash Hcat. unfold add_service.
    rewrite first_missing_forall by by apply present_not_none.
    rewrite (get_item_not_none data "category").
    + change (Ok ?a ≫= ?f) with (f a).
      by rewrite in_valid_categories_false.
    + rewrite Forall_forall in Hreq.
      destruct (Json.is_none (Json.get data "category")) eqn:E; [|done].
      apply is_none_JNull in E. exfalso. apply (Hreq "category"); [|done].
      unfold required_service_fields. repeat constructor.
  - intros Hreq Hhash. unfold add_service.
    rewrite first_missing_forall by by apply present_not_none.
    rewrite (get_item_not_none data "category").
    + change (Ok ?a ≫= ?f) with (f a).
      destruct (Json.get data "category"); simpl in Hhash;
        solve [ by destruct Hhash | reflexivity ].
    + destruct (Json.get data "category"); simpl in Hhash;
        solve [ by destruct Hhash | reflexivity ].
  - intros Hreq cat Hcat Hvalid. split.
    + by apply (add_service_created now data db cat).
    + intros Hconv.
      destruct (add_service now data db) as [db' [[b status]|e]] eqn:E.
      * destruct (add_service_status _ _ _ _ _ _ E)
          as [->|(_ & _ & [Hmiss|Hinvalid])].
        -- destruct Hconv. by eapply add_service_convertible.
        -- apply Exists_exists in Hmiss as (k & Hk & Hnull).
           rewrite Forall_forall in Hreq. by destruct (Hreq k Hk).
        -- rewrite Hcat in Hinvalid. simpl in Hinvalid.
           by rewrite bool_decide_eq_true_2 in Hinvalid.
      * exists e. f_equal. unfold add_service in E.
        destruct (first_missing _ _ data); [discriminate|].
        by apply commit_Raise in E.
  - intros db' e. unfold add_service.
    destruct (first_missing _ _ data); [intros [=]|].
    apply commit_Raise.
Qed.

Lemma add_service_validation_witness :
  exists rowid new,
    @add_service Demo.platform "t5"
      (Demo.service_body 1 "tyres" "2024-01-10" (JInt 0)) Demo.db5 =
      (set_service_logs Demo.db5 (service_logs Demo.db5 ++ [new]) rowid,
       Ok (JObj [("id", JInt rowid)], 201)) /\
    rowid = Sql.autoincrement (service_logs_seq Demo.db5)
              (map ServiceLog.id (service_logs Demo.db5)) /\
    @service_row_of Demo.platform "t5"
      (Demo.service_body 1 "tyres" "2024-01-10" (JInt 0)) rowid new.
Proof.
  refine (proj1 (proj1 (proj2 (proj2 (proj2
            (@add_service_validation Demo.platform "t5"
               (Demo.service_body 1 "tyres" "2024-01-10" (JInt 0))
               Demo.db5))))
            _ "tyres" _ _) _).
  - repeat constructor; discriminate.
  - reflexivity.
  - vm_compute. reflexivity.
  - unfold convertible, bindable_not_null, bindable.
    split; [exists 0%float; by vm_compute|].
    split; [exists None; by vm_compute|].
    split; [exists None; by vm_compute|].
    split; [exists (SInt 1); by vm_compute|].
    split; [exists (SText "2024-01-10"); by vm_compute|].
    split; [exists (SText ""); by vm_compute|].
    split; [exists (SText ""); by vm_compute|].
    exists SNull; by vm_compute.
Defined.

(** The claim as the specification words it fails: all four fields are
    given, the category is in the set, and the request neither inserts
    nor answers 201, because [float()] refuses the cost. *)
Lemma add_service_cost_refused :
  Forall (fun k =>
            Json.get (Demo.service_body 1 "tyres" "2024-01-10" (JArr [])) k
            ≠ JNull) required_service_fields /\
  Json.get (Demo.service_body 1 "tyres" "2024-01-10" (JArr [])) "category"
    = JStr "tyres" /\
  "tyres" ∈ VALID_CATEGORIES /\
  @add_service Demo.platform "t5"
    (Demo.service_body 1 "tyres" "2024-01-10" (JArr [])) Demo.db5
    = (Demo.db5, Raise TypeError).
Proof.
  split; [repeat constructor; discriminate|].
  split; [reflexivity|]. split; [by vm_compute|]. vm_compute. reflexivity.
Qed.

(** ** Stats: distance and rates *)

Lemma coalesce_real_aggregate x : aggregate (Sql.coalesce_real x).
Proof.
  destruct x as [f|]; simpl; [|by left].
  destruct (PrimFloat.is_nan f); [by left | right; by eexists].
Qed.

Lemma truediv_aggregate a d :
  aggregate a -> PrimFloat.eqb d 0%float = false ->
  Num.truediv a (PyFloat d) = Ok (PrimFloat.div (Num.as_float a) d).
Proof.
  intros [->|[f ->]] Hd; simpl; unfold Py.div; by rewrite Hd.
Qed.

Lemma span_stats_aggregate first last fuel spent :
  aggregate fuel -> aggregate spent ->
  span_stats first last fuel spent = Ok (span_of first last fuel spent).
Proof.
  intros Hfuel Hspent. unfold span_stats, span_of.
  destruct first as [f|], last as [l|]; try done.
  unfold Py.gt. destruct (PrimFloat.ltb f l) eqn:Hlt; [|done].
  unfold Py.sub. by rewrite !truediv_aggregate by (try done; by apply sub_pos_nonzero).
Qed.

Lemma litre_stats_aggregate fuel spent :
  aggregate fuel -> aggregate spent ->
  litre_stats fuel spent =
    Ok (if Num.positive fuel
        then Some (Py.round
                     (PrimFloat.div (Num.as_float spent) (Num.as_float fuel))
                     4)
        else None).
Proof.
  intros [->|[f ->]] Hspent; [done|]. unfold litre_stats.
  destruct (Num.positive (PyFloat f)) eqn:Hpos; [|done].
  by rewrite truediv_aggregate by (try done; by apply ltb_pos_neq0).
Qed.

(** C3: [GET /api/stats] always answers. In its answer, when both
    odometer extremes are present and [last_odo > first_odo], the
    distance is [round(last_odo - first_odo, 1)], the average
    consumption [round(total_fuel / distance * 100, 2)] and the cost per
    km [round(total_spent / distance, 4)]; in every other case the three
    are null. The cost per unit is [round(total_spent / total_fuel, 4)]
    when [total_fuel > 0] and null otherwise. With no fuel entry in
    scope the count and both totals are 0 (so is the average price, by
    its COALESCE) and the extremes, the distance and the three rates
    are null. *)
Theorem get_stats_derived `{Platform} car_id db :
  exists s,
    (get_stats car_id db).2 = Ok s /\
    total_entries s = Z.of_nat (length (entries_in_scope car_id db)) /\
    total_fuel s
      = Sql.coalesce_sum (map FuelLog.fuel_amount (entries_in_scope car_id db))
    /\
    total_spent s
      = Sql.coalesce_sum (map FuelLog.total_cost (entries_in_scope car_id db))
    /\
    first_odo s = Sql.min (omap FuelLog.odometer (entries_in_scope car_id db))
    /\
    last_odo s = Sql.max (omap FuelLog.odometer (entries_in_scope car_id db))
    /\
    (forall first last,
        first_odo s = Some first -> last_odo s = Some last ->
        PrimFloat.ltb first last = true ->
        total_distance_km s = Some (Py.round (PrimFloat.sub last first) 1) /\
        avg_consumption_per100 s
          = Some (Py.round
                    (PrimFloat.mul
                       (PrimFloat.div (Num.as_float (total_fuel s))
                                      (PrimFloat.sub last first))
                       100%float) 2) /\
        overall_rand_per_km s
          = Some (Py.round
                    (PrimFloat.div (Num.as_float (total_spent s))
                                   (PrimFloat.sub last first)) 4)) /\
    (first_odo s = None \/ last_odo s = None \/
     (exists first last,
         first_odo s = Some first /\ last_odo s = Some last /\
         PrimFloat.ltb first last = false) ->
     total_distance_km s = None /\ avg_consumption_per100 s = None /\
     overall_rand_per_km s = None) /\
    (Num.positive (total_fuel s) = true ->
     overall_rand_per_litre s
       = Some (Py.round
                 (PrimFloat.div (Num.as_float (total_spent s))
                                (Num.as_float (total_fuel s))) 4)) /\
    (Num.positive (total_fuel s) = false ->
     overall_rand_per_litre s = None) /\
    (entries_in_scope car_id db = [] ->
     total_entries s = 0 /\ total_fuel s = PyInt 0 /\
     total_spent s = PyInt 0 /\ avg_price_per_unit s = PyInt 0 /\
     first_odo s = None /\ last_odo s = None /\
     total_distance_km s = None /\ avg_consumption_per100 s = None /\
     overall_rand_per_km s = None /\ overall_rand_per_litre s = None).
Proof.
  unfold get_stats. fold (entries_in_scope car_id db).
  set (base := entries_in_scope car_id db).
  set (fuel := Sql.coalesce_sum (map FuelLog.fuel_amount base)).
  set (spent := Sql.coalesce_sum (map FuelLog.total_cost base)).
  assert (aggregate fuel) as Hfuel by apply coalesce_real_aggregate.
  assert (aggregate spent) as Hspent by apply coalesce_real_aggregate.
  rewrite (span_stats_aggregate _ _ fuel spent Hfuel Hspent).
  rewrite (litre_stats_aggregate fuel spent Hfuel Hspent).
  destruct (span_of _ _ fuel spent) as [[distance consumption] per_km]
    eqn:Hspan.
  unfold span_of in Hspan.
  eexists. split; [reflexivity|]. cbn.
  split; [done|]. split; [done|]. split; [done|]. split; [done|].
  split; [done|]. split; [|split; [|split; [|split]]].
  - intros first last Hfirst Hlast Hlt.
    rewrite Hfirst, Hlast, Hlt in Hspan. by injection Hspan as <- <- <-.
  - intros [Hfirst|[Hlast|(first & last & Hfirst & Hlast & Hge)]].
    + rewrite Hfirst in Hspan. by injection Hspan as <- <- <-.
    + rewrite Hlast in Hspan.
      destruct (Sql.min _); by injection Hspan as <- <- <-.
    + rewrite Hfirst, Hlast, Hge in Hspan. by injection Hspan as <- <- <-.
  - by intros ->.
  - by intros ->.
  - intros Hbase. subst fuel spent base. rewrite Hbase in *. cbn in *.
    by injection Hspan as <- <- <-.
Qed.

Lemma get_stats_derived_witness :
  exists s,
    (@get_stats Demo.platform (Some "1") Demo.db5).2 = Ok s /\
    total_distance_km s = Some (Py.round (PrimFloat.sub 1200 900) 1) /\
    avg_consumption_per100 s
      = Some (Py.round
                (PrimFloat.mul
                   (PrimFloat.div (Num.as_float (total_fuel s))
                                  (PrimFloat.sub 1200 900))
                   100%float) 2) /\
    overall_rand_per_km s
      = Some (Py.round
                (PrimFloat.div (Num.as_float (total_spent s))
                               (PrimFloat.sub 1200 900)) 4).
Proof.
  destruct (@get_stats_derived Demo.platform (Some "1") Demo.db5)
    as (s & Hrun & _ & _ & _ & Hfirst & Hlast & Hspan & _).
  exists s. split; [exact Hrun|].
  apply (Hspan 900%float 1200%float).
  - rewrite Hfirst. vm_compute. reflexivity.
  - rewrite Hlast. vm_compute. reflexivity.
  - vm_compute. reflexivity.
Defined.

Example stats_without_entries :
  (@get_stats Demo.platform (Some "2") Demo.db5).2
  = Ok {| total_entries := 0; total_fuel := PyInt 0; total_spent := PyInt 0;
          avg_price_per_unit := PyInt 0;
          first_odo := None; last_odo := None;
          total_distance_km := None; avg_consumption_per100 := None;
          overall_rand_per_km := None; overall_rand_per_litre := None;
          service_breakdown := []; total_service_cost := PyInt 0 |}.
Proof. vm_compute. reflexivity. Qed.

(** ** Fuel logs: the derived trip metrics *)

Section trip_metrics.
Local Open Scope nat_scope.

(** ** The order of timestamps *)

Lemma ltb_trans a b c :
  String.ltb a b = true -> String.ltb b c = true -> String.ltb a c = true.
Proof.
  unfold String.ltb.
  destruct (String.compare a b) eqn:E1; try discriminate.
  destruct (String.compare b c) eqn:E2; try discriminate.
  intros _ _.
  apply String_as_OT.cmp_lt in E1, E2.
  assert (String_as_OT.cmp a c = Lt) as Hac.
  { apply String_as_OT.cmp_lt. eapply String_as_OT.lt_trans; eauto. }
  unfold String_as_OT.cmp in Hac. by rewrite Hac.
Qed.

Lemma ltb_false_le a b :
  String.ltb b a = false -> String.ltb a b = true \/ a = b.
Proof.
  unfold String.ltb. rewrite (String.compare_antisym b a).
  destruct (String.compare a b) eqn:E; simpl; try discriminate; intros _.
  - right. by apply String.compare_eq_iff.
  - left. reflexivity.
Qed.

Lemma ltb_false_trans a b c :
  String.ltb b a = false -> String.ltb c b = false -> String.ltb c a = false.
Proof.
  intros Hab Hbc. destruct (String.ltb c a) eqn:Hca; [|done].
  destruct (ltb_false_le _ _ Hab) as [Hlt| ->]; [|congruence].
  rewrite (ltb_trans _ _ _ Hca Hlt) in Hbc. discriminate.
Qed.

(** ** Stable sorting *)
Section sorting.
Context {A : Type} (key : A -> string).

Lemma insert_by_perm x l : Py.insert_by key x l ≡ₚ x :: l.
Proof.
  induction l as [|y l IH]; simpl; [done|].
  destruct (String.ltb (key y) (key x)); [|done].
  rewrite IH. apply Permutation_swap.
Qed.

Lemma sorted_perm l : Py.sorted key l ≡ₚ l.
Proof.
  induction l as [|x l IH]; simpl; [done|].
  by rewrite insert_by_perm, IH.
Qed.

Lemma sorted_reverse_perm l : Py.sorted_reverse key l ≡ₚ l.
Proof.
  unfold Py.sorted_reverse.
  by rewrite <- Permutation_rev, sorted_perm, <- Permutation_rev.
Qed.

Lemma insert_by_sorted x l :
  StronglySorted (key_le key) l -> StronglySorted (key_le key) (Py.insert_by key x l).
Proof.
  induction 1 as [|y l Hs IH Hy]; simpl.
  - repeat constructor.
  - destruct (String.ltb (key y) (key x)) eqn:E.
    + constructor; [done|].
      rewrite insert_by_perm. constructor; [|done].
      unfold key_le. destruct (String.ltb (key x) (key y)) eqn:E'; [|done].
      pose proof (ltb_trans _ _ _ E E') as Hyy.
      unfold String.ltb in Hyy.
      destruct (String.compare (key y) (key y)) eqn:Hc; try discriminate.
      pose proof (String.compare_antisym (key y) (key y)) as Ha.
      rewrite Hc in Ha. discriminate.
    + constructor; [by constructor|].
      constructor; [done|].
      eapply Forall_impl; [exact Hy|]. intros z Hz.
      unfold key_le in *. eapply ltb_false_trans; eauto.
Qed.

Lemma sorted_sorted l : StronglySorted (key_le key) (Py.sorted key l).
Proof.
  induction l as [|x l IH]; simpl; [constructor|].
  by apply insert_by_sorted.
Qed.

Lemma insert_by_head x l :
  Forall ((key_le key) x) l -> Py.insert_by key x l = x :: l.
Proof.
  destruct 1 as [|y l Hy _]; simpl; [done|].
  unfold key_le in Hy. by rewrite Hy.
Qed.

Lemma filter_insert_by (P : A -> Prop) `{!∀ x, Decision (P x)} x l :
  StronglySorted (key_le key) l ->
  filter P (Py.insert_by key x l) =
  if decide (P x) then Py.insert_by key x (filter P l) else filter P l.
Proof.
  induction 1 as [|y l Hs IH Hy]; simpl.
  - rewrite filter_cons, filter_nil. by destruct (decide (P x)).
  - destruct (String.ltb (key y) (key x)) eqn:E.
    + rewrite !filter_cons, IH.
      destruct (decide (P y)), (decide (P x)); simpl; by rewrite ?E.
    + rewrite (filter_cons _ x). destruct (decide (P x)); [|done].
      rewrite insert_by_head; [done|].
      apply Forall_forall. intros z Hz%list_elem_of_filter.
      destruct Hz as [_ Hz]. apply elem_of_cons in Hz as [->|Hz]; [done|].
      rewrite Forall_forall in Hy. specialize (Hy z Hz).
      unfold key_le in *. eapply ltb_false_trans; eauto.
Qed.

Lemma filter_sorted (P : A -> Prop) `{!∀ x, Decision (P x)} l :
  filter P (Py.sorted key l) = Py.sorted key (filter P l).
Proof.
  induction l as [|x l IH]; simpl; [done|].
  rewrite filter_insert_by by apply sorted_sorted.
  rewrite filter_cons, IH. by destruct (decide (P x)).
Qed.

End sorting.

Lemma sorted_ext {A : Type} (key key' : A -> string) l :
  (forall x, x ∈ l -> key x = key' x) ->
  Py.sorted key l = Py.sorted key' l.
Proof.
  induction l as [|x l IH]; simpl; intros Hk; [done|].
  rewrite IH by (intros; apply Hk; by right).
  assert (forall m, (forall z, z ∈ m -> key z = key' z) ->
                    Py.insert_by key x m = Py.insert_by key' x m) as Hins.
  { induction m as [|y m IHm]; simpl; intros Hm; [done|].
    rewrite (Hm y) by by left. rewrite (Hk x) by by left.
    rewrite IHm by (intros; apply Hm; by right). done. }
  apply Hins. intros z Hz. apply Hk. right.
  by rewrite sorted_perm in Hz.
Qed.

Lemma fmap_insert_by {A B : Type} (f : A -> B) (key : B -> string) x l :
  f <$> Py.insert_by (fun a => key (f a)) x l = Py.insert_by key (f x) (f <$> l).
Proof.
  induction l as [|y l IH]; csimpl; [done|].
  destruct (String.ltb (key (f y)) (key (f x))); csimpl; [|done].
  by rewrite IH.
Qed.

Lemma fmap_sorted {A B : Type} (f : A -> B) (key : B -> string) l :
  f <$> Py.sorted (fun a => key (f a)) l = Py.sorted key (f <$> l).
Proof.
  induction l as [|x l IH]; csimpl; [done|].
  by rewrite fmap_insert_by, IH.
Qed.

(** ** The store of dicts *)

Lemma columns_set_derived d m : columns (set_derived d m) = columns d.
Proof. done. Qed.

Lemma row_columns d : row (columns d) = row d.
Proof. done. Qed.

Lemma columns_alter (st : store) log f :
  (forall d, columns (f d) = columns d) ->
  columns <$> alter f log st = columns <$> st.
Proof.
  intros Hf. rewrite (list_fmap_alter columns f (fun d => d)).
  - by apply list_alter_id.
  - apply Forall_forall. intros d _. apply Hf.
Qed.

Lemma columns_lookup (st st0 : store) j :
  columns <$> st = columns <$> st0 ->
  columns (st !!! j) = columns (st0 !!! j).
Proof.
  intros Heq.
  assert (length st = length st0) as Hlen.
  { by rewrite <- (length_fmap columns st), Heq, length_fmap. }
  destruct (decide (j < length st)) as [Hj|Hj].
  - rewrite <- (list_lookup_total_fmap columns st j) by lia.
    rewrite <- (list_lookup_total_fmap columns st0 j) by lia.
    by rewrite Heq.
  - rewrite !list_lookup_total_alt.
    rewrite !lookup_ge_None_2 by lia. done.
Qed.

Lemma columns_length (st st0 : store) :
  columns <$> st = columns <$> st0 -> length st = length st0.
Proof.
  intros Heq. by rewrite <- (length_fmap columns st), Heq, length_fmap.
Qed.

Lemma row_lookup (st st0 : store) j :
  columns <$> st = columns <$> st0 -> row (st !!! j) = row (st0 !!! j).
Proof.
  intros Heq. rewrite <- (row_columns (st !!! j)), (columns_lookup st st0 j Heq).
  done.
Qed.

Lemma columns_assign st log k v :
  columns <$> assign st log k v = columns <$> st.
Proof. by apply columns_alter. Qed.

Lemma row_assign st log k v j : row (assign st log k v !!! j) = row (st !!! j).
Proof. apply row_lookup, columns_assign. Qed.

Lemma assign_four st log (t : metrics) :
  assign (assign (assign (assign st log "distance_km" (distance_km t))
                         log "consumption_per100" (consumption_per100 t))
                 log "rand_per_km" (rand_per_km t))
         log "rand_per_litre_trip" (rand_per_litre_trip t)
  = alter (write t) log st.
Proof.
  unfold assign. rewrite !list_alter_alter_eq. by apply list_alter_ext.
Qed.

Lemma assign_nulls_write st log : assign_nulls st log = alter (write no_metrics) log st.
Proof. apply (assign_four st log no_metrics). Qed.

Lemma trip_step_write with_odo st st0 i log :
  columns <$> st = columns <$> st0 ->
  has_odometer (st0 !!! log) ->
  (i ≠ 0%nat -> has_odometer (st0 !!! (with_odo !!! (i - 1)%nat))) ->
  trip_step with_odo st (i, log) =
    Ok (alter (write (metrics_after (predecessor st0 with_odo i) (st0 !!! log)))
              log st).
Proof.
  intros Hcol [a Ha] Hprev. unfold trip_step, predecessor.
  destruct (Nat.eqb_spec i 0) as [->|Hi]; simpl.
  { by rewrite assign_nulls_write. }
  destruct (Hprev Hi) as [b Hb].
  unfold odometer_of. rewrite !(row_lookup st st0) by done.
  rewrite Ha, Hb. simpl.
  unfold metrics_after, odometer_delta. rewrite Ha, Hb.
  unfold Py.gt, Py.sub.
  destruct (PrimFloat.ltb 0 (PrimFloat.sub a b)) eqn:Hd.
  - rewrite row_assign, (row_lookup st st0), div_positive by done. simpl.
    rewrite !row_assign, (row_lookup st st0), div_positive by done. simpl.
    rewrite !row_assign, (row_lookup st st0) by done.
    by rewrite <- (assign_four st log
                     (trip_metrics (PrimFloat.sub a b) (st0 !!! log))).
  - by rewrite assign_nulls_write.
Qed.

Lemma for_each_cons {A S : Type} (f : S -> A -> result S) x l s :
  for_each f (x :: l) s = f s x ≫= for_each f l.
Proof. done. Qed.

Lemma trip_loop with_odo (st0 : store) :
  NoDup with_odo ->
  (forall r, r ∈ with_odo -> has_odometer (st0 !!! r) /\ r < length st0) ->
  forall suf pre st,
    with_odo = pre ++ suf ->
    columns <$> st = columns <$> st0 ->
    exists st',
      for_each (trip_step with_odo) (enumerate_from (length pre) suf) st
        = Ok st' /\
      columns <$> st' = columns <$> st0 /\
      (forall j, j ∉ suf -> st' !!! j = st !!! j) /\
      (forall i r, suf !! i = Some r ->
         st' !!! r =
           write (metrics_after (predecessor st0 with_odo (length pre + i))
                                (st0 !!! r))
                 (st !!! r)).
Proof.
  intros Hnd Hall suf.
  induction suf as [|r suf IH]; intros pre st Hw Hcol.
  { exists st. repeat split; try done. }
  assert (r ∈ with_odo) as Hr
    by (rewrite Hw; apply elem_of_app; right; by left).
  destruct (Hall r Hr) as [Hodo Hlt].
  assert (r ∉ suf) as Hfresh.
  { rewrite Hw in Hnd. apply NoDup_app in Hnd as (_ & _ & Hnd).
    by apply NoDup_cons in Hnd as [? _]. }
  change (enumerate_from (length pre) (r :: suf))
    with ((length pre, r) :: enumerate_from (S (length pre)) suf).
  rewrite for_each_cons.
  rewrite (trip_step_write with_odo st st0) by (try done;
    intros Hi; apply Hall, list_elem_of_lookup_total_2;
    rewrite Hw, length_app; lia).
  change (Ok ?a ≫= ?f) with (f a).
  set (M := metrics_after (predecessor st0 with_odo (length pre)) (st0 !!! r)).
  destruct (IH (pre ++ [r]) (alter (write M) r st)) as (st' & Hrun & Hcol' & Hout & Hin).
  { by rewrite <- app_assoc. }
  { by rewrite columns_alter. }
  exists st'. rewrite length_app in Hrun. simpl in Hrun.
  replace (length pre + 1)%nat with (S (length pre)) in Hrun by lia.
  split; [done|]. split; [done|]. split.
  - intros j Hj. rewrite Hout by (intros ?; apply Hj; by right).
    apply list_lookup_total_alter_ne. intros ->. apply Hj. by left.
  - intros [|i] r' Hi; simpl in Hi.
    + injection Hi as <-. rewrite Hout by done.
      rewrite list_lookup_total_alter_eq
        by (rewrite (columns_length st st0); done).
      by rewrite Nat.add_0_r.
    + rewrite (Hin i r' Hi), length_app. simpl.
      rewrite list_lookup_total_alter_ne.
      * by replace (length pre + 1 + i)%nat with (length pre + S i)%nat by lia.
      * intros ->. apply Hfresh. by eapply list_elem_of_lookup_2.
Qed.

Lemma derive_trips_write (st st0 : store) car_logs :
  columns <$> st = columns <$> st0 ->
  NoDup car_logs ->
  (forall r, r ∈ car_logs -> r < length st0) ->
  exists st',
    derive_trips st car_logs = Ok st' /\
    columns <$> st' = columns <$> st0 /\
    (forall j, j ∉ with_odo_of st0 car_logs -> st' !!! j = st !!! j) /\
    (forall i r, with_odo_of st0 car_logs !! i = Some r ->
       st' !!! r =
         write (metrics_after (predecessor st0 (with_odo_of st0 car_logs) i)
                              (st0 !!! r))
               (st !!! r)).
Proof.
  intros Hcol Hnd Hlt. unfold derive_trips. cbv zeta.
  match goal with
  | |- context [for_each _ (enumerate ?w) _] =>
      assert (w = with_odo_of st0 car_logs) as ->
  end.
  { unfold with_odo_of.
    rewrite (list_filter_iff _ (fun l => has_odometer (st0 !!! l))).
    - apply sorted_ext. intros r _. unfold timestamp.
      by rewrite (row_lookup st st0).
    - intros r. unfold has_odometer. by rewrite (row_lookup st st0). }
  assert (forall r, r ∈ with_odo_of st0 car_logs ->
                    has_odometer (st0 !!! r) /\ r ∈ car_logs) as Hw.
  { intros r. unfold with_odo_of. rewrite sorted_perm.
    by intros ?%list_elem_of_filter. }
  destruct (trip_loop (with_odo_of st0 car_logs) st0) with
    (suf := with_odo_of st0 car_logs) (pre := @nil nat) (st := st)
    as (st' & Hrun & Hcol' & Hout & Hin); try done.
  - unfold with_odo_of. rewrite sorted_perm. by apply NoDup_filter.
  - intros r Hr. destruct (Hw r Hr). auto.
  - exists st'. done.
Qed.

Lemma with_odo_of_subset st0 car_logs r :
  r ∈ with_odo_of st0 car_logs -> has_odometer (st0 !!! r) /\ r ∈ car_logs.
Proof.
  unfold with_odo_of. rewrite sorted_perm. by intros ?%list_elem_of_filter.
Qed.

Lemma derive_all_write (st0 : store) groups :
  forall st,
    columns <$> st = columns <$> st0 ->
    NoDup (mjoin groups) ->
    (forall r, r ∈ mjoin groups -> r < length st0) ->
    exists st',
      for_each derive_trips groups st = Ok st' /\
      columns <$> st' = columns <$> st0 /\
      (forall j, (forall g, g ∈ groups -> j ∉ with_odo_of st0 g) ->
         st' !!! j = st !!! j) /\
      (forall g i r, g ∈ groups -> with_odo_of st0 g !! i = Some r ->
         st' !!! r =
           write (metrics_after (predecessor st0 (with_odo_of st0 g) i)
                                (st0 !!! r))
                 (st !!! r)).
Proof.
  induction groups as [|g groups IH]; intros st Hcol Hnd Hlt.
  { exists st. repeat split; try done. intros g i r Hg. by apply elem_of_nil in Hg. }
  change (mjoin (g :: groups)) with (g ++ mjoin groups) in Hnd, Hlt.
  apply NoDup_app in Hnd as (Hg & Hdisj & Hrest).
  destruct (derive_trips_write st st0 g) as (st1 & Hrun1 & Hcol1 & Hout1 & Hin1);
    try done.
  { intros r Hr. apply Hlt, elem_of_app. by left. }
  destruct (IH st1) as (st' & Hrun & Hcol' & Hout & Hin); try done.
  { intros r Hr. apply Hlt, elem_of_app. by right. }
  exists st'. rewrite for_each_cons, Hrun1.
  change (Ok st1 ≫= for_each derive_trips groups)
    with (for_each derive_trips groups st1).
  split; [done|]. split; [done|]. split.
  - intros j Hj. rewrite Hout, Hout1; [done| |].
    + apply Hj. by left.
    + intros g' Hg'. apply Hj. by right.
  - intros g' i r Hg' Hi.
    assert (r ∈ with_odo_of st0 g') as Hr by by eapply list_elem_of_lookup_2.
    apply elem_of_cons in Hg' as [->|Hg'].
    + rewrite Hout; [by apply Hin1|].
      intros g2 Hg2 Hr2. apply with_odo_of_subset in Hr as [_ Hr].
      apply with_odo_of_subset in Hr2 as [_ Hr2].
      apply (Hdisj r Hr). apply list_elem_of_join. eauto.
    + rewrite (Hin g' i r Hg' Hi), Hout1; [done|].
      intros Hr1. apply with_odo_of_subset in Hr as [_ Hr].
      apply with_odo_of_subset in Hr1 as [_ Hr1].
      apply (Hdisj r Hr1). apply list_elem_of_join. eauto.
Qed.

(** ** Grouping by car *)

Lemma key_eq_SInt k z : key_eq k (SInt z) = true -> k = SInt z \/ exists f, k = SReal f.
Proof.
  destruct k as [|x|f|s]; simpl; try discriminate.
  - intros ->%Z.eqb_eq. by left.
  - intros _. right. eauto.
Qed.

Lemma append_to_cases k r G :
  (exists G1 k' g G2,
      G = G1 ++ (k', g) :: G2 /\ key_eq k' k = true /\
      Forall (fun kg => key_eq kg.1 k = false) G1 /\
      append_to k r G = G1 ++ (k', g ++ [r]) :: G2)
  \/ (Forall (fun kg => key_eq kg.1 k = false) G /\
      append_to k r G = G ++ [(k, [r])]).
Proof.
  induction G as [|[k' g] G IH]; simpl.
  - right. by split.
  - destruct (key_eq k' k) eqn:E.
    + left. exists [], k', g, G. by repeat split.
    + destruct IH as [(G1 & k2 & g2 & G2 & -> & Hk & Hall & ->)|[Hall ->]].
      * left. exists ((k', g) :: G1), k2, g2, G2. repeat split; try done.
        by constructor.
      * right. split; [by constructor | done].
Qed.

Section grouping.
Context (kf : nat -> sqlval).

Lemma members_S z n :
  members kf z (S n) =
  members kf z n ++ (if decide (key_eq (kf n) (SInt z) = true) then [n] else []).
Proof.
  unfold members. rewrite seq_S, filter_app. f_equal.
Qed.

Lemma grouped_S n : grouped kf (S n) = append_to (kf n) n (grouped kf n).
Proof. unfold grouped. by rewrite seq_S, fold_left_app. Qed.

Lemma grouped_inv N :
  (forall r, r < N -> exists z, kf r = SInt z) ->
  forall n, n <= N ->
    NoDup (mjoin (snd <$> grouped kf n)) /\
    (forall k g, (k, g) ∈ grouped kf n ->
       exists z, k = SInt z /\ g = members kf z n /\ g ≠ []) /\
    (forall r, r < n -> exists g, (kf r, g) ∈ grouped kf n).
Proof.
  intros Hkeys. induction n as [|n IH]; intros Hn.
  { split; [constructor|]. split.
    - intros k g Hin. by apply elem_of_nil in Hin.
    - intros r Hr. lia. }
  destruct IH as (Hnd & Hgrp & Hcov); [lia|].
  destruct (Hkeys n) as [z0 Hz0]; [lia|].
  assert (forall r, r ∈ mjoin (snd <$> grouped kf n) -> r < n) as Hrange.
  { intros r (g & Hr & Hg)%list_elem_of_join.
    apply list_elem_of_fmap in Hg as ([k g'] & -> & Hg).
    destruct (Hgrp k g' Hg) as (z & _ & -> & _).
    apply list_elem_of_filter in Hr as [_ Hr].
    apply elem_of_seq in Hr. simpl in *. lia. }
  rewrite grouped_S, Hz0.
  destruct (append_to_cases (SInt z0) n (grouped kf n))
    as [(G1 & k' & g & G2 & HG & Hk & Hall & ->)|[Hall ->]].
  - (* the car already has a group *)
    assert (k' = SInt z0 /\ g = members kf z0 n /\ g ≠ []) as (-> & Hg & Hne).
    { destruct (Hgrp k' g) as (z & -> & ? & ?).
      - rewrite HG. apply elem_of_app. right. by left.
      - simpl in Hk. apply Z.eqb_eq in Hk as ->. done. }
    assert (forall k2 g2, (k2, g2) ∈ G2 -> key_eq k2 (SInt z0) = false) as HG2.
    { intros k2 g2 Hin2.
      destruct (Hgrp k2 g2) as (z & -> & Hg2 & Hne2).
      { rewrite HG. apply elem_of_app. right. by right. }
      simpl. apply Z.eqb_neq. intros ->.
      destruct g2 as [|r g2]; [done|].
      rewrite HG in Hnd. rewrite fmap_app, join_app in Hnd.
      apply NoDup_app in Hnd as (_ & _ & Hnd). csimpl in Hnd.
      apply NoDup_app in Hnd as (_ & Hdisj & _).
      apply (Hdisj r).
      - rewrite Hg, <- Hg2. by left.
      - apply list_elem_of_join. exists (r :: g2). split; [by left|].
        apply list_elem_of_fmap. by exists (SInt z0, r :: g2). }
    split; [|split].
    + assert (mjoin (snd <$> G1 ++ (SInt z0, g ++ [n]) :: G2)
              ≡ₚ n :: mjoin (snd <$> grouped kf n)) as ->.
      { rewrite HG, !fmap_app, !join_app. csimpl.
        rewrite <- app_assoc. simpl.
        by rewrite <- !Permutation_middle. }
      apply NoDup_cons. split; [|done].
      intros Hin%Hrange. lia.
    + intros k g' Hin.
      apply elem_of_app in Hin as [Hin|Hin].
      * destruct (Hgrp k g') as (z & -> & -> & Hne').
        { rewrite HG. apply elem_of_app. by left. }
        exists z. split; [done|]. rewrite members_S.
        rewrite Forall_forall in Hall. specialize (Hall _ Hin). simpl in Hall.
        rewrite Hz0. simpl. rewrite Z.eqb_sym, Hall.
        rewrite decide_False by done. by rewrite app_nil_r.
      * apply elem_of_cons in Hin as [[= -> ->]|Hin].
        { exists z0. split; [done|]. rewrite members_S, Hz0. simpl.
          rewrite Z.eqb_refl, decide_True by done. rewrite Hg.
          split; [done|]. by destruct (members kf z0 n). }
        destruct (Hgrp k g') as (z & -> & -> & Hne').
        { rewrite HG. apply elem_of_app. right. by right. }
        exists z. split; [done|]. rewrite members_S.
        specialize (HG2 _ _ Hin). simpl in HG2.
        rewrite Hz0. simpl. rewrite Z.eqb_sym, HG2.
        rewrite decide_False by done. by rewrite app_nil_r.
    + intros r Hr. destruct (decide (r = n)) as [->|Hrn].
      * rewrite Hz0. exists (g ++ [n]). apply elem_of_app. right. by left.
      * destruct (Hcov r) as [g' Hin]; [lia|].
        rewrite HG in Hin. apply elem_of_app in Hin as [Hin|Hin].
        { exists g'. apply elem_of_app. by left. }
        apply elem_of_cons in Hin as [[= Hkr ->]|Hin].
        { exists (g ++ [n]). rewrite Hkr. apply elem_of_app. right. by left. }
        exists g'. apply elem_of_app. right. by right.
  - (* the first entry of the car *)
    split; [|split].
    + rewrite fmap_app, join_app. csimpl. rewrite ?app_nil_r.
      apply NoDup_app. split; [done|]. split; [|apply NoDup_singleton].
      intros r Hr ->%list_elem_of_singleton.
      specialize (Hrange _ Hr). lia.
    + intros k g Hin.
      apply elem_of_app in Hin as [Hin|Hin].
      * destruct (Hgrp k g Hin) as (z & -> & -> & Hne').
        exists z. split; [done|]. rewrite members_S.
        rewrite Forall_forall in Hall. specialize (Hall _ Hin). simpl in Hall.
        rewrite Hz0. simpl. rewrite Z.eqb_sym, Hall.
        rewrite decide_False by done. by rewrite app_nil_r.
      * apply list_elem_of_singleton in Hin as [= -> ->].
        exists z0. split; [done|]. rewrite members_S, Hz0. simpl.
        rewrite Z.eqb_refl, decide_True by done.
        assert (members kf z0 n = []) as ->.
        { destruct (members kf z0 n) as [|r l] eqn:Hm; [done|].
          assert (r ∈ members kf z0 n) as Hr by (rewrite Hm; by left).
          apply list_elem_of_filter in Hr as [Hk Hr].
          apply elem_of_seq in Hr.
          destruct (Hcov r) as [g' Hg']; [lia|].
          rewrite Forall_forall in Hall. specialize (Hall _ Hg').
          simpl in Hall. congruence. }
        done.
    + intros r Hr. destruct (decide (r = n)) as [->|Hrn].
      * rewrite Hz0. exists [n]. apply elem_of_app. right. by left.
      * destruct (Hcov r) as [g' Hin]; [lia|].
        exists g'. apply elem_of_app. by left.
Qed.
End grouping.

Lemma filter_fmap_iff {A B : Type} (f : A -> B) (P : B -> Prop) (Q : A -> Prop)
    `{!∀ x, Decision (P x)} `{!∀ x, Decision (Q x)} (l : list A) :
  (forall x, Q x <-> P (f x)) ->
  filter P (f <$> l) = f <$> filter Q l.
Proof.
  intros HPQ. induction l as [|x l IH]; [done|].
  rewrite fmap_cons, !filter_cons, IH.
  destruct (decide (P (f x))) as [HP|HP], (decide (Q x)) as [HQ|HQ];
    try done; exfalso; by apply HPQ in HP || apply HPQ in HQ.
Qed.

Lemma fold_enumerate_seq (kf : nat -> sqlval) (logs : store) :
  forall i acc,
    (forall j x, logs !! j = Some x -> kf (i + j)%nat = FuelLog.car_id (row x)) ->
    fold_left (fun by_car il => append_to (FuelLog.car_id (row il.2)) il.1 by_car)
              (enumerate_from i logs) acc
    = fold_left (fun by_car r => append_to (kf r) r by_car)
                (seq i (length logs)) acc.
Proof.
  induction logs as [|x logs IH]; intros i acc Hk; simpl; [done|].
  rewrite <- (Hk 0%nat x eq_refl), Nat.add_0_r.
  apply IH. intros j y Hj. rewrite <- (Hk (S j) y Hj). f_equal. lia.
Qed.

Lemma group_by_car_grouped logs :
  group_by_car logs = grouped (car_key logs) (length logs).
Proof.
  unfold group_by_car, grouped, enumerate. apply fold_enumerate_seq.
  intros j x Hj. unfold car_key. simpl.
  by rewrite (list_lookup_total_correct _ _ _ Hj).
Qed.

Lemma lookup_total_seq_fmap (logs : store) :
  (fun r => logs !!! r) <$> seq 0 (length logs) = logs.
Proof.
  apply list_eq. intros i. rewrite list_lookup_fmap.
  destruct (decide (i < length logs)) as [Hi|Hi].
  - rewrite lookup_seq_lt by done. simpl.
    destruct (lookup_lt_is_Some_2 logs i Hi) as [x Hx].
    by rewrite Hx, (list_lookup_total_correct _ _ _ Hx).
  - rewrite lookup_seq_ge by lia. simpl. by rewrite lookup_ge_None_2 by lia.
Qed.

Lemma members_fmap logs z :
  (fun r => logs !!! r) <$> members (car_key logs) z (length logs)
  = filter (of_car z) logs.
Proof.
  unfold members.
  transitivity (filter (of_car z) ((fun r => logs !!! r) <$> seq 0 (length logs))).
  - symmetry. by apply filter_fmap_iff.
  - by rewrite lookup_total_seq_fmap.
Qed.

Lemma with_odo_of_fmap logs g :
  (fun r => logs !!! r) <$> with_odo_of logs g
  = Py.sorted timestamp (filter has_odometer ((fun r => logs !!! r) <$> g)).
Proof.
  unfold with_odo_of.
  rewrite (fmap_sorted (fun r => logs !!! r) timestamp).
  f_equal. symmetry. by apply filter_fmap_iff.
Qed.

Lemma predecessor_last (logs : store) wb r wa :
  predecessor logs (wb ++ r :: wa) (length wb)
  = last ((fun r => logs !!! r) <$> wb).
Proof.
  unfold predecessor. destruct wb as [|b wb _] using rev_ind; [done|].
  rewrite length_app. simpl.
  destruct (Nat.eqb_spec (length wb + 1) 0); [lia|].
  rewrite fmap_snoc, last_snoc. do 2 f_equal.
  rewrite <- app_assoc. simpl.
  replace (length wb + 1 - 1)%nat with (length wb + 0)%nat by lia.
  by rewrite lookup_total_app_r, Nat.add_0_r, Nat.sub_diag by lia.
Qed.

(** ** What [get_logs] fetches and returns *)

Lemma sql_eq_SInt v z : Sql.eq v (SInt z) = true -> v = SInt z.
Proof.
  destruct v; simpl; try discriminate. by intros ->%Z.eqb_eq.
Qed.

Lemma select_logs_fresh `{Platform} car_id db d :
  d ∈ select_logs car_id db ->
  derived d = ∅ /\ exists z, FuelLog.car_id (row d) = SInt z.
Proof.
  unfold select_logs. rewrite sorted_perm.
  intros Hd%list_elem_of_In%in_flat_map. destruct Hd as (fl & _ & Hd).
  unfold join_cars in Hd. apply list_elem_of_In, list_elem_of_fmap in Hd.
  destruct Hd as (c & -> & Hc). apply list_elem_of_filter in Hc as [Hc _].
  simpl. split; [done|]. exists (Car.id c). by apply sql_eq_SInt.
Qed.

Lemma get_logs_store `{Platform} car_id db :
  let logs := select_logs car_id db in
  exists st',
    (get_logs car_id db).2 =
      Ok ((fun l => st' !!! l) <$>
            Py.sorted_reverse (fun l => FuelLog.logged_at (row (st' !!! l)))
              (seq 0 (length logs))) /\
    columns <$> st' = columns <$> logs /\
    (forall j, ¬ has_odometer (logs !!! j) -> st' !!! j = logs !!! j) /\
    (forall z before cur after,
        odometer_sequence logs z = before ++ cur :: after ->
        exists r, r < length logs /\
          st' !!! r = with_metrics cur (metrics_after (last before) cur)).
Proof.
  intros logs0. remember logs0 as logs eqn:Hlogs.
  unfold logs0 in Hlogs. clear logs0.
  assert (forall d, d ∈ logs ->
            derived d = ∅ /\ exists z, FuelLog.car_id (row d) = SInt z)
    as Hfresh.
  { intros d. rewrite Hlogs. apply select_logs_fresh. }
  assert (forall r, r < length logs -> exists z, car_key logs r = SInt z) as Hkeys.
  { intros r Hr. unfold car_key.
    apply Hfresh, list_elem_of_lookup_total_2, Hr. }
  destruct (grouped_inv (car_key logs) (length logs) Hkeys (length logs))
    as (Hnd & Hgrp & Hcov); [done|].
  rewrite <- group_by_car_grouped in Hnd, Hgrp, Hcov.
  destruct (derive_all_write logs (snd <$> group_by_car logs) logs)
    as (st' & Hrun & Hcol & Hout & Hin); try done.
  { intros r (g & Hr & Hg)%list_elem_of_join.
    apply list_elem_of_fmap in Hg as ([k g'] & -> & Hg).
    destruct (Hgrp k g' Hg) as (z & _ & -> & _).
    apply list_elem_of_filter in Hr as [_ Hr].
    apply elem_of_seq in Hr. simpl in *. lia. }
  exists st'. split; [|split; [done|split]].
  - unfold get_logs. simpl. rewrite <- Hlogs.
    change (map snd (group_by_car logs)) with (snd <$> group_by_car logs).
    by rewrite Hrun.
  - intros j Hj. apply Hout. intros g _ Hg.
    by apply with_odo_of_subset in Hg as [? _].
  - intros z before cur after Hseq.
    assert (cur ∈ logs /\ of_car z cur) as [Hcur Hz].
    { assert (cur ∈ odometer_sequence logs z) as Hc
        by (rewrite Hseq; apply elem_of_app; right; by left).
      unfold odometer_sequence in Hc. rewrite sorted_perm in Hc.
      apply list_elem_of_filter in Hc as [_ Hc].
      by apply list_elem_of_filter in Hc as [? ?]. }
    apply list_elem_of_lookup_total_1 in Hcur as (r0 & Hr0 & Hcur).
    assert (car_key logs r0 = SInt z) as Hk.
    { destruct (Hkeys r0 Hr0) as [z' Hz']. rewrite Hz'.
      unfold of_car in Hz. unfold car_key in Hz'. rewrite Hcur in Hz'.
      rewrite Hz' in Hz. simpl in Hz. by apply Z.eqb_eq in Hz as ->. }
    destruct (Hcov r0 Hr0) as [g Hg]. rewrite Hk in Hg.
    destruct (Hgrp _ _ Hg) as (z' & [= <-] & Hmem & _).
    assert ((fun r => logs !!! r) <$> with_odo_of logs g
            = before ++ cur :: after) as Hw.
    { rewrite with_odo_of_fmap, Hmem, members_fmap. exact Hseq. }
    apply fmap_app_inv in Hw as (wb & w2 & -> & Hw2 & Hw).
    symmetry in Hw2. apply fmap_cons_inv in Hw2 as (rc & wa & -> & -> & ->).
    exists rc. split.
    + assert (rc ∈ with_odo_of logs g) as Hrc
        by (rewrite Hw; apply elem_of_app; right; by left).
      apply with_odo_of_subset in Hrc as [_ Hrc]. rewrite Hmem in Hrc.
      apply list_elem_of_filter in Hrc as [_ Hrc].
      apply elem_of_seq in Hrc. simpl in *. lia.
    + rewrite (Hin g (length wb) rc).
      * rewrite Hw, predecessor_last. unfold write, with_metrics.
        assert (derived (logs !!! rc) = ∅) as ->; [|done].
        apply Hfresh.
        assert (rc ∈ with_odo_of logs g) as Hrc
          by (rewrite Hw; apply elem_of_app; right; by left).
        apply with_odo_of_subset in Hrc as [_ Hrc]. rewrite Hmem in Hrc.
        apply list_elem_of_filter in Hrc as [_ Hrc].
        apply elem_of_seq in Hrc.
        apply list_elem_of_lookup_total_2. simpl in *. lia.
      * apply list_elem_of_fmap. by exists (SInt z, g).
      * rewrite Hw. by apply list_lookup_middle.
Qed.

Lemma write_metrics_lookup (t : metrics) :
  write_metrics t ∅ !! "distance_km" = Some (distance_km t) /\
  write_metrics t ∅ !! "consumption_per100" = Some (consumption_per100 t) /\
  write_metrics t ∅ !! "rand_per_km" = Some (rand_per_km t) /\
  write_metrics t ∅ !! "rand_per_litre_trip" = Some (rand_per_litre_trip t).
Proof. unfold write_metrics. repeat split; by simplify_map_eq. Qed.

Lemma get_logs_entries `{Platform} car_id db :
  exists logs,
    (get_logs car_id db).2 = Ok logs /\
    (forall car before cur after,
        odometer_sequence (select_logs car_id db) car = before ++ cur :: after ->
        with_metrics cur (metrics_after (last before) cur) ∈ logs) /\
    (forall e, e ∈ logs -> ¬ has_odometer e -> e ∈ select_logs car_id db) /\
    (forall d, d ∈ select_logs car_id db -> ¬ has_odometer d -> d ∈ logs).
Proof.
  destruct (get_logs_store car_id db) as (st' & Hrun & Hcol & Hout & Hin).
  eexists. split; [exact Hrun|].
  assert (forall r, r < length (select_logs car_id db) ->
            st' !!! r ∈ (fun l => st' !!! l) <$>
              Py.sorted_reverse
                (fun l => FuelLog.logged_at (row (st' !!! l)))
                (seq 0 (length (select_logs car_id db)))) as Hmem.
  { intros r Hr. apply list_elem_of_fmap. exists r. split; [done|].
    rewrite sorted_reverse_perm. apply elem_of_seq. lia. }
  split; [|split].
  - intros car before cur after Hseq.
    destruct (Hin car before cur after Hseq) as (r & Hr & <-). by apply Hmem.
  - intros e He Hodo.
    apply list_elem_of_fmap in He as (r & -> & Hr).
    rewrite sorted_reverse_perm in Hr. apply elem_of_seq in Hr.
    rewrite Hout.
    + apply list_elem_of_lookup_total_2. lia.
    + unfold has_odometer in *. by rewrite <- (row_lookup st' _ r Hcol).
  - intros d Hd Hodo.
    apply list_elem_of_lookup_total_1 in Hd as (r & Hr & <-).
    rewrite <- Hout by done. by apply Hmem.
Qed.

Lemma with_metrics_fields cur (t : metrics) :
  columns (with_metrics cur t) = columns cur /\
  derived (with_metrics cur t) !! "distance_km" = Some (distance_km t) /\
  derived (with_metrics cur t) !! "consumption_per100"
    = Some (consumption_per100 t) /\
  derived (with_metrics cur t) !! "rand_per_km" = Some (rand_per_km t) /\
  derived (with_metrics cur t) !! "rand_per_litre_trip"
    = Some (rand_per_litre_trip t).
Proof. split; [done|]. apply write_metrics_lookup. Qed.

(** C1: take any vehicle and its fuel entries that carry an odometer
    reading, by timestamp ascending. Every entry [cur] of that sequence
    that has a predecessor [prev] and lies a strictly positive [delta]
    of odometer after it comes back from [GET /api/logs] with exactly
    the four keys [distance_km = round(delta, 1)],
    [consumption_per100 = round(fuel_amount / delta * 100, 2)],
    [rand_per_km = round(total_cost / delta, 4)] and
    [rand_per_litre_trip = round(price_per_unit, 4)] added to its
    columns. *)
Theorem get_logs_trip_metrics `{Platform} car_id db car before prev cur after
    delta :
  odometer_sequence (select_logs car_id db) car
    = before ++ prev :: cur :: after ->
  odometer_delta prev cur = Some delta ->
  PrimFloat.ltb 0%float delta = true ->
  exists logs e,
    (get_logs car_id db).2 = Ok logs /\
    e ∈ logs /\
    e = with_metrics cur (trip_metrics delta cur) /\
    columns e = columns cur /\
    derived e !! "distance_km" = Some (Number (Py.round delta 1)) /\
    derived e !! "consumption_per100"
      = Some (Number
                (Py.round
                   (PrimFloat.mul
                      (PrimFloat.div (FuelLog.fuel_amount (row cur)) delta)
                      100%float) 2)) /\
    derived e !! "rand_per_km"
      = Some (Number
                (Py.round
                   (PrimFloat.div (FuelLog.total_cost (row cur)) delta) 4)) /\
    derived e !! "rand_per_litre_trip"
      = Some (Number (Py.round (FuelLog.price_per_unit (row cur)) 4)).
Proof.
  intros Hseq Hdelta Hpos.
  destruct (get_logs_entries car_id db) as (logs & Hrun & Hin & _).
  exists logs, (with_metrics cur (trip_metrics delta cur)).
  split; [done|]. split.
  - specialize (Hin car (before ++ [prev]) cur after).
    rewrite <- app_assoc in Hin. specialize (Hin Hseq).
    rewrite last_snoc in Hin. unfold metrics_after in Hin.
    by rewrite Hdelta, Hpos in Hin.
  - split; [done|]. apply (with_metrics_fields cur (trip_metrics delta cur)).
Qed.

Lemma get_logs_trip_metrics_witness :
  exists logs e,
    (@get_logs Demo.platform None Demo.db5).2 = Ok logs /\
    e ∈ logs /\
    e = with_metrics (Demo.fill 2) (trip_metrics 200%float (Demo.fill 2)) /\
    columns e = columns (Demo.fill 2) /\
    derived e !! "distance_km" = Some (Number (Py.round 200%float 1)) /\
    derived e !! "consumption_per100"
      = Some (Number
                (Py.round
                   (PrimFloat.mul
                      (PrimFloat.div
                         (FuelLog.fuel_amount (row (Demo.fill 2))) 200%float)
                      100%float) 2)) /\
    derived e !! "rand_per_km"
      = Some (Number
                (Py.round
                   (PrimFloat.div
                      (FuelLog.total_cost (row (Demo.fill 2))) 200%float) 4)) /\
    derived e !! "rand_per_litre_trip"
      = Some (Number
                (Py.round (FuelLog.price_per_unit (row (Demo.fill 2))) 4)).
Proof.
  apply (@get_logs_trip_metrics Demo.platform None Demo.db5 1%Z [] (Demo.fill 0)
           (Demo.fill 2) [Demo.fill 3] 200%float);
    vm_compute; reflexivity.
Defined.

Example e2_distance_and_consumption :
  trip_metrics 200%float (Demo.fill 2)
  = {| distance_km := Number 200%float;
       consumption_per100 := Number 20%float;
       rand_per_km := Number 0x1.1333333333333p+2%float;
       rand_per_litre_trip := Number 21.5%float |}.
Proof. vm_compute. reflexivity. Qed.

(** C2: [GET /api/logs] answers for every database, no exception is
    raised; in its answer the earliest odometer-bearing entry of each
    vehicle, and every odometer-bearing entry whose delta over its
    predecessor is zero or negative, carries the four derived keys, all
    null. *)
Theorem get_logs_null_metrics `{Platform} car_id db :
  exists logs,
    (get_logs car_id db).2 = Ok logs /\
    (forall car first rest,
        odometer_sequence (select_logs car_id db) car = first :: rest ->
        exists e, e ∈ logs /\ columns e = columns first /\
          derived e !! "distance_km" = Some Null /\
          derived e !! "consumption_per100" = Some Null /\
          derived e !! "rand_per_km" = Some Null /\
          derived e !! "rand_per_litre_trip" = Some Null) /\
    (forall car before prev cur after delta,
        odometer_sequence (select_logs car_id db) car
          = before ++ prev :: cur :: after ->
        odometer_delta prev cur = Some delta ->
        PrimFloat.leb delta 0%float = true ->
        exists e, e ∈ logs /\ columns e = columns cur /\
          derived e !! "distance_km" = Some Null /\
          derived e !! "consumption_per100" = Some Null /\
          derived e !! "rand_per_km" = Some Null /\
          derived e !! "rand_per_litre_trip" = Some Null).
Proof.
  destruct (get_logs_entries car_id db) as (logs & Hrun & Hin & _).
  exists logs. split; [done|]. split.
  - intros car first rest Hseq.
    exists (with_metrics first no_metrics). split.
    + apply (Hin car [] first rest Hseq).
    + apply (with_metrics_fields first no_metrics).
  - intros car before prev cur after delta Hseq Hdelta Hneg.
    exists (with_metrics cur no_metrics). split.
    + specialize (Hin car (before ++ [prev]) cur after).
      rewrite <- app_assoc in Hin. specialize (Hin Hseq).
      rewrite last_snoc in Hin. unfold metrics_after in Hin.
      by rewrite Hdelta, (leb_nonpos _ Hneg) in Hin.
    + apply (with_metrics_fields cur no_metrics).
Qed.

Lemma get_logs_null_metrics_witness :
  exists logs,
    (@get_logs Demo.platform None Demo.db5).2 = Ok logs /\
    (exists e, e ∈ logs /\ columns e = columns (Demo.fill 0) /\
       derived e !! "distance_km" = Some Null /\
       derived e !! "consumption_per100" = Some Null /\
       derived e !! "rand_per_km" = Some Null /\
       derived e !! "rand_per_litre_trip" = Some Null) /\
    (exists e, e ∈ logs /\ columns e = columns (Demo.fill 3) /\
       derived e !! "distance_km" = Some Null /\
       derived e !! "consumption_per100" = Some Null /\
       derived e !! "rand_per_km" = Some Null /\
       derived e !! "rand_per_litre_trip" = Some Null).
Proof.
  destruct (@get_logs_null_metrics Demo.platform None Demo.db5)
    as (logs & Hrun & Hfirst & Hback).
  exists logs. split; [exact Hrun|]. split.
  - apply (Hfirst 1%Z (Demo.fill 0) [Demo.fill 2; Demo.fill 3]).
    vm_compute. reflexivity.
  - apply (Hback 1%Z [Demo.fill 0] (Demo.fill 2) (Demo.fill 3) []
             (-300)%float); vm_compute; reflexivity.
Defined.

Lemma odometer_sequence_filter logs car :
  odometer_sequence logs car = filter has_odometer (car_sequence logs car).
Proof. unfold odometer_sequence, car_sequence. by rewrite filter_sorted. Qed.

(** C4, as the code has it: in the answer of [GET /api/logs] an entry
    whose odometer is null is the fetched dict as it was: none of the
    four derived keys was ever assigned to it, so the keys are absent
    from the entry, not present with null; every such fetched entry is
    in the answer; and such entries do not count as a predecessor: when
    only entries without a reading lie between [prev] and [cur] in the
    timestamp order of a vehicle, [cur] gets its metrics from its delta
    over [prev]. *)
Theorem get_logs_without_odometer `{Platform} car_id db :
  exists logs,
    (get_logs car_id db).2 = Ok logs /\
    (forall e, e ∈ logs -> FuelLog.odometer (row e) = None ->
       derived e = ∅ /\ e ∈ select_logs car_id db) /\
    (forall d, d ∈ select_logs car_id db ->
       FuelLog.odometer (row d) = None -> d ∈ logs) /\
    (forall car before prev between cur after,
        car_sequence (select_logs car_id db) car
          = before ++ prev :: between ++ cur :: after ->
        has_odometer prev -> has_odometer cur ->
        Forall (fun d => FuelLog.odometer (row d) = None) between ->
        with_metrics cur (metrics_after (Some prev) cur) ∈ logs).
Proof.
  destruct (get_logs_entries car_id db) as (logs & Hrun & Hin & Hnone & Hkept).
  assert (forall d : log_dict,
            FuelLog.odometer (row d) = None -> ¬ has_odometer d) as Hno.
  { intros d Hd [x Hx]. congruence. }
  exists logs. split; [done|]. split; [|split].
  - intros e He Hodo. pose proof (Hnone e He (Hno e Hodo)) as Hfetched.
    split; [|done]. by apply (select_logs_fresh car_id db).
  - intros d Hd Hodo. apply Hkept; auto.
  - intros car before prev between cur after Hseq Hprev Hcur Hbetween.
    specialize (Hin car (filter has_odometer before ++ [prev]) cur
                  (filter has_odometer after)).
    rewrite last_snoc in Hin. apply Hin.
    rewrite odometer_sequence_filter, Hseq.
    rewrite filter_app, filter_cons_True, filter_app by done.
    rewrite filter_cons_True by done.
    assert (filter has_odometer between = []) as ->.
    { clear -Hbetween Hno. induction Hbetween as [|d l Hd _ IH]; [done|].
      rewrite filter_cons_False by auto. done. }
    by rewrite <- app_assoc.
Qed.

Lemma get_logs_without_odometer_witness :
  exists logs,
    (@get_logs Demo.platform None Demo.db5).2 = Ok logs /\
    Demo.fill 1 ∈ logs /\
    derived (Demo.fill 1) = ∅ /\
    with_metrics (Demo.fill 2)
      (metrics_after (Some (Demo.fill 0)) (Demo.fill 2)) ∈ logs.
Proof.
  destruct (@get_logs_without_odometer Demo.platform None Demo.db5)
    as (logs & Hrun & Hnull & Hkept & Hskip).
  assert (Demo.fill 1 ∈ logs) as Hfill.
  { apply Hkept; [|reflexivity].
    apply (list_elem_of_lookup_total_2 (@select_logs Demo.platform None Demo.db5) 1).
    vm_compute. lia. }
  exists logs. split; [exact Hrun|]. split; [exact Hfill|]. split.
  - apply (Hnull (Demo.fill 1) Hfill). reflexivity.
  - apply (Hskip 1%Z [] (Demo.fill 0) [Demo.fill 1] (Demo.fill 2)
             [Demo.fill 3]).
    + vm_compute. reflexivity.
    + by eexists.
    + by eexists.
    + by repeat constructor.
Defined.

(** The fill without a reading is in the answer for [Demo.db5] and
    carries none of the four keys: they are not null there, they are
    missing, while the first fill with a reading has them as null. *)
Lemma get_logs_keys_absent :
  exists logs e first,
    (@get_logs Demo.platform None Demo.db5).2 = Ok logs /\
    e ∈ logs /\ FuelLog.odometer (row e) = None /\
    derived e !! "distance_km" = None /\
    derived e !! "consumption_per100" = None /\
    derived e !! "rand_per_km" = None /\
    derived e !! "rand_per_litre_trip" = None /\
    ¬ (derived e !! "distance_km" = Some Null) /\
    first ∈ logs /\ FuelLog.odometer (row first) = Some 1000%float /\
    derived first !! "distance_km" = Some Null.
Proof.
  destruct (@get_logs_entries Demo.platform None Demo.db5)
    as (logs & Hrun & Hin & _ & Hkept).
  exists logs, (Demo.fill 1), (with_metrics (Demo.fill 0) no_metrics).
  split; [exact Hrun|]. split.
  { apply Hkept.
    - apply (list_elem_of_lookup_total_2
               (@select_logs Demo.platform None Demo.db5) 1).
      vm_compute. lia.
    - by intros [x Hx]. }
  split; [reflexivity|].
  split; [reflexivity|]. split; [reflexivity|]. split; [reflexivity|].
  split; [reflexivity|]. split; [discriminate|]. split.
  { apply (Hin 1%Z [] (Demo.fill 0) [Demo.fill 2; Demo.fill 3]).
    vm_compute. reflexivity. }
  split; [reflexivity|]. apply write_metrics_lookup.
Qed.

(** The answer lists every fetched row once: its dicts, the derived keys
    dropped, are a permutation of what the SELECT returned. *)
Lemma get_logs_permutation `{Platform} car_id db logs :
  (get_logs car_id db).2 = Ok logs ->
  columns <$> logs ≡ₚ select_logs car_id db.
Proof.
  destruct (get_logs_store car_id db) as (st' & Hrun & Hcol & _ & _).
  rewrite Hrun. intros [= <-].
  rewrite <- list_fmap_compose, sorted_reverse_perm.
  rewrite <- (lookup_total_seq_fmap (select_logs car_id db)) at 2.
  assert (forall l : list nat,
            (forall r, r ∈ l -> r < length (select_logs car_id db)) ->
            columns ∘ (fun l => st' !!! l) <$> l
            = (fun r => select_logs car_id db !!! r) <$> l) as Hext;
    [|rewrite Hext; [done|]; by intros r [_ ?]%elem_of_seq].
  intros l Hl. apply list_fmap_ext. intros i r Hr%list_elem_of_lookup_2.
  specialize (Hl r Hr). simpl.
  rewrite (columns_lookup st' _ r Hcol).
  assert (select_logs car_id db !!! r ∈ select_logs car_id db) as Hin
    by (apply list_elem_of_lookup_total_2; lia).
  destruct (select_logs_fresh car_id db _ Hin) as [Hd _].
  destruct (select_logs car_id db !!! r) as [rw reg desc dv]. simpl in Hd.
  by subst dv.
Qed.

Lemma select_logs_joined `{Platform} car_id db d :
  d ∈ select_logs car_id db ->
  exists c, c ∈ cars db /\ FuelLog.car_id (row d) = SInt (Car.id c).
Proof.
  unfold select_logs. rewrite sorted_perm.
  intros Hd%list_elem_of_In%in_flat_map. destruct Hd as (fl & _ & Hd).
  unfold join_cars in Hd. apply list_elem_of_In, list_elem_of_fmap in Hd.
  destruct Hd as (c & -> & Hc). apply list_elem_of_filter in Hc as [Hc Hin].
  exists c. split; [done|]. by apply sql_eq_SInt.
Qed.

Lemma get_logs_columns `{Platform} car_id db logs e :
  (get_logs car_id db).2 = Ok logs -> e ∈ logs ->
  columns e ∈ select_logs car_id db.
Proof.
  destruct (get_logs_store car_id db) as (st' & Hrun & Hcol & _ & _).
  rewrite Hrun. intros [= <-] He.
  apply list_elem_of_fmap in He as (r & -> & Hr).
  rewrite sorted_reverse_perm in Hr. apply elem_of_seq in Hr.
  rewrite (columns_lookup st' _ r Hcol).
  assert (select_logs car_id db !!! r ∈ select_logs car_id db) as Hin
    by (apply list_elem_of_lookup_total_2; lia).
  destruct (select_logs_fresh car_id db _ Hin) as [Hd _].
  destruct (select_logs car_id db !!! r) as [rw reg desc dv]. simpl in Hd.
  by subst dv.
Qed.

End trip_metrics.
(** ** Entries of a deleted car *)

Lemma sorted_reverse_elem_of {A : Type} (key : A -> string) (l : list A) x :
  x ∈ Py.sorted_reverse key l <-> x ∈ l.
Proof. by rewrite sorted_reverse_perm. Qed.

Lemma in_scope_all `{Platform} {A : Type} (key : A -> sqlval) (rows : list A) :
  filter (fun r => in_scope None (key r)) rows = rows.
Proof.
  induction rows as [|r rows IH]; [done|].
  rewrite filter_cons_True by done. by rewrite IH.
Qed.

Lemma delete_car_done `{Platform} car db :
  - 2 ^ 63 <= car < 2 ^ 63 ->
  delete_car car db
  = (set_cars db (filter (fun c => Car.id c ≠ car) (cars db)) (cars_seq db),
     Ok (JObj [("deleted", JInt car)], 200)).
Proof. intros Hcar. unfold delete_car. by rewrite where_id_range. Qed.

(** No entry of a listing names a car that is not stored. *)
Lemma get_logs_stored_car `{Platform} car_id db logs e :
  (get_logs car_id db).2 = Ok logs -> e ∈ logs ->
  exists c, c ∈ cars db /\ FuelLog.car_id (row e) = SInt (Car.id c).
Proof.
  intros Hrun He.
  apply (get_logs_columns _ _ _ _ Hrun), select_logs_joined in He
    as (c & Hc & Hid).
  exists c. by split.
Qed.

Lemma get_services_stored_car `{Platform} car_id category db s :
  s ∈ (get_services car_id category db).2 ->
  exists c, c ∈ cars db /\ ServiceLog.car_id (svc_row s) = SInt (Car.id c).
Proof.
  intros Hs. simpl in Hs.
  apply sorted_reverse_elem_of, list_elem_of_In, in_flat_map in Hs
    as (sl & _ & Hs).
  apply list_elem_of_In, list_elem_of_fmap in Hs as (c & -> & Hc).
  apply list_elem_of_filter in Hc as [Heq Hc].
  exists c. split; [done|]. simpl. by apply sql_eq_SInt.
Qed.

(** What [get_stats] computes, field by field, over the fuel and the
    service rows in scope. *)
Lemma get_stats_fields `{Platform} car_id db :
  exists s,
    (get_stats car_id db).2 = Ok s /\
    total_entries s = Z.of_nat (length (entries_in_scope car_id db)) /\
    total_fuel s
      = Sql.coalesce_sum (map FuelLog.fuel_amount (entries_in_scope car_id db))
    /\
    total_spent s
      = Sql.coalesce_sum (map FuelLog.total_cost (entries_in_scope car_id db))
    /\
    avg_price_per_unit s
      = Sql.coalesce_avg
          (map FuelLog.price_per_unit (entries_in_scope car_id db)) /\
    first_odo s = Sql.min (omap FuelLog.odometer (entries_in_scope car_id db))
    /\
    last_odo s = Sql.max (omap FuelLog.odometer (entries_in_scope car_id db))
    /\
    service_breakdown s = select_breakdown (services_in_scope car_id db).
Proof.
  unfold get_stats. fold (entries_in_scope car_id db).
  fold (services_in_scope car_id db).
  set (base := entries_in_scope car_id db).
  set (fuel := Sql.coalesce_sum (map FuelLog.fuel_amount base)).
  set (spent := Sql.coalesce_sum (map FuelLog.total_cost base)).
  rewrite (span_stats_aggregate _ _ fuel spent)
    by apply coalesce_real_aggregate.
  rewrite (litre_stats_aggregate fuel spent) by apply coalesce_real_aggregate.
  destruct (span_of _ _ fuel spent) as [[distance consumption] per_km].
  eexists. split; [reflexivity|]. by cbn.
Qed.

(** C10: when [DELETE /api/cars/<car>] has answered 200, the car is
    gone and the fuel and service rows that name it are all still
    stored. No entry of [GET /api/logs] or of [GET /api/services] names
    the car any more, whatever the filter: the listings join [cars].
    [GET /api/stats] never looks at [cars]: it answers, and its count,
    its two totals, its average price, its odometer extremes and its
    service breakdown are the aggregates over the stored rows in scope,
    which is every stored row without a filter and which holds every
    row that names the deleted car under a filter that selects the car.
    So a stored fuel row that names the deleted car is counted by the
    statistics and is the row of no entry of the listing, and the same
    for a service row. *)
Theorem deleted_car_entries `{Platform} car db :
  - 2 ^ 63 <= car < 2 ^ 63 ->
  let db' := (delete_car car db).1 in
  (delete_car car db).2 = Ok (JObj [("deleted", JInt car)], 200) /\
  (forall c, c ∈ cars db' -> Car.id c ≠ car) /\
  fuel_logs db' = fuel_logs db /\
  service_logs db' = service_logs db /\
  (forall car_id logs e,
      (get_logs car_id db').2 = Ok logs -> e ∈ logs ->
      FuelLog.car_id (row e) ≠ SInt car) /\
  (forall car_id category s,
      s ∈ (get_services car_id category db').2 ->
      ServiceLog.car_id (svc_row s) ≠ SInt car) /\
  (forall car_id,
      exists s,
        (get_stats car_id db').2 = Ok s /\
        total_entries s = Z.of_nat (length (entries_in_scope car_id db')) /\
        total_fuel s
          = Sql.coalesce_sum
              (map FuelLog.fuel_amount (entries_in_scope car_id db')) /\
        total_spent s
          = Sql.coalesce_sum
              (map FuelLog.total_cost (entries_in_scope car_id db')) /\
        avg_price_per_unit s
          = Sql.coalesce_avg
              (map FuelLog.price_per_unit (entries_in_scope car_id db')) /\
        first_odo s
          = Sql.min (omap FuelLog.odometer (entries_in_scope car_id db')) /\
        last_odo s
          = Sql.max (omap FuelLog.odometer (entries_in_scope car_id db')) /\
        service_breakdown s
          = select_breakdown (services_in_scope car_id db')) /\
  entries_in_scope None db' = fuel_logs db /\
  services_in_scope None db' = service_logs db /\
  (forall car_id fl,
      fl ∈ fuel_logs db -> FuelLog.car_id fl = SInt car ->
      (in_scope car_id (SInt car) -> fl ∈ entries_in_scope car_id db') /\
      (forall q logs e,
          (get_logs q db').2 = Ok logs -> e ∈ logs -> row e ≠ fl)) /\
  (forall car_id sl,
      sl ∈ service_logs db -> ServiceLog.car_id sl = SInt car ->
      (in_scope car_id (SInt car) -> sl ∈ services_in_scope car_id db') /\
      (forall q category s,
          s ∈ (get_services q category db').2 -> svc_row s ≠ sl)).
Proof.
  intros Hcar db'. subst db'. rewrite (delete_car_done car db Hcar).
  cbn [fst snd].
  set (db' := set_cars db _ _).
  assert (forall c, c ∈ cars db' -> Car.id c ≠ car) as Hgone.
  { intros c Hc. simpl in Hc. by apply list_elem_of_filter in Hc as [Hne _]. }
  assert (forall car_id logs e,
             (get_logs car_id db').2 = Ok logs -> e ∈ logs ->
             FuelLog.car_id (row e) ≠ SInt car) as Hlogs.
  { intros car_id logs e Hrun He.
    destruct (get_logs_stored_car _ _ _ _ Hrun He) as (c & Hc & ->).
    specialize (Hgone c Hc). congruence. }
  assert (forall car_id category s,
             s ∈ (get_services car_id category db').2 ->
             ServiceLog.car_id (svc_row s) ≠ SInt car) as Hsvc.
  { intros car_id category s Hs.
    destruct (get_services_stored_car _ _ _ _ Hs) as (c & Hc & ->).
    specialize (Hgone c Hc). congruence. }
  split; [done|]. split; [done|]. split; [done|]. split; [done|].
  split; [done|]. split; [done|].
  split; [intros car_id; apply get_stats_fields|].
  split; [apply (in_scope_all FuelLog.car_id)|].
  split; [apply (in_scope_all ServiceLog.car_id)|]. split.
  - intros car_id fl Hfl Hid. split.
    + intros Hscope. apply list_elem_of_filter. rewrite Hid. by split.
    + intros q logs e Hrun He Heq. apply (Hlogs q logs e Hrun He).
      by rewrite Heq.
  - intros car_id sl Hsl Hid. split.
    + intros Hscope. apply list_elem_of_filter. rewrite Hid. by split.
    + intros q category s Hs Heq. apply (Hsvc q category s Hs).
      by rewrite Heq.
Qed.

(** The only car of [Demo.db5] is deleted: its four fills are still
    stored, the statistics count all four, the listing is empty. *)
Lemma deleted_car_entries_witness :
  - 2 ^ 63 <= 1 < 2 ^ 63 /\
  (exists s,
      (@get_stats Demo.platform None (delete_car 1 Demo.db5).1).2 = Ok s /\
      total_entries s = 4) /\
  (exists fl,
      fl ∈ fuel_logs Demo.db5 /\ FuelLog.car_id fl = SInt 1 /\
      fl ∈ @entries_in_scope Demo.platform None (delete_car 1 Demo.db5).1 /\
      forall logs e,
        (@get_logs Demo.platform None (delete_car 1 Demo.db5).1).2 = Ok logs ->
        e ∈ logs -> row e ≠ fl) /\
  (@get_logs Demo.platform None (delete_car 1 Demo.db5).1).2 = Ok [].
Proof.
  assert (- 2 ^ 63 <= 1 < 2 ^ 63) as Hcar by lia.
  split; [exact Hcar|].
  destruct (@deleted_car_entries Demo.platform 1 Demo.db5 Hcar)
    as (_ & _ & _ & _ & _ & _ & Hstats & Hall & _ & Hfuel & _).
  split; [|split].
  - destruct (Hstats None) as (s & Hrun & Hcount & _).
    exists s. split; [exact Hrun|]. rewrite Hcount, Hall. reflexivity.
  - exists (row (Demo.fill 0)).
    assert (row (Demo.fill 0) ∈ fuel_logs Demo.db5) as Hfl.
    { apply (list_elem_of_lookup_2 _ 0%nat). vm_compute. reflexivity. }
    destruct (Hfuel None (row (Demo.fill 0)) Hfl eq_refl) as [Hin Hout].
    split; [exact Hfl|]. split; [reflexivity|].
    split; [by apply Hin | apply Hout].
  - vm_compute. reflexivity.
Defined.
(* ================================================================== *)
(** * Further properties of the handlers *)

(** ** Cars: listing, presence check, deletion *)

Lemma set_cars_same db : set_cars db (cars db) (cars_seq db) = db.
Proof. by destruct db. Qed.

Lemma set_fuel_logs_same db :
  set_fuel_logs db (fuel_logs db) (fuel_logs_seq db) = db.
Proof. by destruct db. Qed.

Lemma set_service_logs_same db :
  set_service_logs db (service_logs db) (service_logs_seq db) = db.
Proof. by destruct db. Qed.

(** Deleting by an id that no row carries keeps every row. *)
Lemma filter_absent {A : Type} (id : A -> Z) (k : Z) (rows : list A) :
  k ∉ map id rows -> filter (fun r => id r ≠ k) rows = rows.
Proof.
  induction rows as [|r rows IH]; simpl; [done|].
  intros Hk. rewrite filter_cons_True.
  - f_equal. apply IH. intros Hin. apply Hk. by right.
  - intros <-. apply Hk. by left.
Qed.

(** X1: [GET /api/cars] lists every stored car exactly once, by
    registration ascending, and leaves the database as it was. *)
Theorem get_cars_sorted db :
  (get_cars db).1 = db /\
  (get_cars db).2 ≡ₚ cars db /\
  StronglySorted (key_le Car.registration) (get_cars db).2.
Proof.
  split; [done|]. split; [apply sorted_perm | apply sorted_sorted].
Qed.

(** X2: [POST /api/cars] answers 400 exactly when [registration] or
    [description] is absent or falsy (null, the empty string, 0, false,
    an empty list or object), and then writes nothing. *)
Theorem add_car_requires_fields `{Platform} now data db :
  (Json.truthy (Json.get data "registration") = false \/
   Json.truthy (Json.get data "description") = false ->
   add_car now data db =
     (db, Ok (JObj [("error",
                     JStr "registration and description are required")],
              400))) /\
  (forall db' b, add_car now data db = (db', Ok (b, 400)) ->
     Json.truthy (Json.get data "registration") = false \/
     Json.truthy (Json.get data "description") = false).
Proof.
  split.
  - intros Hmiss. unfold add_car.
    destruct Hmiss as [-> | ->]; simpl; [done|].
    by rewrite orb_true_r.
  - intros db' b. unfold add_car.
    destruct (Json.truthy (Json.get data "registration")); [|by left].
    destruct (Json.truthy (Json.get data "description")); [|by right].
    simpl. destruct (_ ≫= _) as [reg|e]; [|discriminate].
    destruct (_ ≫= _) as [[db1 rowid]|[]]; discriminate.
Qed.

Lemma add_car_requires_fields_witness :
  @add_car Demo.platform "t0" (Demo.car_body "" "Test") init_db =
    (init_db,
     Ok (JObj [("error", JStr "registration and description are required")],
         400)).
Proof.
  apply (@add_car_requires_fields Demo.platform "t0"
           (Demo.car_body "" "Test") init_db).
  left. reflexivity.
Defined.

(** X3: a [registration] or [description] that is given and truthy but is
    not a string (a number, [true], a non-empty list or object) makes
    [POST /api/cars] raise AttributeError at [.strip()]; nothing is
    written. *)
Theorem add_car_not_text `{Platform} now data db :
  Json.truthy (Json.get data "registration") = true ->
  Json.truthy (Json.get data "description") = true ->
  (forall s, Json.get data "registration" ≠ JStr s) \/
  (forall s, Json.get data "description" ≠ JStr s) ->
  add_car now data db = (db, Raise AttributeError).
Proof.
  intros Hr Hd Hbad. unfold add_car. rewrite Hr, Hd. simpl.
  rewrite !get_item by done.
  destruct (Json.get data "registration") as [| | | |reg| |] eqn:Ereg;
    simpl; try done;
    destruct (Json.get data "description") as [| | | |desc| |] eqn:Edesc;
    simpl; try done.
  destruct Hbad as [Hbad|Hbad]; [by destruct (Hbad reg) | by destruct (Hbad desc)].
Qed.

Lemma add_car_not_text_witness :
  @add_car Demo.platform "t0"
    {[ "registration" := JInt 5; "description" := JStr "Test" ]}
    init_db = (init_db, Raise AttributeError).
Proof.
  apply (@add_car_not_text Demo.platform); [reflexivity | reflexivity |].
  left. intros s. vm_compute. discriminate.
Defined.

Lemma add_car_fresh `{Platform} now data db reg desc :
  data !! "registration" = Some (JStr reg) -> reg ≠ "" ->
  data !! "description" = Some (JStr desc) -> desc ≠ "" ->
  normalise reg ∉ map Car.registration (cars db) ->
  let rowid := Sql.autoincrement (cars_seq db) (map Car.id (cars db)) in
  add_car now data db =
    (set_cars db
       (cars db ++ [{| Car.id := rowid; Car.registration := normalise reg;
                       Car.description := Py.strip desc;
                       Car.created_at := now |}])
       rowid,
     Ok (JObj [("id", JInt rowid); ("registration", JStr (normalise reg))],
         201)).
Proof.
  intros Hr Hr0 Hd Hd0 Hin. unfold add_car, Json.get, Json.item.
  rewrite Hr, Hd. simpl.
  destruct (String.eqb_spec reg ""); [done|].
  destruct (String.eqb_spec desc ""); [done|]. simpl.
  unfold insert_car. by rewrite bool_decide_eq_false_2.
Qed.

Lemma add_car_given `{Platform} now data db db' b :
  add_car now data db = (db', Ok (b, 201)) ->
  exists reg desc,
    data !! "registration" = Some (JStr reg) /\ reg ≠ "" /\
    data !! "description" = Some (JStr desc) /\ desc ≠ "".
Proof.
  intros Hadd.
  destruct (add_car_created _ _ _ _ _ Hadd) as (reg & desc & Hr & Hd & _).
  exists reg, desc. unfold add_car, Json.get in Hadd.
  rewrite Hr, Hd in Hadd. simpl in Hadd.
  repeat split; try done.
  - intros ->. discriminate.
  - intros ->. destruct (String.eqb reg ""); discriminate.
Qed.

(** X4: the presence check of [POST /api/cars] runs before [.strip()]: a
    registration made of whitespace only passes it, and the car is
    stored, and reported in the 201, under the empty registration. *)
Theorem add_car_blank_registration `{Platform} now data db reg desc :
  data !! "registration" = Some (JStr reg) -> reg ≠ "" ->
  Py.strip reg = "" ->
  data !! "description" = Some (JStr desc) -> desc ≠ "" ->
  "" ∉ map Car.registration (cars db) ->
  exists rowid new,
    add_car now data db =
      (set_cars db (cars db ++ [new]) rowid,
       Ok (JObj [("id", JInt rowid); ("registration", JStr "")], 201)) /\
    Car.id new = rowid /\ Car.registration new = "".
Proof.
  intros Hr Hr0 Hblank Hd Hd0 Hin.
  assert (normalise reg = "") as Hn by (unfold normalise; by rewrite Hblank).
  pose proof (add_car_fresh now data db reg desc Hr Hr0 Hd Hd0) as Hadd.
  rewrite Hn in Hadd. specialize (Hadd Hin). simpl in Hadd.
  eexists _, _. split; [exact Hadd|]. done.
Qed.

Lemma add_car_blank_registration_witness :
  exists rowid new,
    @add_car Demo.platform "t0" (Demo.car_body "   " "Test") init_db =
      (set_cars init_db (cars init_db ++ [new]) rowid,
       Ok (JObj [("id", JInt rowid); ("registration", JStr "")], 201)) /\
    Car.id new = rowid /\ Car.registration new = "".
Proof.
  apply (@add_car_blank_registration Demo.platform "t0"
           (Demo.car_body "   " "Test") init_db "   " "Test");
    first [ discriminate | reflexivity | by apply not_elem_of_nil ].
Defined.

(** X5: [DELETE /api/cars/<id>] with an id that fits a signed 64-bit
    integer answers 200 with the id; it removes the cars of that id and
    no other, [GET /api/cars] lists no car of that id afterwards, a
    second deletion changes nothing more, and an id that no car carries
    leaves the database exactly as it was. An id that does not fit
    cannot be bound: OverflowError is raised and nothing changes. *)
Theorem delete_car_removes car_id db :
  (- 2 ^ 63 <= car_id < 2 ^ 63 ->
   (delete_car car_id db).2 = Ok (JObj [("deleted", JInt car_id)], 200) /\
   (forall c, c ∈ cars (delete_car car_id db).1 <->
              c ∈ cars db /\ Car.id c ≠ car_id) /\
   (forall c, c ∈ (get_cars (delete_car car_id db).1).2 ->
              Car.id c ≠ car_id) /\
   (delete_car car_id (delete_car car_id db).1).1
     = (delete_car car_id db).1 /\
   (car_id ∉ map Car.id (cars db) -> (delete_car car_id db).1 = db)) /\
  (¬ (- 2 ^ 63 <= car_id < 2 ^ 63) ->
   delete_car car_id db = (db, Raise OverflowError)).
Proof.
  split.
  - intros Hid. unfold delete_car. rewrite (where_id_range _ Hid).
    cbn [mbind result_bind commit fst snd].
    split; [done|]. split; [|split; [|split]].
    + intros c. simpl. rewrite list_elem_of_filter. tauto.
    + intros c. unfold get_cars. simpl. rewrite sorted_perm.
      by intros [? _]%list_elem_of_filter.
    + simpl. f_equal. apply list_filter_filter_l. done.
    + intros Habs. rewrite (filter_absent Car.id) by done.
      apply set_cars_same.
  - intros Hid. unfold delete_car. by rewrite (where_id_overflow _ Hid).
Qed.

Lemma delete_car_removes_witness :
  (delete_car 1 Demo.db1).2 = Ok (JObj [("deleted", JInt 1)], 200) /\
  (forall c, c ∈ cars (delete_car 1 Demo.db1).1 <->
             c ∈ cars Demo.db1 /\ Car.id c ≠ 1) /\
  (forall c, c ∈ (get_cars (delete_car 1 Demo.db1).1).2 -> Car.id c ≠ 1) /\
  (delete_car 1 (delete_car 1 Demo.db1).1).1 = (delete_car 1 Demo.db1).1 /\
  (1 ∉ map Car.id (cars Demo.db1) -> (delete_car 1 Demo.db1).1 = Demo.db1).
Proof. apply (proj1 (delete_car_removes 1 Demo.db1)). lia. Defined.

Example delete_car_only_car : cars (delete_car 1 Demo.db1).1 = [].
Proof. reflexivity. Qed.

Example delete_car_overflow :
  delete_car (2 ^ 63) Demo.db1 = (Demo.db1, Raise OverflowError).
Proof. reflexivity. Qed.

(** ** Writes: what a request can change *)

Lemma add_car_unchanged `{Platform} now data db db' r :
  add_car now data db = (db', r) -> (forall b, r ≠ Ok (b, 201)) -> db' = db.
Proof.
  unfold add_car.
  destruct (_ || _); [by intros [= <- _]|].
  destruct (_ ≫= _) as [reg|e]; [|by intros [= <- _]].
  destruct (_ ≫= _) as [[db1 rowid]|[]]; try by intros [= <- _].
  intros [= <- <-] Hr. by edestruct Hr.
Qed.

Lemma add_log_unchanged `{Platform} now data db db' r :
  add_log now data db = (db', r) -> (forall b, r ≠ Ok (b, 201)) -> db' = db.
Proof.
  destruct r as [[b status]|e]; intros Hadd Hr.
  - destruct (add_log_status _ _ _ _ _ _ Hadd) as [->|]; [|done].
    by destruct (Hr b).
  - unfold add_log in Hadd.
    destruct (first_missing _ _ data); [discriminate|].
    by apply commit_Raise in Hadd.
Qed.

Lemma add_service_unchanged `{Platform} now data db db' r :
  add_service now data db = (db', r) -> (forall b, r ≠ Ok (b, 201)) ->
  db' = db.
Proof.
  destruct r as [[b status]|e]; intros Hadd Hr.
  - destruct (add_service_status _ _ _ _ _ _ Hadd) as [->|(_ & -> & _)];
      [|done].
    by destruct (Hr b).
  - unfold add_service in Hadd.
    destruct (first_missing _ _ data); [discriminate|].
    by apply commit_Raise in Hadd.
Qed.

(** X6: a [POST] that is not answered 201 (a 400, a 409, an exception
    that escapes the handler) has written nothing: the database is
    exactly as it was. *)
Theorem failed_posts_write_nothing `{Platform} now data db :
  ((forall b, (add_car now data db).2 ≠ Ok (b, 201)) ->
   (add_car now data db).1 = db) /\
  ((forall b, (add_log now data db).2 ≠ Ok (b, 201)) ->
   (add_log now data db).1 = db) /\
  ((forall b, (add_service now data db).2 ≠ Ok (b, 201)) ->
   (add_service now data db).1 = db).
Proof.
  split; [|split]; intros Hr.
  - destruct (add_car now data db) as [db' r] eqn:E.
    by apply add_car_unchanged in E.
  - destruct (add_log now data db) as [db' r] eqn:E.
    by apply add_log_unchanged in E.
  - destruct (add_service now data db) as [db' r] eqn:E.
    by apply add_service_unchanged in E.
Qed.

Lemma failed_posts_write_nothing_witness :
  (@add_log Demo.platform "t1"
     (Demo.log_body 1 "2024-01-01" 0 20 None) Demo.db1).1 = Demo.db1.
Proof.
  apply (@failed_posts_write_nothing Demo.platform "t1"
           (Demo.log_body 1 "2024-01-01" 0 20 None) Demo.db1).
  intros b. vm_compute. discriminate.
Defined.

(** A request that changes the database is a [POST] answered 201 or a
    [DELETE] of an id that could be bound. *)
Lemma handle_cases `{Platform} req db :
  handle req db = db \/
  (exists now data b,
      req = AddCar now data /\
      add_car now data db = (handle req db, Ok (b, 201))) \/
  (exists now data b, add_log now data db = (handle req db, Ok (b, 201))) \/
  (exists now data b,
      add_service now data db = (handle req db, Ok (b, 201))) \/
  (exists k,
      handle req db
      = set_cars db (filter (fun c => Car.id c ≠ k) (cars db)) (cars_seq db))
  \/
  (exists k,
      handle req db
      = set_fuel_logs db (filter (fun l => FuelLog.id l ≠ k) (fuel_logs db))
          (fuel_logs_seq db)) \/
  (exists k,
      handle req db
      = set_service_logs db
          (filter (fun s => ServiceLog.id s ≠ k) (service_logs db))
          (service_logs_seq db)).
Proof.
  destruct req as [|now data|car_id|car_id|now data|log_id|car_id
                  |car_id category|now data|svc_id]; simpl;
    try (by left).
  - destruct (add_car now data db) as [db' r] eqn:E. simpl.
    destruct r as [[b status]|e].
    + destruct (decide (status = 201)) as [->|Hs].
      * right. left. by exists now, data, b.
      * left. apply (add_car_unchanged _ _ _ _ _ E). congruence.
    + left. by apply (add_car_unchanged _ _ _ _ _ E).
  - destruct (delete_car_cases (Z.of_N car_id) db) as [-> | ->];
      [|by left].
    do 4 right. left. by eexists.
  - destruct (add_log now data db) as [db' r] eqn:E. simpl.
    destruct r as [[b status]|e].
    + destruct (decide (status = 201)) as [->|Hs].
      * right. right. left. by exists now, data, b.
      * left. apply (add_log_unchanged _ _ _ _ _ E). congruence.
    + left. by apply (add_log_unchanged _ _ _ _ _ E).
  - destruct (delete_log_cases (Z.of_N log_id) db) as [-> | ->];
      [|by left].
    do 5 right. left. by eexists.
  - destruct (add_service now data db) as [db' r] eqn:E. simpl.
    destruct r as [[b status]|e].
    + destruct (decide (status = 201)) as [->|Hs].
      * do 3 right. left. by exists now, data, b.
      * left. apply (add_service_unchanged _ _ _ _ _ E). congruence.
    + left. by apply (add_service_unchanged _ _ _ _ _ E).
  - destruct (delete_service_cases (Z.of_N svc_id) db) as [-> | ->];
      [|by left].
    do 6 right. by eexists.
Qed.

(** ** Fuel logs and service logs: what a 201 has stored *)

Lemma add_log_frame `{Platform} now data db db' b :
  add_log now data db = (db', Ok (b, 201)) ->
  cars db' = cars db /\ cars_seq db' = cars_seq db /\
  service_logs db' = service_logs db /\
  service_logs_seq db' = service_logs_seq db.
Proof.
  intros E. apply add_log_inserted in E
    as (? & ? & ? & ? & ? & ? & ? & ? & ? & ? & E).
  decompose [and] E. by subst.
Qed.

Lemma add_service_frame `{Platform} now data db db' b :
  add_service now data db = (db', Ok (b, 201)) ->
  cars db' = cars db /\ cars_seq db' = cars_seq db /\
  fuel_logs db' = fuel_logs db /\ fuel_logs_seq db' = fuel_logs_seq db.
Proof.
  intros E. apply add_service_inserted in E
    as (? & ? & ? & ? & ? & ? & ? & ? & ? & ? & ? & E).
  decompose [and] E. by subst.
Qed.

Lemma add_car_frame `{Platform} now data db db' b :
  add_car now data db = (db', Ok (b, 201)) ->
  fuel_logs db' = fuel_logs db /\ fuel_logs_seq db' = fuel_logs_seq db /\
  service_logs db' = service_logs db /\
  service_logs_seq db' = service_logs_seq db.
Proof.
  intros E. apply add_car_created in E as (? & ? & _ & _ & _ & _ & ->). done.
Qed.

(** ** Cars: what every request keeps true of the table *)

Lemma lstrip_upper s :
  Py.lstrip (Py.upper_ascii s) = Py.upper_ascii (Py.lstrip s).
Proof.
  induction s as [|c s IH]; simpl; [done|].
  rewrite isspace_upper_char. by destruct (Py.isspace c).
Qed.

Lemma rstrip_upper s :
  Py.rstrip (Py.upper_ascii s) = Py.upper_ascii (Py.rstrip s).
Proof.
  induction s as [|c s IH]; simpl; [done|].
  rewrite IH, isspace_upper_char.
  destruct (Py.rstrip s); simpl; [by destruct (Py.isspace c) | done].
Qed.

Lemma rstrip_idemp s : Py.rstrip (Py.rstrip s) = Py.rstrip s.
Proof.
  induction s as [|c s IH]; simpl; [done|].
  destruct (Py.rstrip s) as [|c' t] eqn:E.
  - destruct (Py.isspace c) eqn:Ec; simpl; [done|]. by rewrite Ec.
  - change (Py.rstrip (String c (String c' t))) with
      (match Py.rstrip (String c' t) with
       | EmptyString =>
           if Py.isspace c then EmptyString else String c EmptyString
       | u => String c u
       end).
    by rewrite IH.
Qed.

Lemma strip_idemp s :
  Py.rstrip (Py.lstrip (Py.rstrip (Py.lstrip s))) = Py.rstrip (Py.lstrip s).
Proof.
  destruct (Py.rstrip (Py.lstrip s)) as [|c t] eqn:E; [done|].
  assert (Py.isspace c = false) as Hc.
  { destruct (rstrip_first _ _ _ E) as [t' Ht'].
    by apply lstrip_first in Ht'. }
  change (Py.lstrip (String c t)) with
    (if Py.isspace c then Py.lstrip t else String c t).
  rewrite Hc, <- E. apply rstrip_idemp.
Qed.

(** On ASCII text [.strip()] and [.strip().upper()] give ASCII text that
    they leave as it is. *)
Lemma strip_fixed `{Platform} s :
  Py.isascii s = true ->
  Py.isascii (Py.strip s) = true /\ Py.strip (Py.strip s) = Py.strip s.
Proof.
  intros Hs. rewrite (strip_ascii s Hs).
  assert (Py.isascii (Py.rstrip (Py.lstrip s)) = true) as Ht
    by by apply isascii_rstrip, isascii_lstrip.
  split; [done|]. rewrite (strip_ascii _ Ht). apply strip_idemp.
Qed.

Lemma normalise_fixed `{Platform} s :
  Py.isascii s = true ->
  Py.isascii (normalise s) = true /\ normalise (normalise s) = normalise s.
Proof.
  intros Hs. unfold normalise. rewrite (normalise_ascii s Hs).
  assert (Py.isascii (Py.upper_ascii (Py.rstrip (Py.lstrip s))) = true) as Hu.
  { rewrite isascii_upper. by apply isascii_rstrip, isascii_lstrip. }
  split; [done|]. rewrite (normalise_ascii _ Hu).
  by rewrite lstrip_upper, rstrip_upper, strip_idemp, upper_idemp.
Qed.

Lemma elem_of_map_filter {A B : Type} (f : A -> B) (P : A -> Prop)
    `{!∀ x, Decision (P x)} (l : list A) y :
  y ∈ map f (filter P l) -> y ∈ map f l.
Proof.
  intros (x & -> & [_ Hx]%list_elem_of_filter)%list_elem_of_fmap.
  apply list_elem_of_fmap. by exists x.
Qed.

Lemma NoDup_map_filter {A B : Type} (f : A -> B) (P : A -> Prop)
    `{!∀ x, Decision (P x)} (l : list A) :
  NoDup (map f l) -> NoDup (map f (filter P l)).
Proof.
  induction l as [|x l IH]; simpl; [done|].
  intros [Hx Hl]%NoDup_cons. destruct (decide (P x)).
  - rewrite filter_cons_True by done. simpl. apply NoDup_cons.
    split; [|auto]. intros Hin. apply Hx. by eapply elem_of_map_filter.
  - rewrite filter_cons_False by done. auto.
Qed.

Lemma Forall_filter_sub {A : Type} (Q P : A -> Prop)
    `{!∀ x, Decision (P x)} (l : list A) :
  Forall Q l -> Forall Q (filter P l).
Proof.
  rewrite !Forall_forall. intros Hl x [_ Hx]%list_elem_of_filter. auto.
Qed.

Lemma handle_cars_distinct `{Platform} req db :
  NoDup (map Car.registration (cars db)) ->
  NoDup (map Car.registration (cars (handle req db))).
Proof.
  intros Hnd.
  destruct (handle_cases req db)
    as [->|[(now & data & b & _ & E)|[(now & data & b & E)
       |[(now & data & b & E)|[[k ->]|[[k ->]|[k ->]]]]]]]; try done.
  - apply add_car_created in E as (reg & desc & _ & _ & Hnew & _ & ->).
    simpl. rewrite map_app. simpl. apply NoDup_app. split; [done|].
    split; [|apply NoDup_singleton].
    intros r Hr Hr'%list_elem_of_singleton. by subst.
  - apply add_log_frame in E as (Hc & _). by rewrite Hc.
  - apply add_service_frame in E as (Hc & _). by rewrite Hc.
  - simpl. by apply NoDup_map_filter.
Qed.

Lemma handle_cars_normalised `{Platform} req db :
  ascii_request req -> cars_normalised db -> cars_normalised (handle req db).
Proof.
  intros Hreq Hall. unfold cars_normalised in *.
  destruct (handle_cases req db)
    as [->|[(now & data & b & -> & E)|[(now & data & b & E)
       |[(now & data & b & E)|[[k ->]|[[k ->]|[k ->]]]]]]]; try done.
  - apply add_car_created in E as (reg & desc & Hr & Hd & _ & _ & Hdb).
    rewrite Hdb. simpl in *.
    assert (Py.isascii reg = true) as Hreg.
    { apply Hreq. left. unfold Json.get. by rewrite Hr. }
    assert (Py.isascii desc = true) as Hdesc.
    { apply Hreq. right. unfold Json.get. by rewrite Hd. }
    apply Forall_app. split; [done|]. constructor; [|constructor]. simpl.
    destruct (normalise_fixed reg Hreg) as [Hn1 Hn2].
    destruct (strip_fixed desc Hdesc) as [Hs1 Hs2]. done.
  - apply add_log_frame in E as (Hc & _). by rewrite Hc.
  - apply add_service_frame in E as (Hc & _). by rewrite Hc.
  - simpl. by apply Forall_filter_sub.
Qed.

(** X7: whatever requests are served, the registrations of the stored
    cars stay pairwise distinct. When every car comes in with ASCII text
    for its registration and its description, the stored cars stay in
    normal form as well: ASCII text, the registration unchanged by
    another [.strip().upper()], the description by another
    [.strip()]. *)
Theorem cars_stay_normalised `{Platform} reqs db :
  (NoDup (map Car.registration (cars db)) ->
   NoDup (map Car.registration (cars (serve reqs db)))) /\
  (Forall ascii_request reqs -> cars_normalised db ->
   cars_normalised (serve reqs db)).
Proof.
  split.
  - revert db. induction reqs as [|req reqs IH]; intros db Hdb; [done|].
    apply (IH (handle req db)). by apply handle_cars_distinct.
  - intros Hreqs. revert db.
    induction Hreqs as [|req reqs Hreq _ IH]; intros db Hdb; [done|].
    apply (IH (handle req db)). by apply handle_cars_normalised.
Qed.

Lemma cars_stay_normalised_witness :
  NoDup
    (map Car.registration
       (cars
          (@serve Demo.platform
             [AddCar "t0" (Demo.car_body " cf 12 ab " " Test ");
              AddCar "t1" (Demo.car_body "CF 12 AB" "again");
              AddCar "t2" (Demo.car_body "xy 1" "Other"); DeleteCar 1]
             init_db))) /\
  @cars_normalised Demo.platform
    (@serve Demo.platform
       [AddCar "t0" (Demo.car_body " cf 12 ab " " Test ");
        AddCar "t1" (Demo.car_body "CF 12 AB" "again");
        AddCar "t2" (Demo.car_body "xy 1" "Other"); DeleteCar 1]
       init_db).
Proof.
  split.
  - apply (@cars_stay_normalised Demo.platform). apply NoDup_nil_2.
  - apply (@cars_stay_normalised Demo.platform).
    + repeat constructor; intros s; vm_compute;
        intros [[= <-]|[= <-]]; reflexivity.
    + constructor.
Defined.

(** ** Primary keys *)

Lemma keyed_insert {A : Type} (id : A -> Z) rows seq new :
  keyed id rows seq ->
  id new = Sql.autoincrement seq (map id rows) ->
  keyed id (rows ++ [new]) (id new).
Proof.
  intros (Hseq & Hnd & Hall) Hnew.
  destruct (autoincrement_fresh seq (map id rows)) as [Hlt Hfresh].
  rewrite <- Hnew in Hlt, Hfresh. rewrite Forall_forall in Hfresh.
  split; [lia|]. split.
  - rewrite map_app. simpl. apply NoDup_app. split; [done|].
    split; [|apply NoDup_singleton].
    intros i Hi Hi'%list_elem_of_singleton. specialize (Hfresh _ Hi). lia.
  - apply Forall_app. split.
    + eapply Forall_impl; [exact Hall|]. simpl. lia.
    + constructor; [lia | constructor].
Qed.

Lemma keyed_delete {A : Type} (id : A -> Z) rows seq k :
  keyed id rows seq -> keyed id (filter (fun r => id r ≠ k) rows) seq.
Proof.
  intros (Hseq & Hnd & Hall). split; [done|].
  split; [by apply NoDup_map_filter | by apply Forall_filter_sub].
Qed.

Lemma keyed_step {A : Type} (id : A -> Z) rows seq rows' seq' :
  keyed id rows seq -> table_step id rows seq rows' seq' ->
  keyed id rows' seq'.
Proof.
  intros Hk [|new Hnew|k];
    [done | by apply (keyed_insert id rows seq) | by apply keyed_delete].
Qed.

Lemma extends_step {A : Type} (id : A -> Z) rows seq rows' seq' :
  table_step id rows seq rows' seq' -> extends id rows seq rows' seq'.
Proof.
  intros [|new Hnew|k].
  - split; [lia | by left].
  - destruct (autoincrement_fresh seq (map id rows)) as [Hlt _].
    rewrite <- Hnew in Hlt. split; [lia|].
    intros r [Hr|Hr%list_elem_of_singleton]%elem_of_app;
      [by left | subst; by right].
  - split; [lia|]. intros r [_ Hr]%list_elem_of_filter. by left.
Qed.

Lemma extends_trans {A : Type} (id : A -> Z) r0 s0 r1 s1 r2 s2 :
  extends id r0 s0 r1 s1 -> extends id r1 s1 r2 s2 ->
  extends id r0 s0 r2 s2.
Proof.
  intros [Hs1 H1] [Hs2 H2]. split; [lia|].
  intros r Hr. destruct (H2 r Hr) as [Hr1|Hgt]; [|right; lia].
  apply H1, Hr1.
Qed.

Lemma NoDup_map_eq {A : Type} (id : A -> Z) (rows : list A) r r' :
  NoDup (map id rows) -> r ∈ rows -> r' ∈ rows -> id r' = id r -> r' = r.
Proof.
  induction rows as [|x rows IH]; simpl; [by intros _ ?%not_elem_of_nil|].
  intros [Hx Hnd]%NoDup_cons [->|Hr]%elem_of_cons [->|Hr']%elem_of_cons Hid;
    auto.
  - destruct Hx. rewrite <- Hid. apply list_elem_of_fmap. by exists r'.
  - destruct Hx. rewrite Hid. apply list_elem_of_fmap. by exists r.
Qed.

Lemma extends_append_only {A : Type} (id : A -> Z) rows seq rows' seq' :
  keyed id rows seq -> extends id rows seq rows' seq' ->
  append_only id rows rows'.
Proof.
  intros (Hseq & Hnd & Hall) [_ Hext]. rewrite Forall_forall in Hall.
  split.
  - intros r r' Hr Hr' Hid.
    destruct (Hext r' Hr') as [Hold|Hgt].
    + by apply (NoDup_map_eq id rows).
    + specialize (Hall r Hr). lia.
  - intros r r' Hr Hr' Hnew.
    destruct (Hext r' Hr') as [Hold|Hgt]; [done|].
    specialize (Hall r Hr). lia.
Qed.

(** Every request takes each table one step: nothing, one insert under
    a fresh id, or the deletion of one id. *)
Lemma handle_steps `{Platform} req db :
  table_step Car.id (cars db) (cars_seq db)
    (cars (handle req db)) (cars_seq (handle req db)) /\
  table_step FuelLog.id (fuel_logs db) (fuel_logs_seq db)
    (fuel_logs (handle req db)) (fuel_logs_seq (handle req db)) /\
  table_step ServiceLog.id (service_logs db) (service_logs_seq db)
    (service_logs (handle req db)) (service_logs_seq (handle req db)).
Proof.
  destruct (handle_cases req db)
    as [->|[(now & data & b & _ & E)|[(now & data & b & E)
       |[(now & data & b & E)|[[k ->]|[[k ->]|[k ->]]]]]]];
    try (repeat split; constructor).
  - pose proof (add_car_frame _ _ _ _ _ E) as (-> & -> & -> & ->).
    split; [|split; constructor].
    apply add_car_created in E as (reg & desc & _ & _ & _ & _ & ->). simpl.
    by apply (step_insert Car.id _ _ (Car.Build_row _ _ _ _)).
  - pose proof (add_log_frame _ _ _ _ _ E) as (-> & -> & -> & ->).
    split; [constructor|]. split; [|constructor].
    apply add_log_inserted in E
      as (? & ? & ? & ? & ? & ? & ? & ? & ? & rowid & E).
    decompose [and] E. subst.
    match goal with Hh : handle req db = _ |- _ => rewrite Hh end. simpl.
    by apply (step_insert FuelLog.id _ _
                (FuelLog.Build_row _ _ _ _ _ _ _ _ _ _)).
  - pose proof (add_service_frame _ _ _ _ _ E) as (-> & -> & -> & ->).
    split; [constructor|]. split; [constructor|].
    apply add_service_inserted in E
      as (? & ? & ? & ? & ? & ? & ? & ? & ? & ? & rowid & E).
    decompose [and] E. subst.
    match goal with Hh : handle req db = _ |- _ => rewrite Hh end. simpl.
    by apply (step_insert ServiceLog.id _ _
                (ServiceLog.Build_row _ _ _ _ _ _ _ _ _ _ _)).
Qed.

Lemma handle_keys `{Platform} req db :
  keys_consistent db -> keys_consistent (handle req db).
Proof.
  intros (Hc & Hf & Hs). destruct (handle_steps req db) as (Sc & Sf & Ss).
  split; [|split]; by eapply keyed_step.
Qed.

(** X8: whatever requests are served, in each of the three tables the
    ids stay pairwise distinct, positive, and at most the AUTOINCREMENT
    counter of the table. *)
Theorem keys_stay_consistent `{Platform} reqs db :
  keys_consistent db -> keys_consistent (serve reqs db).
Proof.
  revert db. induction reqs as [|req reqs IH]; intros db Hdb; [done|].
  apply (IH (handle req db)). by apply handle_keys.
Qed.

Lemma keys_stay_consistent_witness :
  keys_consistent
    (@serve Demo.platform
       [AddCar "t0" (Demo.car_body "cf 12 ab" "Test");
        AddLog "t1" (Demo.log_body 1 "2024-01-01" 35 20 (Some 1000%float));
        DeleteLog 1;
        AddLog "t2" (Demo.log_body 1 "2024-01-08" 40 21.5 (Some 1200%float))]
       init_db).
Proof.
  apply (@keys_stay_consistent Demo.platform).
  repeat split; simpl; first [ lia | constructor ].
Defined.

Lemma serve_extends `{Platform} reqs :
  forall db,
    extends Car.id (cars db) (cars_seq db)
      (cars (serve reqs db)) (cars_seq (serve reqs db)) /\
    extends FuelLog.id (fuel_logs db) (fuel_logs_seq db)
      (fuel_logs (serve reqs db)) (fuel_logs_seq (serve reqs db)) /\
    extends ServiceLog.id (service_logs db) (service_logs_seq db)
      (service_logs (serve reqs db)) (service_logs_seq (serve reqs db)).
Proof.
  induction reqs as [|req reqs IH]; intros db.
  - repeat split; simpl; first [ lia | intros; by left ].
  - destruct (handle_steps req db) as (Sc & Sf & Ss).
    destruct (IH (handle req db)) as (Ec & Ef & Es).
    apply extends_step in Sc, Sf, Ss.
    split; [|split]; by eapply extends_trans.
Qed.

(** X9: no request updates a stored row or hands out a used id again.
    Whatever requests are served, a row found afterwards under the id of
    a row from before is that very row, and a row that was not there
    before has an id above every id the table held before; this holds
    for cars, fuel entries and service entries. *)
Theorem stored_rows_never_change `{Platform} reqs db :
  keys_consistent db ->
  append_only Car.id (cars db) (cars (serve reqs db)) /\
  append_only FuelLog.id (fuel_logs db) (fuel_logs (serve reqs db)) /\
  append_only ServiceLog.id (service_logs db) (service_logs (serve reqs db)).
Proof.
  intros (Hc & Hf & Hs). destruct (serve_extends reqs db) as (Ec & Ef & Es).
  split; [|split]; by eapply extends_append_only.
Qed.

Lemma stored_rows_never_change_witness :
  append_only FuelLog.id (fuel_logs Demo.db3)
    (fuel_logs
       (@serve Demo.platform
          [DeleteLog 1;
           AddLog "t3" (Demo.log_body 1 "2024-01-05" 10 20 None)]
          Demo.db3)).
Proof.
  apply (@stored_rows_never_change Demo.platform).
  repeat split; simpl; try lia; repeat constructor; try lia;
    rewrite ?elem_of_cons, ?elem_of_nil; intuition discriminate.
Defined.

(** ** What the stored rows satisfy *)

Lemma handle_fuel_rows `{Platform} req db :
  Forall fuel_row_consistent (fuel_logs db) ->
  Forall fuel_row_consistent (fuel_logs (handle req db)).
Proof.
  intros Hall.
  destruct (handle_cases req db)
    as [->|[(now & data & b & _ & E)|[(now & data & b & E)
       |[(now & data & b & E)|[[k ->]|[[k ->]|[k ->]]]]]]]; try done.
  - by apply add_car_frame in E as (-> & _).
  - apply add_log_inserted in E
      as (amount & price & odo & p_car & ? & ? & ? & ? & ? & rowid & E).
    decompose [and] E.
    match goal with Hh : handle req db = _ |- _ => rewrite Hh end. simpl.
    apply Forall_app. split; [done|]. constructor; [|constructor].
    unfold fuel_row_consistent. simpl.
    split; [by apply stored_total_cost|].
    split; [by apply real_column_not_nan|].
    split; [by apply real_column_not_nan|].
    split; [by apply real_column_not_nan|]. split; [|done].
    intros o Ho. destruct odo as [o'|]; simpl in Ho; [|done].
    apply real_bind_float in Ho as [-> ?]. by apply real_column_not_nan.
  - by apply add_service_frame in E as (_ & _ & -> & _).
  - simpl. by apply Forall_filter_sub.
Qed.

(** X10: whatever requests are served, every stored fuel entry keeps
    [total_cost == round(fuel_amount * price_per_unit, 2)] over its own
    stored factors, as numbers (a REAL column keeps no sign on a zero,
    so the two may differ in the sign of a zero and in nothing else),
    none of its REAL columns is NaN, and its [car_id] is not NULL. *)
Theorem fuel_rows_stay_consistent `{Platform} reqs db :
  Forall fuel_row_consistent (fuel_logs db) ->
  Forall fuel_row_consistent (fuel_logs (serve reqs db)).
Proof.
  revert db. induction reqs as [|req reqs IH]; intros db Hdb; [done|].
  apply (IH (handle req db)). by apply handle_fuel_rows.
Qed.

Lemma fuel_rows_stay_consistent_witness :
  Forall fuel_row_consistent
    (fuel_logs
       (@serve Demo.platform
          [AddCar "t0" (Demo.car_body "cf 12 ab" "Test");
           AddLog "t1" (Demo.log_body 1 "2024-01-01" 35 20 (Some 1000%float));
           AddLog "t2" (Demo.log_body 1 "2024-01-08" 40 21.5 None);
           AddLog "t3" (Demo.log_body 1 "2024-01-09" (-0.0009765625) 1 None)]
          init_db)).
Proof.
  apply (@fuel_rows_stay_consistent Demo.platform). constructor.
Defined.

Lemma handle_service_rows `{Platform} req db :
  Forall service_row_consistent (service_logs db) ->
  Forall service_row_consistent (service_logs (handle req db)).
Proof.
  intros Hall.
  destruct (handle_cases req db)
    as [->|[(now & data & b & _ & E)|[(now & data & b & E)
       |[(now & data & b & E)|[[k ->]|[[k ->]|[k ->]]]]]]]; try done.
  - by apply add_car_frame in E as (_ & _ & -> & _).
  - by apply add_log_frame in E as (_ & _ & -> & _).
  - apply add_service_inserted in E
      as (cat & cost & ? & ? & p_car & ? & ? & ? & ? & ? & rowid & E).
    decompose [and] E.
    match goal with Hh : handle req db = _ |- _ => rewrite Hh end. simpl.
    apply Forall_app. split; [done|]. constructor; [|constructor].
    unfold service_row_consistent. simpl.
    split; [done|]. split; [by apply real_column_not_nan | done].
  - simpl. by apply Forall_filter_sub.
Qed.

(** X11: whatever requests are served, every stored service entry has a
    category of the fixed set, a cost that is not NaN and a [car_id]
    that is not NULL. *)
Theorem service_rows_stay_consistent `{Platform} reqs db :
  Forall service_row_consistent (service_logs db) ->
  Forall service_row_consistent (service_logs (serve reqs db)).
Proof.
  revert db. induction reqs as [|req reqs IH]; intros db Hdb; [done|].
  apply (IH (handle req db)). by apply handle_service_rows.
Qed.

Lemma service_rows_stay_consistent_witness :
  Forall service_row_consistent
    (service_logs
       (@serve Demo.platform
          [AddService "t5" (Demo.service_body 1 "tyres" "2024-01-10" (JInt 0));
           AddService "t6" (Demo.service_body 1 "Tyres" "2024-01-11" (JInt 5))]
          init_db)).
Proof.
  apply (@service_rows_stay_consistent Demo.platform). constructor.
Defined.

(** X12: a registration is free again once its car was deleted: the
    same body is accepted a second time after [DELETE /api/cars/<id>],
    and the car comes back under a larger id. (The id the car got is
    taken to fit a signed 64-bit integer, as every id SQLite hands out
    does; the deletion could not bind another.) *)
Theorem add_car_after_delete `{Platform} now data db db1 b now' :
  add_car now data db = (db1, Ok (b, 201)) ->
  - 2 ^ 63 <= Sql.autoincrement (cars_seq db) (map Car.id (cars db)) < 2 ^ 63 ->
  exists reg id1 id2 db2,
    b = JObj [("id", JInt id1); ("registration", JStr reg)] /\
    add_car now' data (delete_car id1 db1).1 =
      (db2, Ok (JObj [("id", JInt id2); ("registration", JStr reg)], 201)) /\
    id1 < id2.
Proof.
  intros Hadd Hid.
  destruct (add_car_given _ _ _ _ _ Hadd) as (reg & desc & Hr & Hr0 & Hd & Hd0).
  destruct (add_car_created _ _ _ _ _ Hadd)
    as (reg' & desc' & Hr' & Hd' & Hfree & -> & Hdb1).
  assert (reg' = reg) as -> by congruence.
  set (id1 := Sql.autoincrement (cars_seq db) (map Car.id (cars db))) in *.
  assert ((delete_car id1 db1).1
          = set_cars db1 (filter (fun c => Car.id c ≠ id1) (cars db1))
              (cars_seq db1)) as Hdel.
  { unfold delete_car. by rewrite (where_id_range _ Hid). }
  pose proof (add_car_fresh now' data (delete_car id1 db1).1 reg desc
                Hr Hr0 Hd Hd0) as Hagain.
  eexists (normalise reg), id1, _, _. split; [reflexivity|].
  split; [apply Hagain|].
  - rewrite Hdel, Hdb1. simpl. intros Hin.
    apply list_elem_of_fmap in Hin as (c & Hc & Hin).
    apply list_elem_of_filter in Hin as [Hne Hin].
    apply elem_of_app in Hin as [Hin|Hin%list_elem_of_singleton].
    + apply Hfree. apply list_elem_of_fmap. by exists c.
    + subst c. by simpl in Hne.
  - rewrite Hdel, Hdb1. simpl. apply (autoincrement_fresh id1).
Qed.

Lemma add_car_after_delete_witness :
  exists reg id1 id2 db2,
    JObj [("id", JInt 1); ("registration", JStr "CF 12 AB")]
      = JObj [("id", JInt id1); ("registration", JStr reg)] /\
    @add_car Demo.platform "t9" (Demo.car_body "cf 12 ab" "Test")
      (delete_car id1 Demo.db1).1 =
      (db2, Ok (JObj [("id", JInt id2); ("registration", JStr reg)], 201)) /\
    id1 < id2.
Proof.
  apply (@add_car_after_delete Demo.platform "t0"
           (Demo.car_body "cf 12 ab" "Test") init_db).
  - vm_compute. reflexivity.
  - vm_compute. split; [discriminate | reflexivity].
Defined.

(** ** Fuel logs: the presence check and the optional fields *)

Lemma first_missing_at present pre k post data :
  Forall (fun f => present (Json.get data f) = true) pre ->
  present (Json.get data k) = false ->
  first_missing present (pre ++ k :: post) data = Some k.
Proof.
  induction 1 as [|f pre Hf _ IH]; simpl; intros Hk.
  - by rewrite Hk.
  - rewrite Hf. auto.
Qed.

(** X13: [POST /api/logs] answers 400 naming the first of [car_id],
    [logged_at], [fuel_amount], [fuel_unit], [price_per_unit] that is
    absent or falsy (so a [fuel_amount] or [price_per_unit] of 0 counts
    as missing) and writes nothing; and it answers 400 in no other
    case. *)
Theorem add_log_missing_field `{Platform} now data db :
  (forall pre k post,
      required_log_fields = pre ++ k :: post ->
      Forall (fun f => Json.truthy (Json.get data f) = true) pre ->
      Json.truthy (Json.get data k) = false ->
      add_log now data db =
        (db, Ok (JObj [("error", JStr ("Missing field: " +:+ k))], 400))) /\
  (forall db' b,
      add_log now data db = (db', Ok (b, 400)) ->
      exists k, k ∈ required_log_fields /\
                Json.truthy (Json.get data k) = false).
Proof.
  split.
  - intros pre k post Hfields Hpre Hk. unfold add_log.
    change ["car_id"; "logged_at"; "fuel_amount"; "fuel_unit";
            "price_per_unit"] with required_log_fields.
    rewrite Hfields. by rewrite first_missing_at.
  - intros db' b. unfold add_log.
    change ["car_id"; "logged_at"; "fuel_amount"; "fuel_unit";
            "price_per_unit"] with required_log_fields.
    destruct (first_missing _ _ data) as [k|] eqn:Hmiss.
    + intros _. exists k. by apply first_missing_Some in Hmiss.
    + intros Hrun%commit_Ok.
      repeat (let a := fresh "a" in let Ha := fresh "Ha" in
              apply bind_Ok in Hrun as (a & Ha & Hrun)).
      destruct a7. discriminate.
Qed.

Lemma add_log_missing_field_witness :
  @add_log Demo.platform "t1" (Demo.log_body 1 "2024-01-01" 0 20 None)
    Demo.db1 =
    (Demo.db1,
     Ok (JObj [("error", JStr ("Missing field: " +:+ "fuel_amount"))], 400)).
Proof.
  apply (proj1 (@add_log_missing_field Demo.platform "t1"
                  (Demo.log_body 1 "2024-01-01" 0 20 None) Demo.db1)
           ["car_id"; "logged_at"] "fuel_amount"
           ["fuel_unit"; "price_per_unit"]).
  - reflexivity.
  - by repeat constructor.
  - reflexivity.
Defined.

Lemma optional_float_falsy `{Platform} data k o :
  Json.truthy (Json.get data k) = false ->
  optional_float data k = Ok o -> o = None.
Proof. unfold optional_float. intros ->. by intros [= <-]. Qed.

Lemma optional_float_truthy `{Platform} data k o :
  Json.truthy (Json.get data k) = true ->
  optional_float data k = Ok o ->
  exists f, Json.float (Json.get data k) = Ok f /\ o = Some f.
Proof.
  unfold optional_float. intros Ht. rewrite Ht, get_item by done. simpl.
  destruct (Json.float (Json.get data k)) as [f|]; simpl; [|done].
  intros [= <-]. by exists f.
Qed.

(** X14: in the row a successful [POST /api/logs] stores, a falsy
    [odometer] (absent, null, 0, the empty string) is stored as NULL; a
    truthy one goes through [float()], and the column then holds what
    SQLite keeps of that float: NULL for a NaN, [0.0] for a negative
    zero, the float itself otherwise. [notes] left out is stored as the
    empty string, an explicit null as NULL, a string as it is. *)
Theorem add_log_optional_fields `{Platform} now data db db' b :
  add_log now data db = (db', Ok (b, 201)) ->
  exists new,
    fuel_logs db' = fuel_logs db ++ [new] /\
    (Json.truthy (Json.get data "odometer") = false ->
     FuelLog.odometer new = None) /\
    (Json.truthy (Json.get data "odometer") = true ->
     exists f, Json.float (Json.get data "odometer") = Ok f /\
               FuelLog.odometer new
                 = (if PrimFloat.is_nan f then None
                    else Some (Sql.real_column f)) /\
               (PrimFloat.is_nan f = false ->
                PrimFloat.eqb f 0%float = false ->
                FuelLog.odometer new = Some f)) /\
    (data !! "notes" = None -> FuelLog.notes new = Some "") /\
    (data !! "notes" = Some JNull -> FuelLog.notes new = None) /\
    (forall s, data !! "notes" = Some (JStr s) -> FuelLog.notes new = Some s).
Proof.
  intros E. apply add_log_inserted in E
    as (amount & price & odo & p_car & p_at & p_unit & p_notes & c_at
        & c_unit & rowid & E).
  destruct E as (_ & _ & _ & Hodo & _ & _ & _ & Hnotes & _ & _ & _ & _ & _
                 & _ & _ & -> & _).
  eexists. split; [reflexivity|]. simpl. split; [|split; [|split; [|split]]].
  - intros Hf. by rewrite (optional_float_falsy _ _ _ Hf Hodo).
  - intros Ht.
    destruct (optional_float_truthy _ _ _ Ht Hodo) as (f & Hf & ->).
    exists f. split; [done|]. simpl. unfold Sql.bind_float.
    destruct (PrimFloat.is_nan f); simpl; [done|].
    split; [done|]. intros _ Hz. by rewrite real_column_nonzero.
  - intros Hn. unfold Json.get_or in Hnotes. rewrite Hn in Hnotes.
    by injection Hnotes as <-.
  - intros Hn. unfold Json.get_or in Hnotes. rewrite Hn in Hnotes.
    by injection Hnotes as <-.
  - intros s Hn. unfold Json.get_or in Hnotes. rewrite Hn in Hnotes.
    by injection Hnotes as <-.
Qed.

Lemma add_log_optional_fields_witness :
  exists new,
    fuel_logs Demo.db5 = fuel_logs Demo.db4 ++ [new] /\
    FuelLog.odometer new = Some 900%float /\
    FuelLog.notes new = Some "".
Proof.
  destruct (@add_log_optional_fields Demo.platform "t4"
              (Demo.log_body 1 "2024-01-09" 12 20 (Some 900%float))
              Demo.db4 Demo.db5
              (JObj [("id", JInt 4); ("total_cost", JFloat 240)]))
    as (new & Hnew & _ & Hodo & Hnotes & _); [vm_compute; reflexivity|].
  exists new. split; [exact Hnew|]. split.
  - destruct Hodo as (f & Hf & _ & Hsome); [reflexivity|].
    vm_compute in Hf. injection Hf as <-. by apply Hsome.
  - by apply Hnotes.
Defined.

(** A NaN as odometer is truthy and stored as NULL. *)
Example odometer_nan :
  FuelLog.odometer
    <$> last (fuel_logs
                (@add_log Demo.platform "t9"
                   (Demo.log_body 1 "2024-02-01" 30 20 (Some nan))
                   Demo.db1).1)
  = Some None.
Proof. reflexivity. Qed.

(** ** Entries for a car that does not exist *)

Lemma join_cars_unknown cs fl z :
  FuelLog.car_id fl = SInt z -> z ∉ map Car.id cs -> join_cars cs fl = [].
Proof.
  intros Hfl Hz. unfold join_cars. rewrite Hfl.
  induction cs as [|c cs IH]; [done|].
  rewrite filter_cons_False.
  - apply IH. intros Hin. apply Hz. by right.
  - simpl. intros Heq%Z.eqb_eq. apply Hz. rewrite Heq. by left.
Qed.

Lemma get_logs_select `{Platform} car_id db db' :
  select_logs car_id db' = select_logs car_id db ->
  (get_logs car_id db').2 = (get_logs car_id db).2.
Proof. intros Hsel. unfold get_logs. simpl. by rewrite Hsel. Qed.

(** X15: [POST /api/logs] does not look the car up: an entry whose
    [car_id] is the id of no stored car is accepted with 201 and stored,
    [GET /api/logs] answers exactly as before the insert, and the
    unfiltered scope of [GET /api/stats] has grown by the new row. *)
Theorem add_log_unknown_car `{Platform} now data db db' b z :
  add_log now data db = (db', Ok (b, 201)) ->
  Json.get data "car_id" = JInt z -> z ∉ map Car.id (cars db) ->
  exists new,
    fuel_logs db' = fuel_logs db ++ [new] /\
    FuelLog.car_id new = SInt z /\
    (forall car_id, (get_logs car_id db').2 = (get_logs car_id db).2) /\
    entries_in_scope None db' = entries_in_scope None db ++ [new].
Proof.
  intros E Hcar Hz.
  pose proof (add_log_frame _ _ _ _ _ E) as (Hcars & _).
  apply add_log_inserted in E
    as (amount & price & odo & p_car & p_at & p_unit & p_notes & c_at
        & c_unit & rowid & E).
  destruct E as (_ & _ & _ & _ & Hp_car & _ & _ & _ & _ & _ & _ & _ & _
                 & _ & _ & Hdb & _).
  rewrite Hcar in Hp_car. simpl in Hp_car.
  destruct (_ && _); [|discriminate]. injection Hp_car as <-.
  eexists. split; [by rewrite Hdb|]. split; [done|]. split.
  - intros car_id. apply get_logs_select. unfold select_logs.
    rewrite Hcars. f_equal. rewrite Hdb. simpl.
    rewrite filter_app, flat_map_app.
    match goal with
    | |- _ ++ ?l = _ => assert (l = []) as ->; [|by rewrite app_nil_r]
    end.
    destruct (decide (in_scope car_id (SInt z))).
    + rewrite filter_cons_True by done. simpl.
      by rewrite (join_cars_unknown _ _ z).
    + by rewrite filter_cons_False.
  - unfold entries_in_scope. rewrite Hdb. simpl.
    rewrite filter_app. f_equal.
Qed.

Lemma add_log_unknown_car_witness :
  exists new,
    fuel_logs
      (@add_log Demo.platform "t9"
         (Demo.log_body 7 "2024-02-01" 30 20 None) Demo.db5).1
      = fuel_logs Demo.db5 ++ [new] /\
    FuelLog.car_id new = SInt 7 /\
    (forall car_id,
        (@get_logs Demo.platform car_id
           (@add_log Demo.platform "t9"
              (Demo.log_body 7 "2024-02-01" 30 20 None) Demo.db5).1).2
        = (@get_logs Demo.platform car_id Demo.db5).2) /\
    @entries_in_scope Demo.platform None
      (@add_log Demo.platform "t9"
         (Demo.log_body 7 "2024-02-01" 30 20 None) Demo.db5).1
      = @entries_in_scope Demo.platform None Demo.db5 ++ [new].
Proof.
  apply (@add_log_unknown_car Demo.platform "t9"
           (Demo.log_body 7 "2024-02-01" 30 20 None) Demo.db5 _
           (JObj [("id", JInt 5); ("total_cost", JFloat 600)]) 7).
  - vm_compute. reflexivity.
  - reflexivity.
  - vm_compute. intros [[=]|[]%not_elem_of_nil]%elem_of_cons.
Defined.

(** ** The listing of fuel entries: order and content *)

Lemma StronglySorted_snoc {A : Type} (R : A -> A -> Prop) (l : list A) x :
  StronglySorted R l -> Forall (fun a => R a x) l ->
  StronglySorted R (l ++ [x]).
Proof.
  induction 1 as [|y l Hl IH Hy]; simpl; intros Hx.
  - repeat constructor.
  - apply Forall_cons in Hx as [Hyx Hx]. constructor; [auto|].
    apply Forall_app. split; [done | by repeat constructor].
Qed.

Lemma StronglySorted_rev_flip {A : Type} (R : A -> A -> Prop) (l : list A) :
  StronglySorted R l -> StronglySorted (flip R) (rev l).
Proof.
  induction 1 as [|x l Hl IH Hx]; simpl; [constructor|].
  apply StronglySorted_snoc; [done|].
  rewrite Forall_forall in Hx. apply Forall_forall.
  intros a Ha%list_elem_of_In%in_rev%list_elem_of_In. by apply Hx.
Qed.

Lemma sorted_reverse_sorted {A : Type} (key : A -> string) (l : list A) :
  StronglySorted (fun a b => String.ltb (key a) (key b) = false)
    (Py.sorted_reverse key l).
Proof.
  unfold Py.sorted_reverse.
  apply (StronglySorted_rev_flip (key_le key)), sorted_sorted.
Qed.

Lemma fmap_sorted_reverse {A B : Type} (f : A -> B) (key : B -> string) l :
  f <$> Py.sorted_reverse (fun a => key (f a)) l
  = Py.sorted_reverse key (f <$> l).
Proof.
  unfold Py.sorted_reverse.
  change (f <$> rev (Py.sorted (fun a => key (f a)) (rev l)))
    with (map f (rev (Py.sorted (fun a => key (f a)) (rev l)))).
  rewrite map_rev. f_equal.
  change (map f (Py.sorted (fun a => key (f a)) (rev l)))
    with (f <$> Py.sorted (fun a => key (f a)) (rev l)).
  rewrite fmap_sorted. f_equal.
  change (f <$> rev l) with (map f (rev l)). by rewrite map_rev.
Qed.

(** X16: [GET /api/logs] always answers; its entries come newest first
    (no entry is followed by one with a later timestamp), and, the
    derived keys aside, they are the fetched rows, each exactly once. *)
Theorem get_logs_newest_first `{Platform} car_id db :
  exists logs,
    (get_logs car_id db).2 = Ok logs /\
    StronglySorted
      (fun a b => String.ltb (timestamp a) (timestamp b) = false) logs /\
    columns <$> logs ≡ₚ select_logs car_id db.
Proof.
  destruct (get_logs_store car_id db) as (st' & Hrun & _).
  eexists. split; [exact Hrun|]. split.
  - rewrite (fmap_sorted_reverse (fun l => st' !!! l)
               (fun d => FuelLog.logged_at (row d))).
    apply (sorted_reverse_sorted timestamp).
  - by apply get_logs_permutation.
Qed.

Lemma elem_of_select_logs `{Platform} car_id db d :
  d ∈ select_logs car_id db <->
  exists fl c,
    fl ∈ fuel_logs db /\ in_scope car_id (FuelLog.car_id fl) /\
    c ∈ cars db /\ FuelLog.car_id fl = SInt (Car.id c) /\
    d = {| row := fl; registration := Car.registration c;
           car_description := Car.description c; derived := ∅ |}.
Proof.
  unfold select_logs. rewrite sorted_perm, list_elem_of_In, in_flat_map.
  split.
  - intros (fl & Hfl%list_elem_of_In & Hd%list_elem_of_In).
    apply list_elem_of_filter in Hfl as [Hscope Hfl].
    unfold join_cars in Hd. apply list_elem_of_fmap in Hd as (c & -> & Hc).
    apply list_elem_of_filter in Hc as [Heq%sql_eq_SInt Hc].
    by exists fl, c.
  - intros (fl & c & Hfl & Hscope & Hc & Heq & ->). exists fl. split.
    + apply list_elem_of_In, list_elem_of_filter. done.
    + apply list_elem_of_In. unfold join_cars. apply list_elem_of_fmap.
      exists c. split; [done|]. apply list_elem_of_filter. split; [|done].
      rewrite Heq. simpl. apply Z.eqb_refl.
Qed.

Lemma get_logs_lists `{Platform} car_id db logs fl c :
  (get_logs car_id db).2 = Ok logs ->
  fl ∈ fuel_logs db -> in_scope car_id (FuelLog.car_id fl) ->
  c ∈ cars db -> FuelLog.car_id fl = SInt (Car.id c) ->
  exists e, e ∈ logs /\ row e = fl /\
            registration e = Car.registration c /\
            car_description e = Car.description c.
Proof.
  intros Hrun Hfl Hscope Hc Heq.
  pose proof (get_logs_permutation car_id db _ Hrun) as Hperm.
  assert ({| row := fl; registration := Car.registration c;
             car_description := Car.description c; derived := ∅ |}
          ∈ select_logs car_id db) as Hd.
  { apply elem_of_select_logs. by exists fl, c. }
  rewrite <- Hperm in Hd. apply list_elem_of_fmap in Hd as (e & Hd & He).
  exists e. split; [done|]. destruct e as [rw reg desc dv].
  by injection Hd as -> -> ->.
Qed.

(** X17: every entry of [GET /api/logs] is a stored fuel row within the
    asked scope, joined with the registration and description of the
    stored car whose id it names; and every such pair of a fuel row and
    a car is listed. *)
Theorem get_logs_joined `{Platform} car_id db :
  exists logs,
    (get_logs car_id db).2 = Ok logs /\
    (forall e, e ∈ logs ->
       row e ∈ fuel_logs db /\ in_scope car_id (FuelLog.car_id (row e)) /\
       exists c, c ∈ cars db /\ FuelLog.car_id (row e) = SInt (Car.id c) /\
                 registration e = Car.registration c /\
                 car_description e = Car.description c) /\
    (forall fl c,
       fl ∈ fuel_logs db -> in_scope car_id (FuelLog.car_id fl) ->
       c ∈ cars db -> FuelLog.car_id fl = SInt (Car.id c) ->
       exists e, e ∈ logs /\ row e = fl /\
                 registration e = Car.registration c /\
                 car_description e = Car.description c).
Proof.
  destruct (get_logs_store car_id db) as (st' & Hrun & _).
  eexists. split; [exact Hrun|].
  pose proof (get_logs_permutation car_id db _ Hrun) as Hperm.
  split.
  - intros e He.
    assert (columns e ∈ select_logs car_id db) as Hc.
    { rewrite <- Hperm. apply list_elem_of_fmap. by exists e. }
    apply elem_of_select_logs in Hc
      as (fl & c & Hfl & Hscope & Hc & Heq & Hd).
    destruct e as [rw reg desc dv]. injection Hd as -> -> ->.
    split; [done|]. split; [done|]. by exists c.
  - intros fl c. by apply get_logs_lists.
Qed.

(** ** The listing against the statistics *)

Lemma get_stats_runs `{Platform} car_id db :
  exists s,
    (get_stats car_id db).2 = Ok s /\
    total_entries s = Z.of_nat (length (entries_in_scope car_id db)) /\
    service_breakdown s
      = select_breakdown
          (filter (fun sl => in_scope car_id (ServiceLog.car_id sl))
                  (service_logs db)) /\
    total_service_cost s
      = match service_breakdown s with
        | [] => PyInt 0
        | _ => python_sum (map (fun r => r.1.2) (service_breakdown s))
        end.
Proof.
  unfold get_stats. fold (entries_in_scope car_id db).
  set (base := entries_in_scope car_id db).
  set (fuel := Sql.coalesce_sum (map FuelLog.fuel_amount base)).
  set (spent := Sql.coalesce_sum (map FuelLog.total_cost base)).
  assert (aggregate fuel) as Hfuel by apply coalesce_real_aggregate.
  assert (aggregate spent) as Hspent by apply coalesce_real_aggregate.
  rewrite (span_stats_aggregate _ _ fuel spent Hfuel Hspent).
  rewrite (litre_stats_aggregate fuel spent Hfuel Hspent).
  destruct (span_of _ _ fuel spent) as [[distance consumption] per_km].
  eexists. split; [reflexivity|]. by cbn.
Qed.

Lemma filter_car_none (z : Z) cs :
  z ∉ map Car.id cs ->
  filter (fun c => Sql.eq (SInt z) (SInt (Car.id c)) = true) cs = [].
Proof.
  induction cs as [|c cs IH]; [done|]. intros Hz.
  rewrite filter_cons_False.
  - apply IH. intros Hin. apply Hz. by right.
  - simpl. intros Heq%Z.eqb_eq. apply Hz. rewrite Heq. by left.
Qed.

Lemma filter_car_one cs c :
  NoDup (map Car.id cs) -> c ∈ cs ->
  filter (fun c' => Sql.eq (SInt (Car.id c)) (SInt (Car.id c')) = true) cs
  = [c].
Proof.
  induction cs as [|c' cs IH]; [by intros _ ?%not_elem_of_nil|].
  intros [Hc' Hnd]%NoDup_cons [<-|Hc]%elem_of_cons.
  - rewrite filter_cons_True by (simpl; apply Z.eqb_refl).
    by rewrite filter_car_none.
  - rewrite filter_cons_False; [by apply IH|].
    simpl. intros Heq%Z.eqb_eq. apply Hc'. rewrite <- Heq.
    apply list_elem_of_fmap. by exists c.
Qed.

Lemma join_cars_one cs fl c :
  NoDup (map Car.id cs) -> c ∈ cs -> FuelLog.car_id fl = SInt (Car.id c) ->
  join_cars cs fl =
    [{| row := fl; registration := Car.registration c;
        car_description := Car.description c; derived := ∅ |}].
Proof.
  intros Hnd Hc Hfl. unfold join_cars. rewrite Hfl.
  by rewrite filter_car_one.
Qed.

Lemma length_flat_map_one {A B : Type} (f : A -> list B) (l : list A) :
  Forall (fun x => length (f x) = 1%nat) l ->
  length (flat_map f l) = length l.
Proof.
  induction 1 as [|x l Hx _ IH]; simpl; [done|].
  rewrite length_app, Hx, IH. done.
Qed.

(** X18: as long as every stored fuel row names exactly one stored car,
    [GET /api/logs] and [GET /api/stats] agree on the entries in scope:
    [total_entries] is the number of entries the listing returns, for
    every [car_id] filter. *)
Theorem listing_matches_stats `{Platform} car_id db :
  fuel_logs_joined db ->
  exists logs s,
    (get_logs car_id db).2 = Ok logs /\
    (get_stats car_id db).2 = Ok s /\
    total_entries s = Z.of_nat (length logs).
Proof.
  intros [Hnd Hall].
  destruct (get_logs_store car_id db) as (st' & Hrun & _).
  destruct (get_stats_runs car_id db) as (s & Hs & Hn & _).
  eexists _, s. split; [exact Hrun|]. split; [exact Hs|].
  rewrite Hn. f_equal.
  pose proof (get_logs_permutation car_id db _ Hrun) as Hperm.
  apply Permutation_length in Hperm. rewrite length_fmap in Hperm.
  rewrite Hperm. unfold select_logs, entries_in_scope.
  rewrite (Permutation_length (sorted_perm _ _)).
  symmetry. apply length_flat_map_one.
  apply Forall_filter_sub. eapply Forall_impl; [exact Hall|]. simpl.
  intros fl (c & Hc & Hfl). by rewrite (join_cars_one _ _ c).
Qed.

Lemma listing_matches_stats_witness :
  exists logs s,
    (@get_logs Demo.platform (Some "1") Demo.db5).2 = Ok logs /\
    (@get_stats Demo.platform (Some "1") Demo.db5).2 = Ok s /\
    total_entries s = Z.of_nat (length logs).
Proof.
  apply (@listing_matches_stats Demo.platform (Some "1") Demo.db5).
  split.
  - vm_compute. repeat constructor. by intros ?%not_elem_of_nil.
  - vm_compute. repeat constructor; eexists; (split; [by left | reflexivity]).
Defined.

(** ** The second sort of [get_logs] *)

Lemma sorted_fixed {A : Type} (key : A -> string) (l : list A) :
  StronglySorted (key_le key) l -> Py.sorted key l = l.
Proof.
  induction 1 as [|x l Hl IH Hx]; simpl; [done|].
  rewrite IH. by apply insert_by_head.
Qed.

Lemma StronglySorted_filter_sub {A : Type} (R : A -> A -> Prop)
    (P : A -> Prop) `{!∀ x, Decision (P x)} (l : list A) :
  StronglySorted R l -> StronglySorted R (filter P l).
Proof.
  induction 1 as [|x l Hl IH Hx]; [constructor|].
  destruct (decide (P x)).
  - rewrite filter_cons_True by done. constructor; [done|].
    by apply Forall_filter_sub.
  - by rewrite filter_cons_False.
Qed.

Lemma StronglySorted_seq a n : StronglySorted lt (seq a n).
Proof.
  revert a. induction n as [|n IH]; intros a; simpl; constructor; [apply IH|].
  apply Forall_forall. intros i Hi%elem_of_seq. lia.
Qed.

Lemma StronglySorted_lookup_lt {A : Type} (R : A -> A -> Prop) (l : list A) :
  StronglySorted R l ->
  forall i j a b, (i < j)%nat -> l !! i = Some a -> l !! j = Some b -> R a b.
Proof.
  induction 1 as [|x l Hl IH Hx]; intros i j a b Hij Hi Hj; [done|].
  destruct j as [|j]; [lia|]. simpl in Hj. destruct i as [|i].
  - injection Hi as <-. rewrite Forall_forall in Hx.
    by apply Hx, list_elem_of_lookup_2 with j.
  - apply (IH i j); [lia | done | done].
Qed.

(** Indices in ascending order into a list sorted by [key] are sorted by
    the key of what they point to. *)
Lemma indices_sorted {A : Type} `{Inhabited A} (key : A -> string)
    (l : list A) (w : list nat) :
  StronglySorted (key_le key) l -> StronglySorted lt w ->
  Forall (fun i => (i < length l)%nat) w ->
  StronglySorted (key_le (fun i => key (l !!! i))) w.
Proof.
  intros Hl. induction 1 as [|i w Hw IH Hi]; intros Hlen; [constructor|].
  apply Forall_cons in Hlen as [Hilen Hlen]. constructor; [auto|].
  rewrite Forall_forall in Hi, Hlen. apply Forall_forall. intros j Hj.
  apply (StronglySorted_lookup_lt _ l Hl i j); [by apply Hi | |];
    apply list_lookup_lookup_total_lt; [done | by apply Hlen].
Qed.

(** X19: the rows reach [get_logs] in timestamp order, so the list
    [with_odo] of every car is already sorted when it is built:
    [with_odo.sort(key=logged_at)] leaves it as the filter returned
    it. *)
Theorem with_odo_sort_is_identity `{Platform} car_id db k car_logs :
  (k, car_logs) ∈ group_by_car (select_logs car_id db) ->
  Py.sorted
    (fun l => FuelLog.logged_at (row (select_logs car_id db !!! l)))
    (filter (fun l => is_Some (FuelLog.odometer
                                 (row (select_logs car_id db !!! l))))
            car_logs)
  = filter (fun l => is_Some (FuelLog.odometer
                                (row (select_logs car_id db !!! l))))
           car_logs.
Proof.
  intros Hg. set (logs := select_logs car_id db) in *.
  assert (forall r, (r < length logs)%nat -> exists z, car_key logs r = SInt z)
    as Hkeys.
  { intros r Hr. unfold car_key.
    apply (select_logs_fresh car_id db), list_elem_of_lookup_total_2, Hr. }
  destruct (grouped_inv (car_key logs) (length logs) Hkeys (length logs))
    as (_ & Hgrp & _); [done|].
  rewrite <- group_by_car_grouped in Hgrp.
  destruct (Hgrp k car_logs Hg) as (z & _ & -> & _).
  apply sorted_fixed.
  apply (indices_sorted (fun d => FuelLog.logged_at (row d)) logs).
  - apply sorted_sorted.
  - unfold members. do 2 apply StronglySorted_filter_sub.
    apply StronglySorted_seq.
  - unfold members. do 2 apply Forall_filter_sub.
    apply Forall_forall. by intros i [_ ?]%elem_of_seq.
Qed.

Lemma with_odo_sort_is_identity_witness :
  Py.sorted
    (fun l => FuelLog.logged_at
                (row (@select_logs Demo.platform None Demo.db5 !!! l)))
    (filter (fun l => is_Some (FuelLog.odometer
                                 (row (@select_logs Demo.platform None
                                         Demo.db5 !!! l))))
            [0; 1; 2; 3]%nat)
  = filter (fun l => is_Some (FuelLog.odometer
                                (row (@select_logs Demo.platform None
                                        Demo.db5 !!! l))))
           [0; 1; 2; 3]%nat.
Proof.
  apply (@with_odo_sort_is_identity Demo.platform None Demo.db5 (SInt 1)).
  vm_compute. by left.
Defined.

(** ** Service entries: the listing *)

Lemma elem_of_get_services `{Platform} car_id category db s :
  s ∈ (get_services car_id category db).2 <->
  exists sl c,
    sl ∈ services_in_scope car_id db /\
    in_category category (ServiceLog.category sl) /\
    c ∈ cars db /\ ServiceLog.car_id sl = SInt (Car.id c) /\
    s = service_joined sl c.
Proof.
  unfold get_services, services_in_scope. simpl.
  rewrite sorted_reverse_elem_of, list_elem_of_In, in_flat_map. split.
  - intros (sl & Hsl%list_elem_of_In & Hs%list_elem_of_In).
    apply list_elem_of_filter in Hsl as [[Hscope Hcat] Hsl].
    apply list_elem_of_fmap in Hs as (c & -> & Hc).
    apply list_elem_of_filter in Hc as [Heq%sql_eq_SInt Hc].
    exists sl, c. split; [by apply list_elem_of_filter|]. done.
  - intros (sl & c & [Hscope Hsl]%list_elem_of_filter & Hcat & Hc & Heq & ->).
    exists sl. split.
    + apply list_elem_of_In, list_elem_of_filter. done.
    + apply list_elem_of_In, list_elem_of_fmap.
      exists c. split; [done|]. apply list_elem_of_filter. split; [|done].
      rewrite Heq. simpl. apply Z.eqb_refl.
Qed.

(** X20: [GET /api/services] leaves the database as it was and lists,
    newest first, exactly the stored service rows that pass both
    filters ([car_id] and [category], each only when given and not
    empty) and name a stored car, each joined with that car's
    registration and description. *)
Theorem get_services_listing `{Platform} car_id category db :
  (get_services car_id category db).1 = db /\
  StronglySorted
    (fun a b => String.ltb (ServiceLog.logged_at (svc_row a))
                           (ServiceLog.logged_at (svc_row b)) = false)
    (get_services car_id category db).2 /\
  (forall s,
      s ∈ (get_services car_id category db).2 <->
      exists sl c,
        sl ∈ service_logs db /\
        in_scope car_id (ServiceLog.car_id sl) /\
        in_category category (ServiceLog.category sl) /\
        c ∈ cars db /\ ServiceLog.car_id sl = SInt (Car.id c) /\
        s = service_joined sl c).
Proof.
  split; [done|]. split.
  - apply (sorted_reverse_sorted
             (fun s => ServiceLog.logged_at (svc_row s))).
  - intros s. rewrite elem_of_get_services. unfold services_in_scope.
    split.
    + intros (sl & c & [Hscope Hsl]%list_elem_of_filter & Hrest).
      by exists sl, c.
    + intros (sl & c & Hsl & Hscope & Hrest). exists sl, c.
      split; [by apply list_elem_of_filter | done].
Qed.

(** X21: in the row a successful [POST /api/services] stores, a falsy
    [next_due_date] (absent, null, the empty string) is stored as NULL,
    a falsy [next_due_km] or [odometer] (absent, null, 0) is stored as
    NULL, and [provider] and [notes] left out are stored as the empty
    string. *)
Theorem add_service_optional_fields `{Platform} now data db db' b :
  add_service now data db = (db', Ok (b, 201)) ->
  exists new,
    service_logs db' = service_logs db ++ [new] /\
    (Json.truthy (Json.get data "next_due_date") = false ->
     ServiceLog.next_due_date new = None) /\
    (Json.truthy (Json.get data "next_due_km") = false ->
     ServiceLog.next_due_km new = None) /\
    (Json.truthy (Json.get data "odometer") = false ->
     ServiceLog.odometer new = None) /\
    (data !! "provider" = None -> ServiceLog.provider new = Some "") /\
    (data !! "notes" = None -> ServiceLog.notes new = Some "").
Proof.
  intros E. apply add_service_inserted in E
    as (cat & cost & km & odo & p_car & p_at & p_prov & p_notes & p_due
        & c_at & rowid & E).
  destruct E as (_ & _ & _ & _ & _ & Hkm & Hodo & _ & _ & _ & _ & Hprov
                 & Hnotes & Hdue & _ & -> & _).
  eexists. split; [reflexivity|]. simpl. split; [|split; [|split; [|split]]].
  - intros Hf. unfold or_none in Hdue. rewrite Hf in Hdue.
    by injection Hdue as <-.
  - intros Hf. by rewrite (optional_float_falsy _ _ _ Hf Hkm).
  - intros Hf. by rewrite (optional_float_falsy _ _ _ Hf Hodo).
  - intros Hn. unfold Json.get_or in Hprov. rewrite Hn in Hprov.
    by injection Hprov as <-.
  - intros Hn. unfold Json.get_or in Hnotes. rewrite Hn in Hnotes.
    by injection Hnotes as <-.
Qed.

Lemma add_service_optional_fields_witness :
  exists new,
    service_logs Demo.db6 = service_logs Demo.db5 ++ [new] /\
    ServiceLog.next_due_date new = None /\
    ServiceLog.next_due_km new = None /\
    ServiceLog.odometer new = None /\
    ServiceLog.provider new = Some "" /\
    ServiceLog.notes new = Some "".
Proof.
  destruct (@add_service_optional_fields Demo.platform "t5"
              (Demo.service_body 1 "tyres" "2024-01-10" (JInt 0))
              Demo.db5 Demo.db6 (JObj [("id", JInt 1)]))
    as (new & Hnew & H1 & H2 & H3 & H4 & H5); [vm_compute; reflexivity|].
  exists new. split; [exact Hnew|].
  split; [apply H1; reflexivity|]. split; [apply H2; reflexivity|].
  split; [apply H3; reflexivity|]. split; [apply H4 | apply H5]; reflexivity.
Defined.

(** ** Deleting entries *)

(** X22: [DELETE /api/logs/<id>] with an id that fits a signed 64-bit
    integer answers 200 with the id; it removes the fuel rows of that id
    and no other, afterwards no entry of [GET /api/logs] carries the id,
    and an id that no fuel row carries leaves the database exactly as it
    was. An id that does not fit cannot be bound: OverflowError is
    raised and nothing changes. *)
Theorem delete_log_removes `{Platform} log_id db :
  (- 2 ^ 63 <= log_id < 2 ^ 63 ->
   (delete_log log_id db).2 = Ok (JObj [("deleted", JInt log_id)], 200) /\
   (forall l, l ∈ fuel_logs (delete_log log_id db).1 <->
              l ∈ fuel_logs db /\ FuelLog.id l ≠ log_id) /\
   (forall car_id logs e,
       (get_logs car_id (delete_log log_id db).1).2 = Ok logs -> e ∈ logs ->
       FuelLog.id (row e) ≠ log_id) /\
   (log_id ∉ map FuelLog.id (fuel_logs db) ->
    (delete_log log_id db).1 = db)) /\
  (¬ (- 2 ^ 63 <= log_id < 2 ^ 63) ->
   delete_log log_id db = (db, Raise OverflowError)).
Proof.
  split.
  - intros Hid. unfold delete_log. rewrite (where_id_range _ Hid).
    cbn [mbind result_bind commit fst snd].
    split; [done|]. split; [|split].
    + intros l. simpl. rewrite list_elem_of_filter. tauto.
    + intros car_id logs e Hrun He.
      apply (get_logs_columns _ _ _ _ Hrun), elem_of_select_logs in He
        as (fl & c & Hfl & _ & _ & _ & Hd).
      simpl in Hfl. apply list_elem_of_filter in Hfl as [Hne _].
      assert (row e = fl) as -> by (by destruct e; injection Hd as -> _ _).
      done.
    + intros Habs. rewrite (filter_absent FuelLog.id) by done.
      apply set_fuel_logs_same.
  - intros Hid. unfold delete_log. by rewrite (where_id_overflow _ Hid).
Qed.

Lemma delete_log_removes_witness :
  (delete_log 1 Demo.db3).2 = Ok (JObj [("deleted", JInt 1)], 200) /\
  (forall l, l ∈ fuel_logs (delete_log 1 Demo.db3).1 <->
             l ∈ fuel_logs Demo.db3 /\ FuelLog.id l ≠ 1) /\
  (forall car_id logs e,
      (@get_logs Demo.platform car_id (delete_log 1 Demo.db3).1).2 = Ok logs ->
      e ∈ logs -> FuelLog.id (row e) ≠ 1) /\
  (1 ∉ map FuelLog.id (fuel_logs Demo.db3) ->
   (delete_log 1 Demo.db3).1 = Demo.db3).
Proof.
  apply (proj1 (@delete_log_removes Demo.platform 1 Demo.db3)). lia.
Defined.

Example delete_log_first_fill :
  map FuelLog.id (fuel_logs (delete_log 1 Demo.db3).1) = [2].
Proof. reflexivity. Qed.

Example delete_log_overflow :
  delete_log (2 ^ 63) Demo.db3 = (Demo.db3, Raise OverflowError).
Proof. reflexivity. Qed.

(** X23: [DELETE /api/services/<id>] with an id that fits a signed
    64-bit integer answers 200 with the id; it removes the service rows
    of that id and no other, afterwards no entry of [GET /api/services]
    carries the id, and an id that no service row carries leaves the
    database exactly as it was. An id that does not fit cannot be bound:
    OverflowError is raised and nothing changes. *)
Theorem delete_service_removes `{Platform} svc_id db :
  (- 2 ^ 63 <= svc_id < 2 ^ 63 ->
   (delete_service svc_id db).2
     = Ok (JObj [("deleted", JInt svc_id)], 200) /\
   (forall s, s ∈ service_logs (delete_service svc_id db).1 <->
              s ∈ service_logs db /\ ServiceLog.id s ≠ svc_id) /\
   (forall car_id category s,
       s ∈ (get_services car_id category (delete_service svc_id db).1).2 ->
       ServiceLog.id (svc_row s) ≠ svc_id) /\
   (svc_id ∉ map ServiceLog.id (service_logs db) ->
    (delete_service svc_id db).1 = db)) /\
  (¬ (- 2 ^ 63 <= svc_id < 2 ^ 63) ->
   delete_service svc_id db = (db, Raise OverflowError)).
Proof.
  split.
  - intros Hid. unfold delete_service. rewrite (where_id_range _ Hid).
    cbn [mbind result_bind commit fst snd].
    split; [done|]. split; [|split].
    + intros s. simpl. rewrite list_elem_of_filter. tauto.
    + intros car_id category s Hs.
      apply elem_of_get_services in Hs as (sl & c & Hsl & _ & _ & _ & ->).
      apply list_elem_of_filter in Hsl as [_ Hsl]. simpl in Hsl.
      by apply list_elem_of_filter in Hsl as [Hne _].
    + intros Habs. rewrite (filter_absent ServiceLog.id) by done.
      apply set_service_logs_same.
  - intros Hid. unfold delete_service. by rewrite (where_id_overflow _ Hid).
Qed.

Lemma delete_service_removes_witness :
  (delete_service 1 Demo.db6).2 = Ok (JObj [("deleted", JInt 1)], 200) /\
  (forall s, s ∈ service_logs (delete_service 1 Demo.db6).1 <->
             s ∈ service_logs Demo.db6 /\ ServiceLog.id s ≠ 1) /\
  (forall car_id category s,
      s ∈ (@get_services Demo.platform car_id category
             (delete_service 1 Demo.db6).1).2 ->
      ServiceLog.id (svc_row s) ≠ 1) /\
  (1 ∉ map ServiceLog.id (service_logs Demo.db6) ->
   (delete_service 1 Demo.db6).1 = Demo.db6).
Proof.
  apply (proj1 (@delete_service_removes Demo.platform 1 Demo.db6)). lia.
Defined.

Example delete_service_only_entry :
  service_logs (delete_service 1 Demo.db6).1 = [].
Proof. reflexivity. Qed.

(** ** Statistics: the service breakdown *)

Lemma sum_indicator (k : string) (cats : list string) :
  NoDup cats -> k ∈ cats ->
  foldr Z.add 0 (map (fun c => if decide (k = c) then 1 else 0) cats) = 1.
Proof.
  induction cats as [|c cats IH]; [by intros _ ?%not_elem_of_nil|].
  intros [Hc Hnd]%NoDup_cons Hk. simpl. destruct (decide (k = c)) as [->|Hne].
  - assert (foldr Z.add 0
              (map (fun c0 => if decide (c = c0) then 1 else 0) cats) = 0)
      as ->; [|lia].
    clear IH Hk Hnd. induction cats as [|c1 cats IH]; [done|]. simpl.
    destruct (decide (c = c1)) as [->|_].
    + destruct Hc. by left.
    + rewrite IH; [done|]. intros Hin. apply Hc. by right.
  - apply elem_of_cons in Hk as [->|Hk]; [done|]. rewrite IH; done.
Qed.

Lemma counts_cons (cats : list string) sl (svc : list ServiceLog.row) :
  foldr Z.add 0
    (map (fun c => Z.of_nat (length (of_category c (sl :: svc)))) cats)
  = foldr Z.add 0
      (map (fun c => Z.of_nat (length (of_category c svc))) cats)
    + foldr Z.add 0
        (map (fun c => if decide (ServiceLog.category sl = c) then 1 else 0)
             cats).
Proof.
  induction cats as [|c cats IH]; [done|]. simpl. rewrite IH.
  unfold of_category at 1. destruct (decide (ServiceLog.category sl = c)).
  - rewrite filter_cons_True by done. simpl length.
    fold (of_category c svc). lia.
  - rewrite filter_cons_False by done. fold (of_category c svc). lia.
Qed.

Lemma counts_partition (cats : list string) (svc : list ServiceLog.row) :
  NoDup cats -> Forall (fun sl => ServiceLog.category sl ∈ cats) svc ->
  foldr Z.add 0
    (map (fun c => Z.of_nat (length (of_category c svc))) cats)
  = Z.of_nat (length svc).
Proof.
  intros Hnd. induction 1 as [|sl svc Hsl _ IH].
  - simpl. clear Hnd. induction cats as [|c cats IHc]; [done|]. simpl.
    by rewrite IHc.
  - rewrite counts_cons, IH, sum_indicator by done. simpl length. lia.
Qed.

Lemma of_category_nonempty c (svc : list ServiceLog.row) :
  c ∈ map ServiceLog.category svc <-> of_category c svc ≠ [].
Proof.
  unfold of_category. split.
  - intros (sl & -> & Hsl)%list_elem_of_fmap Hnil.
    assert (sl ∈ filter (fun sl0 => ServiceLog.category sl0
                                    = ServiceLog.category sl) svc) as Hin
      by (by apply list_elem_of_filter).
    rewrite Hnil in Hin. by apply not_elem_of_nil in Hin.
  - intros Hne.
    destruct (filter (fun sl => ServiceLog.category sl = c) svc)
      as [|sl l] eqn:E; [done|].
    assert (sl ∈ filter (fun sl => ServiceLog.category sl = c) svc) as Hin
      by (rewrite E; by left).
    apply list_elem_of_filter in Hin as [<- Hin].
    apply list_elem_of_fmap. by exists sl.
Qed.

Lemma elem_of_select_breakdown `{Platform} svc c total n :
  (c, total, n) ∈ select_breakdown svc <->
  of_category c svc ≠ [] /\
  total = Sql.coalesce_sum (map ServiceLog.cost (of_category c svc)) /\
  n = Z.of_nat (length (of_category c svc)).
Proof.
  unfold select_breakdown. rewrite list_elem_of_fmap.
  fold (of_category c svc). split.
  - intros (c' & [= -> -> ->] & Hc). fold (of_category c' svc).
    rewrite sorted_perm, elem_of_remove_dups in Hc.
    split; [by apply of_category_nonempty|]. by rewrite length_map.
  - intros (Hne & -> & ->). exists c. fold (of_category c svc).
    split; [by rewrite length_map|].
    rewrite sorted_perm, elem_of_remove_dups. by apply of_category_nonempty.
Qed.

(** X24: in the answer of [GET /api/stats], [service_breakdown] has one
    row for each category that has a service entry in scope and no
    other row; the row holds the summed cost and the count of the
    entries of its category, the counts add up to the number of service
    entries in scope, and with no service entry in scope the breakdown
    is empty and [total_service_cost] is the integer 0. *)
Theorem get_stats_service_breakdown `{Platform} car_id db :
  exists s,
    (get_stats car_id db).2 = Ok s /\
    NoDup (map (fun r => r.1.1) (service_breakdown s)) /\
    (forall c total n,
        (c, total, n) ∈ service_breakdown s <->
        of_category c (services_in_scope car_id db) ≠ [] /\
        total = Sql.coalesce_sum
                  (map ServiceLog.cost
                       (of_category c (services_in_scope car_id db))) /\
        n = Z.of_nat (length (of_category c (services_in_scope car_id db))))
    /\
    foldr Z.add 0 (map snd (service_breakdown s))
      = Z.of_nat (length (services_in_scope car_id db)) /\
    (services_in_scope car_id db = [] ->
     service_breakdown s = [] /\ total_service_cost s = PyInt 0).
Proof.
  destruct (get_stats_runs car_id db) as (s & Hs & _ & Hb & Ht).
  fold (services_in_scope car_id db) in Hb.
  exists s. split; [exact Hs|]. rewrite Ht, Hb. clear Hs Ht Hb.
  set (svc := services_in_scope car_id db).
  assert (NoDup (Py.sorted (fun c => c)
                   (remove_dups (map ServiceLog.category svc)))) as Hnd.
  { rewrite sorted_perm. apply NoDup_remove_dups. }
  split; [|split; [|split]].
  - unfold select_breakdown. rewrite map_map. simpl. by rewrite map_id.
  - intros c total n. apply elem_of_select_breakdown.
  - unfold select_breakdown. rewrite map_map. simpl.
    rewrite <- (counts_partition _ svc Hnd).
    + f_equal. apply map_ext. intros c. by rewrite length_map.
    + apply Forall_forall. intros sl Hsl.
      rewrite sorted_perm, elem_of_remove_dups.
      apply list_elem_of_fmap. by exists sl.
  - by intros ->.
Qed.

(** ** What was written is listed *)

(** X25: the car a successful [POST /api/cars] reports is on
    [GET /api/cars] afterwards, under the reported id and registration
    and with the time of the insert; it is the only car listed under
    that registration, and the listing is one longer than before. *)
Theorem add_car_then_listed `{Platform} now data db db' b :
  add_car now data db = (db', Ok (b, 201)) ->
  exists rowid reg c,
    b = JObj [("id", JInt rowid); ("registration", JStr reg)] /\
    c ∈ (get_cars db').2 /\
    Car.id c = rowid /\ Car.registration c = reg /\ Car.created_at c = now /\
    (forall c', c' ∈ (get_cars db').2 -> Car.registration c' = reg ->
                c' = c) /\
    length (get_cars db').2 = S (length (get_cars db).2).
Proof.
  intros Hadd.
  destruct (add_car_created _ _ _ _ _ Hadd)
    as (reg & desc & _ & _ & Hfree & -> & ->).
  exists (Sql.autoincrement (cars_seq db) (map Car.id (cars db))),
    (Py.upper (Py.strip reg)),
    {| Car.id := Sql.autoincrement (cars_seq db) (map Car.id (cars db));
       Car.registration := Py.upper (Py.strip reg);
       Car.description := Py.strip desc; Car.created_at := now |}.
  split; [reflexivity|]. unfold get_cars.
  cbn [fst snd cars set_cars Car.id Car.registration Car.created_at].
  rewrite !(Permutation_length (sorted_perm _ _)), length_app.
  split; [|split; [reflexivity|split; [reflexivity|split; [reflexivity|]]]].
  - rewrite sorted_perm. apply elem_of_app. right. by left.
  - split; [|simpl; lia]. intros c'. rewrite sorted_perm.
    intros [Hc'|Hc'%list_elem_of_singleton]%elem_of_app Hreg; [|done].
    destruct Hfree. rewrite <- Hreg. apply list_elem_of_fmap. by exists c'.
Qed.

Lemma add_car_then_listed_witness :
  exists rowid reg c,
    JObj [("id", JInt 1); ("registration", JStr "CF 12 AB")]
      = JObj [("id", JInt rowid); ("registration", JStr reg)] /\
    c ∈ (get_cars Demo.db1).2 /\
    Car.id c = rowid /\ Car.registration c = reg /\ Car.created_at c = "t0" /\
    (forall c', c' ∈ (get_cars Demo.db1).2 -> Car.registration c' = reg ->
                c' = c) /\
    length (get_cars Demo.db1).2 = S (length (get_cars init_db).2).
Proof.
  apply (@add_car_then_listed Demo.platform "t0"
           (Demo.car_body "cf 12 ab" "Test") init_db).
  vm_compute. reflexivity.
Defined.

(** X26: the entry a successful [POST /api/logs] reports, written for a
    stored car, is on [GET /api/logs] afterwards (under every filter
    that lets the car through): under the reported id, with the reported
    [total_cost] as the REAL column holds it (the same number; the very
    same float unless it is a negative zero, which is listed as [0.0]),
    joined with that car's registration and description. *)
Theorem add_log_then_listed `{Platform} now data db db' b c car_id :
  add_log now data db = (db', Ok (b, 201)) ->
  c ∈ cars db -> Json.get data "car_id" = JInt (Car.id c) ->
  in_scope car_id (SInt (Car.id c)) ->
  exists rowid total logs e,
    b = JObj [("id", JInt rowid); ("total_cost", JFloat total)] /\
    (get_logs car_id db').2 = Ok logs /\ e ∈ logs /\
    FuelLog.id (row e) = rowid /\
    FuelLog.total_cost (row e) = Sql.real_column total /\
    PrimFloat.eqb (FuelLog.total_cost (row e)) total = true /\
    FuelLog.car_id (row e) = SInt (Car.id c) /\
    registration e = Car.registration c /\
    car_description e = Car.description c.
Proof.
  intros E Hc Hcar Hscope.
  pose proof (add_log_frame _ _ _ _ _ E) as (Hcars & _).
  apply add_log_inserted in E
    as (amount & price & odo & p_car & p_at & p_unit & p_notes & c_at
        & c_unit & rowid & E).
  destruct E as (_ & _ & _ & _ & Hp_car & _ & _ & _ & _ & _ & _ & _ & _
                 & Hnan & _ & Hdb & ->).
  rewrite Hcar in Hp_car. simpl in Hp_car.
  destruct (_ && _); [|discriminate]. injection Hp_car as <-.
  destruct (get_logs_store car_id db') as (st' & Hrun & _).
  match type of Hdb with
  | _ = set_fuel_logs _ (_ ++ [?r]) _ => set (new := r) in *
  end.
  destruct (get_logs_lists car_id db' _ new c Hrun) as (e & He & Hrow & Hreg).
  - rewrite Hdb. simpl. apply elem_of_app. right. by left.
  - done.
  - by rewrite Hcars.
  - done.
  - eexists rowid, _, _, e. split; [reflexivity|]. split; [exact Hrun|].
    split; [done|]. rewrite Hrow. subst new. simpl.
    split; [done|]. split; [done|]. split; [by apply real_column_eqb|].
    done.
Qed.

Lemma add_log_then_listed_witness :
  exists rowid total logs e,
    JObj [("id", JInt 2); ("total_cost", JFloat 860)]
      = JObj [("id", JInt rowid); ("total_cost", JFloat total)] /\
    (@get_logs Demo.platform None Demo.db3).2 = Ok logs /\ e ∈ logs /\
    FuelLog.id (row e) = rowid /\
    FuelLog.total_cost (row e) = Sql.real_column total /\
    PrimFloat.eqb (FuelLog.total_cost (row e)) total = true /\
    FuelLog.car_id (row e) = SInt 1 /\
    registration e = "CF 12 AB" /\ car_description e = "Test".
Proof.
  apply (@add_log_then_listed Demo.platform "t2"
           (Demo.log_body 1 "2024-01-08" 40 21.5 (Some 1200%float))
           Demo.db2 Demo.db3 _
           {| Car.id := 1; Car.registration := "CF 12 AB";
              Car.description := "Test"; Car.created_at := "t0" |} None).
  - vm_compute. reflexivity.
  - vm_compute. by left.
  - reflexivity.
  - exact I.
Defined.

(** X27: the entry a successful [POST /api/services] reports, written
    for a stored car, is on [GET /api/services] afterwards (under every
    filter that lets the car and the category through): under the
    reported id, joined with that car's registration and description. *)
Theorem add_service_then_listed `{Platform} now data db db' b c car_id
    category cat :
  add_service now data db = (db', Ok (b, 201)) ->
  c ∈ cars db -> Json.get data "car_id" = JInt (Car.id c) ->
  Json.get data "category" = JStr cat ->
  in_scope car_id (SInt (Car.id c)) -> in_category category cat ->
  exists rowid s,
    b = JObj [("id", JInt rowid)] /\
    s ∈ (get_services car_id category db').2 /\
    ServiceLog.id (svc_row s) = rowid /\
    ServiceLog.category (svc_row s) = cat /\
    ServiceLog.car_id (svc_row s) = SInt (Car.id c) /\
    svc_registration s = Car.registration c /\
    svc_car_description s = Car.description c.
Proof.
  intros E Hc Hcar Hcat Hscope Hincat.
  pose proof (add_service_frame _ _ _ _ _ E) as (Hcars & _).
  apply add_service_inserted in E
    as (cat' & cost & km & odo & p_car & p_at & p_prov & p_notes & p_due
        & c_at & rowid & E).
  destruct E as (_ & Hcat' & _ & _ & _ & _ & _ & Hp_car & _ & _ & _ & _
                 & _ & _ & _ & Hdb & ->).
  assert (cat' = cat) as -> by congruence.
  rewrite Hcar in Hp_car. simpl in Hp_car.
  destruct (_ && _); [|discriminate]. injection Hp_car as <-.
  match type of Hdb with
  | _ = set_service_logs _ (_ ++ [?r]) _ => set (new := r) in *
  end.
  exists rowid, (service_joined new c). split; [done|]. split; [|done].
  apply elem_of_get_services. exists new, c.
  split; [|by rewrite Hcars].
  apply list_elem_of_filter. split; [done|].
  rewrite Hdb. simpl. apply elem_of_app. right. by left.
Qed.

Lemma add_service_then_listed_witness :
  exists rowid s,
    JObj [("id", JInt 1)] = JObj [("id", JInt rowid)] /\
    s ∈ (@get_services Demo.platform None (Some "tyres") Demo.db6).2 /\
    ServiceLog.id (svc_row s) = rowid /\
    ServiceLog.category (svc_row s) = "tyres" /\
    ServiceLog.car_id (svc_row s) = SInt 1 /\
    svc_registration s = "CF 12 AB" /\
    svc_car_description s = "Test".
Proof.
  apply (@add_service_then_listed Demo.platform "t5"
           (Demo.service_body 1 "tyres" "2024-01-10" (JInt 0))
           Demo.db5 Demo.db6 _
           {| Car.id := 1; Car.registration := "CF 12 AB";
              Car.description := "Test"; Car.created_at := "t0" |}
           None (Some "tyres") "tyres").
  - vm_compute. reflexivity.
  - vm_compute. by left.
  - reflexivity.
  - reflexivity.
  - exact I.
  - reflexivity.
Defined.

(** ** Values that do not convert *)

(** X28: with all five required fields given and truthy, a
    [fuel_amount] or a [price_per_unit] that [float()] refuses (a
    non-empty list or object: TypeError; a string that is no number:
    ValueError; an integer too large for a float: OverflowError) makes
    [POST /api/logs] raise that exception before anything is written. *)
Theorem add_log_conversion_error `{Platform} now data db e :
  Forall (fun k => Json.truthy (Json.get data k) = true)
         required_log_fields ->
  Json.float (Json.get data "fuel_amount") = Raise e \/
  (exists amount, Json.float (Json.get data "fuel_amount") = Ok amount /\
                  Json.float (Json.get data "price_per_unit") = Raise e) ->
  add_log now data db = (db, Raise e).
Proof.
  intros Hreq Hbad. unfold add_log.
  change ["car_id"; "logged_at"; "fuel_amount"; "fuel_unit"; "price_per_unit"]
    with required_log_fields.
  rewrite (first_missing_forall _ _ _ Hreq).
  rewrite Forall_forall in Hreq.
  rewrite !get_item
    by (apply Hreq; unfold required_log_fields; rewrite !elem_of_cons; tauto).
  destruct Hbad as [Hamount|(amount & Hamount & Hprice)].
  - change (Ok ?a ≫= ?f) with (f a). by rewrite Hamount.
  - change (Ok ?a ≫= ?f) with (f a). rewrite Hamount.
    change (Ok ?a ≫= ?f) with (f a). by rewrite Hprice.
Qed.

Lemma add_log_conversion_error_witness :
  @add_log Demo.platform "t1"
    (<["fuel_amount" := JArr [JInt 35]]>
       (Demo.log_body 1 "2024-01-01" 35 20 None)) Demo.db1
  = (Demo.db1, Raise TypeError).
Proof.
  apply (@add_log_conversion_error Demo.platform).
  - repeat constructor.
  - left. reflexivity.
Defined.
